(** * Ranking harvester: retrying transport, stop offsets, fan-out

    A shallow embedding of [utils.py], [multicatch.py], [catchgraderank.py],
    [rank_utils.py], of the identifiers, file names and account file of
    [config.py], and of the functions of [login.py] and [register.py] that
    read and write account.json.

    - Python values decoded from JSON are the inductive [json]; a [dict] is
      an association list in insertion order.
    - Exceptions are the inductive [exn]; [SystemExit] is a [BaseException]
      that [except Exception] does not catch and a bare [except:] does.
    - Code that touches the network, sleeps, or reads and writes the
      collector object shared by the worker threads is a [prog]: a finite
      tree of atomic accesses, requests and sleeps.  A thread pool runs many
      of them under a schedule, one atomic step at a time. *)

From stdpp Require Import base option list gmap strings sorting pretty.
From Stdlib Require Import ZArith Lia Ascii.

#[local] Set Warnings "-register-all".
Local Open Scope string_scope.
Local Open Scope list_scope.
Local Open Scope Z_scope.

(** ** Python values, exceptions, results *)
Module Py.

Inductive json : Type :=
| JNull
| JBool (b : bool)
| JNum (n : Z)
| JStr (s : string)
| JList (l : list json)
| JDict (d : list (string * json)).

(** The body of an HTTP response: the serialisation of a JSON document,
    kept as the document, or a text that [json.loads] rejects. *)
Inductive text : Type :=
| Doc (j : json)
| Raw (s : string).

Inductive exn : Type :=
| SystemExit (code : Z)
| RequestException (msg : string) (response : option text)
| PyException (kind : string).

Inductive outcome (A : Type) : Type :=
| Ret (a : A)
| Raise (e : exn).
Arguments Ret {A} a.
Arguments Raise {A} e.

Definition is_Exception (e : exn) : bool :=
  match e with SystemExit _ => false | _ => true end.

Definition obind {A B} (o : outcome A) (f : A -> outcome B) : outcome B :=
  match o with Ret a => f a | Raise e => Raise e end.

(** [try: ... except Exception: pass] *)
Definition except_Exception (o : outcome unit) : outcome unit :=
  match o with
  | Raise e => if is_Exception e then Ret tt else Raise e
  | Ret u => Ret u
  end.

(** [try: ... except: pass] : a bare handler also swallows [SystemExit]. *)
Definition except_bare (o : outcome unit) : outcome unit := Ret tt.

(** Truth value of an object in a condition. *)
Definition truthy (j : json) : bool :=
  match j with
  | JNull => false
  | JBool b => b
  | JNum n => negb (n =? 0)
  | JStr s => negb (String.eqb s "")
  | JList l => match l with [] => false | _ => true end
  | JDict d => match d with [] => false | _ => true end
  end.

Definition truthy_text (t : text) : bool :=
  match t with Doc _ => true | Raw s => negb (String.eqb s "") end.

Definition is_dict (j : json) : bool :=
  match j with JDict _ => true | _ => false end.

Fixpoint assoc {V} (k : string) (d : list (string * V)) : option V :=
  match d with
  | [] => None
  | (k', v) :: d' => if String.eqb k k' then Some v else assoc k d'
  end.

(** [d[k] = v] : replaces in place, or appends a new key. *)
Fixpoint dict_set {V} (k : string) (v : V) (d : list (string * V))
  : list (string * V) :=
  match d with
  | [] => [(k, v)]
  | (k', v') :: d' =>
      if String.eqb k k' then (k', v) :: d' else (k', v') :: dict_set k v d'
  end.

(** [isinstance(obj, dict) and k in obj] *)
Definition has_key (k : string) (obj : json) : bool :=
  match obj with
  | JDict d => match assoc k d with Some _ => true | None => false end
  | _ => false
  end.

(** [obj.get(k, default)] : [AttributeError] unless [obj] is a dict. *)
Definition py_get (obj : json) (k : string) (default : json) : outcome json :=
  match obj with
  | JDict d => Ret (match assoc k d with Some v => v | None => default end)
  | _ => Raise (PyException "AttributeError")
  end.

(** [obj[k]] on a dict. *)
Definition py_item (obj : json) (k : string) : outcome json :=
  match obj with
  | JDict d =>
      match assoc k d with
      | Some v => Ret v
      | None => Raise (PyException "KeyError")
      end
  | _ => Raise (PyException "TypeError")
  end.

Definition chars (s : string) : list json :=
  (fun a => JStr (String a EmptyString)) <$> String.list_ascii_of_string s.

(** [for x in obj] *)
Definition py_iter (obj : json) : outcome (list json) :=
  match obj with
  | JList l => Ret l
  | JDict d => Ret ((fun kv => JStr (fst kv)) <$> d)
  | JStr s => Ret (chars s)
  | _ => Raise (PyException "TypeError")
  end.

(** [json.loads(t)] *)
Definition json_loads (t : text) : outcome json :=
  match t with
  | Doc j => Ret j
  | Raw _ => Raise (PyException "JSONDecodeError")
  end.

Record Response : Type := { status_code : Z; body : text }.

(** [response.json()] : its decoding error is a [RequestException]. *)
Definition response_json (r : Response) : outcome json :=
  match body r with
  | Doc j => Ret j
  | Raw _ => Raise (RequestException "JSONDecodeError" None)
  end.

(** What a wrapped request function hands back: a [Response] object or a
    decoded value ([JNull] is [None]). *)
Inductive pyval : Type :=
| VResp (r : Response)
| VJson (j : json).

(** Outcome of [requests.post]. *)
Inductive reply : Type :=
| Got (r : Response)
| Failed (msg : string) (response : option text).

End Py.
Export Py.

(** ** Programs over a shared object *)
Module Prog.

Section Prog.
Context {S Q R : Type}.

(** [Atomic act k] is one indivisible access to the shared object (a read,
    or a [with self.lock:] block): the object becomes [act s] and the
    program goes on as [k s]. [Ask q k] blocks on the environment. *)
Inductive prog (A : Type) : Type :=
| Done (o : outcome A)
| Atomic (act : S -> S) (k : S -> prog A)
| Ask (q : Q) (k : R -> prog A)
| Sleep (d : Z) (k : prog A).
Arguments Done {A} o.
Arguments Atomic {A} act k.
Arguments Ask {A} q k.
Arguments Sleep {A} d k.

(** Run [p], then hand its outcome, normal or exceptional, to [f]. *)
Fixpoint on_finish {A B} (p : prog A) (f : outcome A -> prog B) : prog B :=
  match p with
  | Done o => f o
  | Atomic act k => Atomic act (fun s => on_finish (k s) f)
  | Ask q k => Ask q (fun r => on_finish (k r) f)
  | Sleep d k => Sleep d (on_finish k f)
  end.

Definition bind {A B} (p : prog A) (f : A -> prog B) : prog B :=
  on_finish p (fun o => match o with Ret a => f a | Raise e => Done (Raise e) end).

Definition lift {A B} (o : outcome A) (f : A -> prog B) : prog B :=
  match o with Ret a => f a | Raise e => Done (Raise e) end.

(** [yields p o] : [p] can finish with [o] for some behaviour of the
    environment and of the other threads. *)
Inductive yields {A} : prog A -> outcome A -> Prop :=
| yields_done o : yields (Done o) o
| yields_atomic act k s o : yields (k s) o -> yields (Atomic act k) o
| yields_ask q k r o : yields (k r) o -> yields (Ask q k) o
| yields_sleep d k o : yields k o -> yields (Sleep d k) o.

(** One thread alone: replies are taken from a list; the trace records
    the requests sent and the sleeps. *)
Inductive event : Type :=
| Sent (q : Q)
| Slept (d : Z).

Fixpoint exec {A} (p : prog A) (rs : list R) (s : S)
  : option (outcome A * S * list event) :=
  match p with
  | Done o => Some (o, s, [])
  | Atomic act k => exec (k s) rs (act s)
  | Ask q k =>
      match rs with
      | [] => None
      | r :: rs' =>
          match exec (k r) rs' s with
          | Some (o, s', tr) => Some (o, s', Sent q :: tr)
          | None => None
          end
      end
  | Sleep d k =>
      match exec k rs s with
      | Some (o, s', tr) => Some (o, s', Slept d :: tr)
      | None => None
      end
  end.
End Prog.

Arguments prog : clear implicits.
Arguments event : clear implicits.
Arguments Done {S Q R A} o.
Arguments Atomic {S Q R A} act k.
Arguments Ask {S Q R A} q k.
Arguments Sleep {S Q R A} d k.

(** [link w f] : the wrapper [w] asks for a call of the wrapped function;
    each such call runs [f]. *)
Fixpoint link {S Q R A B} (w : prog S unit (outcome B) A) (f : prog S Q R B)
  : prog S Q R A :=
  match w with
  | Done o => Done o
  | Atomic act k => Atomic act (fun s => link (k s) f)
  | Ask _ k => on_finish f (fun o => link (k o) f)
  | Sleep d k => Sleep d (link k f)
  end.

End Prog.
Export Prog.

(** ** config.py *)
Module Config.

(** [CHARACTER_NAMES], in insertion order. *)
Definition CHARACTER_NAMES : list (Z * string) :=
  [ (1031, "花帆"); (1032, "さやか"); (1033, "瑠璃乃");
    (1021, "梢"); (1022, "缀理"); (1023, "慈");
    (1041, "吟子"); (1042, "小铃"); (1043, "姬芽");
    (1051, "泉"); (1052, "塞拉斯") ].

End Config.
Export Config.

(** ** utils.py *)
Module Utils.

Definition sentinel : string := "21001_210102".

(** [isinstance(j, dict) and j.get("error_code") == "21001_210102"] *)
Definition is_sentinel (j : json) : bool :=
  match j with
  | JDict d =>
      match assoc "error_code" d with
      | Some (JStr s) => String.eqb s sentinel
      | _ => false
      end
  | _ => false
  end.

(** [if ...: sys.exit(1)] *)
Definition check_sentinel (j : json) : outcome unit :=
  if is_sentinel j then Raise (SystemExit 1) else Ret tt.

Definition truthy_opt (t : option text) : bool :=
  match t with Some t => truthy_text t | None => false end.

(** How control leaves the [try] body of one round of the loop: by
    [return], or by an exception, with [last_response] as it is then. *)
Inductive attempt : Type :=
| AReturn (v : json)
| ARaise (e : exn) (last_response : option text).

(** Lines 34-80, from the value or exception of the call of [func]. *)
Definition try_body (o : outcome pyval) (last_response : option text) : attempt :=
  match o with
  | Raise e => ARaise e last_response
  | Ret (VResp response) =>
      match except_Exception (obind (response_json response) check_sentinel) with
      | Raise e => ARaise e last_response
      | Ret _ =>
          if status_code response =? 200 then
            match response_json response with
            | Ret response_json => AReturn response_json
            | Raise e => ARaise e last_response
            end
          else
            match except_bare (obind (response_json response) check_sentinel) with
            | Raise e => ARaise e last_response
            | Ret _ =>
                ARaise (RequestException "status" None) (Some (body response))
            end
      end
  | Ret (VJson JNull) => ARaise (PyException "Exception") last_response
  | Ret (VJson response) => AReturn response
  end.

(** Lines 82-100: [e.response.text] is looked at only when no body was
    saved before. *)
Definition recover_body (response last_response : option text)
  : outcome (option text) :=
  if negb (truthy_opt last_response) then
    match response with
    | Some t =>
        if truthy_text t then
          obind (except_bare (obind (json_loads t) check_sentinel))
                (fun _ => Ret (Some t))
        else Ret (Some t)
    | None => Ret None
    end
  else Ret last_response.

(** Lines 105-120, before the final [return None]. *)
Definition final_check (last_response : option text) : outcome unit :=
  match last_response with
  | Some t =>
      if truthy_text t then except_bare (obind (json_loads t) check_sentinel)
      else Ret tt
  | None => Ret tt
  end.

Section Retry.
Context {S : Type}.
Variables (max_retries initial_delay : nat).

(** [initial_delay * (2 ** (retries - 1))] *)
Definition wait_time (retries : nat) : Z :=
  Z.of_nat initial_delay * 2 ^ (Z.of_nat retries - 1).

(** The [while retries < max_retries] loop; a call of the wrapped
    function is an [Ask]. [fuel] bounds the rounds left. *)
Fixpoint retry_loop (fuel retries : nat) (last_response : option text)
  : prog S unit (outcome pyval) json :=
  match fuel with
  | O => Done (Ret JNull)
  | Datatypes.S fuel' =>
      if negb (retries <? max_retries)%nat then Done (Ret JNull)
      else
        Ask tt (fun o =>
          match try_body o last_response with
          | AReturn v => Done (Ret v)
          | ARaise (RequestException _ response) last_response =>
              lift (recover_body response last_response) (fun last_response =>
                let retries := Datatypes.S retries in
                if (retries =? max_retries)%nat then
                  lift (final_check last_response) (fun _ => Done (Ret JNull))
                else
                  Sleep (wait_time retries)
                        (retry_loop fuel' retries last_response))
          | ARaise (PyException _) last_response =>
              let retries := Datatypes.S retries in
              if (retries =? max_retries)%nat then Done (Ret JNull)
              else
                Sleep (wait_time retries)
                      (retry_loop fuel' retries last_response)
          | ARaise (SystemExit code) _ => Done (Raise (SystemExit code))
          end)
  end.

(** [wrapper] : [retries = 0], [last_response = None]. *)
Definition wrapper : prog S unit (outcome pyval) json :=
  retry_loop max_retries 0 None.
End Retry.

(** [@retry_request] with the default [max_retries=3, initial_delay=1]. *)
Definition retry_request {S Q R} (func : prog S Q R pyval) : prog S Q R json :=
  link (wrapper 3 1) func.

(** Requests sent to the API. *)
Inductive request : Type :=
| RankingReq (target_rank ranking_type : Z)
| GradeRankingReq (target_rank : Z)
| ProfileReq (player_id : json).

Section Profile.
Context {S : Type}.

(** Body of [get_player_profile], before decoration. *)
Definition get_player_profile_func (player_id : json)
  : prog S request reply pyval :=
  Ask (ProfileReq player_id) (fun r =>
    match r with
    | Failed msg response => Done (Raise (RequestException msg response))
    | Got response =>
        if status_code response =? 200 then
          lift (response_json response) (fun j => Done (Ret (VJson j)))
        else Done (Ret (VResp response))
    end).

Definition get_player_profile (player_id : json) : prog S request reply json :=
  retry_request (get_player_profile_func player_id).
End Profile.

(** [character_id in character_levels] : the hash key of a decoded value
    among integer keys; a list or a dict is unhashable. *)
Definition int_key (j : json) : outcome (option Z) :=
  match j with
  | JNum n => Ret (Some n)
  | JBool b => Ret (Some (Z.b2z b))
  | JNull | JStr _ => Ret None
  | JList _ | JDict _ => Raise (PyException "TypeError")
  end.

Fixpoint lookup_level (cid : Z) (levels : list (Z * json)) : option json :=
  match levels with
  | [] => None
  | (c, v) :: rest => if c =? cid then Some v else lookup_level cid rest
  end.

Fixpoint set_level (cid : Z) (v : json) (levels : list (Z * json))
  : list (Z * json) :=
  match levels with
  | [] => []
  | (c, v') :: rest =>
      if c =? cid then (c, v) :: rest else (c, v') :: set_level cid v rest
  end.

(** Lines 274-278. *)
Fixpoint update_levels (fan_level_list : list json) (levels : list (Z * json))
  : outcome (list (Z * json)) :=
  match fan_level_list with
  | [] => Ret levels
  | fan_info :: rest =>
      obind (py_get fan_info "character_id" JNull) (fun character_id =>
      obind (py_get fan_info "d_season_fan_level" (JNum 0)) (fun d_season_level =>
      obind (int_key character_id) (fun key =>
        match key with
        | Some cid =>
            match lookup_level cid levels with
            | Some _ => update_levels rest (set_level cid d_season_level levels)
            | None => update_levels rest levels
            end
        | None => update_levels rest levels
        end)))
  end.

(** [sum(...)] over decoded values, starting from [0]. *)
Fixpoint py_sum (vs : list json) : outcome Z :=
  match vs with
  | [] => Ret 0
  | JNum n :: rest => obind (py_sum rest) (fun t => Ret (n + t))
  | JBool b :: rest => obind (py_sum rest) (fun t => Ret (Z.b2z b + t))
  | _ :: _ => Raise (PyException "TypeError")
  end.

(** [char_id not in [1051, 1052]] *)
Definition excluded (char_id : Z) : bool :=
  (char_id =? 1051) || (char_id =? 1052).

Fixpoint add_characters (names : list (Z * string)) (levels : list (Z * json))
  (player_data : list (string * json)) : outcome (list (string * json)) :=
  match names with
  | [] => Ret player_data
  | (character_id, character_name) :: rest =>
      match lookup_level character_id levels with
      | Some v => add_characters rest levels (dict_set character_name v player_data)
      | None => Raise (PyException "KeyError")
      end
  end.

(** Lines 246-294: the record built from a truthy [result]. *)
Definition build_player_data (player_info player_id : json)
  (include_last_login : bool) (result : json) : outcome json :=
  obind (py_get result "profile_info" (JDict [])) (fun profile_data =>
  obind (py_get profile_data "fan_level_list" (JList [])) (fun fan_level_list =>
  obind (py_get profile_data "player_name" (JStr "")) (fun player_name =>
  obind (py_get profile_data "search_guild_key" (JStr "")) (fun search_guild_key =>
  obind (py_get profile_data "guild_name" (JStr "")) (fun guild_name =>
  obind (py_get profile_data "dream_style_num" (JNum 0)) (fun dream_style_num =>
  let player_data :=
    [ ("player_id", player_id); ("player_name", player_name);
      ("search_guild_key", search_guild_key); ("guild_name", guild_name);
      ("DR数量", dream_style_num) ] in
  obind (if is_dict player_info then
           obind (py_get player_info "rank" (JStr "")) (fun rank =>
           obind (py_get player_info "point" (JNum 0)) (fun point =>
             Ret (dict_set "point" point (dict_set "rank" rank player_data))))
         else Ret player_data) (fun player_data =>
  obind (if include_last_login then
           obind (py_get profile_data "last_login_date" (JStr "")) (fun d =>
             Ret (dict_set "最后登录时间" d player_data))
         else Ret player_data) (fun player_data =>
  let character_levels := (fun c => (fst c, JNum 0)) <$> CHARACTER_NAMES in
  obind (py_iter fan_level_list) (fun fans =>
  obind (update_levels fans character_levels) (fun character_levels =>
  obind (py_sum (snd <$> character_levels)) (fun total_level =>
  obind (py_sum (snd <$> List.filter (fun c => negb (excluded (fst c))) character_levels))
        (fun total_104_level =>
  obind (add_characters CHARACTER_NAMES character_levels player_data)
        (fun player_data =>
    Ret (JDict (dict_set "104季度等级" (JNum total_104_level)
               (dict_set "季度等级" (JNum total_level) player_data)))))))))))))))).

Section FetchProfile.
Context {S : Type}.

(** [fetch_player_profile(player_info, include_last_login)] *)
Definition fetch_player_profile (player_info : json) (include_last_login : bool)
  : prog S request reply json :=
  lift (if is_dict player_info then py_item player_info "player_id"
        else Ret player_info) (fun player_id =>
  bind (get_player_profile player_id) (fun result =>
    if has_key "error_code" result then Done (Ret result)
    else if truthy result then
      Done (build_player_data player_info player_id include_last_login result)
    else Done (Ret JNull))).
End FetchProfile.

End Utils.
Export Utils.

(** ** rank_utils.py *)
Module RankUtils.

(** [generate_rank_targets] : [1, 27, 53, ...] up to [target_count]; the
    loop runs at most [target_count] times. *)
Fixpoint rank_targets_from (fuel : nat) (current_rank target_count : Z) : list Z :=
  match fuel with
  | O => []
  | Datatypes.S fuel' =>
      if current_rank <=? target_count
      then current_rank :: rank_targets_from fuel' (current_rank + 26) target_count
      else []
  end.

Definition generate_rank_targets (target_count : Z) : list Z :=
  rank_targets_from (Z.to_nat target_count) 1 target_count.

End RankUtils.
Export RankUtils.

(** ** The stop offset: [float('inf')] or an observed rank *)
Module Stop.

Inductive stop : Type :=
| Inf
| Fin (rank : Z).

(** [target_rank > stop] *)
Definition gt_stop (target_rank : Z) (s : stop) : bool :=
  match s with Inf => false | Fin r => r <? target_rank end.

(** [target_rank < stop] *)
Definition lt_stop (target_rank : Z) (s : stop) : bool :=
  match s with Inf => true | Fin r => target_rank <? r end.

(** Order on stop offsets, [Inf] on top. *)
Definition stop_le (a b : stop) : Prop :=
  match a, b with
  | _, Inf => True
  | Inf, Fin _ => False
  | Fin x, Fin y => x <= y
  end.

Definition stop_min (a b : stop) : stop :=
  match a, b with
  | Inf, _ => b
  | _, Inf => a
  | Fin x, Fin y => Fin (Z.min x y)
  end.

End Stop.
Export Stop.

(** ** concurrent.futures: a thread pool and the thread that owns it *)
Module Executor.

(** What the main thread blocks on. *)
Inductive main_query : Type :=
| NextCompleted (batch : list nat)
| Join
| Net (q : request)
| Login
| Input
| Pandas (op : string) (rows : list json).

Inductive main_reply : Type :=
| RIdx (i : nat)
| RUnit
| RNet (r : reply)
| RBool (b : bool)
| RStr (s : string)
| RIO (e : option exn).

Section Pool.
Context {S T : Type}.

Definition worker_prog : Type := prog S request reply json.

Inductive fut_state : Type :=
| Pending
| Running (p : worker_prog)
| Finished (o : outcome json)
| Cancelled.

(** [future.done()] *)
Definition done (st : fut_state) : bool :=
  match st with Finished _ | Cancelled => true | _ => false end.

Definition is_running (st : fut_state) : bool :=
  match st with Running _ => true | _ => false end.

(** The collector object and every future submitted so far. *)
Record pool : Type := { shared : S; futs : list (T * fut_state) }.

Definition with_shared (s : S) (g : pool) : pool :=
  {| shared := s; futs := futs g |}.

Definition with_fut (i : nat) (st : fut_state) (g : pool) : pool :=
  {| shared := shared g;
     futs := alter (fun f => (fst f, st)) i (futs g) |}.

(** [executor.submit(fn, t)] for each [t] of [ts]. *)
Definition submit (ts : list T) (g : pool) : pool :=
  {| shared := shared g; futs := futs g ++ ((fun t => (t, Pending)) <$> ts) |}.

(** [f.cancel()] : only a future that has not started is cancelled. *)
Definition cancel (i : nat) (g : pool) : pool :=
  match futs g !! i with
  | Some (_, Pending) => with_fut i Cancelled g
  | _ => g
  end.

Definition all_done (g : pool) : bool :=
  forallb (fun f => done (snd f)) (futs g).

Definition running_count (g : pool) : nat :=
  length (filter (fun f => is_running (snd f) = true) (futs g)).

Definition main_prog (B : Type) : Type := prog pool main_query main_reply B.

(** Code of a worker function when the main thread calls it itself. *)
Fixpoint in_main {A} (p : prog S request reply A) : main_prog A :=
  match p with
  | Done o => Done o
  | Atomic act k =>
      Atomic (fun g => with_shared (act (shared g)) g)
             (fun g => in_main (k (shared g)))
  | Ask q k =>
      Ask (Net q) (fun r =>
        match r with
        | RNet r => in_main (k r)
        | _ => Done (Raise (PyException "reply"))
        end)
  | Sleep d k => Sleep d (in_main k)
  end.

(** An exception inside [with ThreadPoolExecutor(...) as executor:]
    leaves through [__exit__], which waits for the submitted work. *)
Definition raise_in_with {B} (e : exn) : main_prog B :=
  Ask Join (fun _ => Done (Raise e)).

Definition lift_in_with {A B} (o : outcome A) (f : A -> main_prog B) : main_prog B :=
  match o with Ret a => f a | Raise e => raise_in_with e end.

Variable worker : T -> worker_prog.
Variable max_workers : nat.
Context {B : Type}.

Record config : Type := {
  the_pool : pool;
  main : main_prog B;
  yielded : list nat;
  sent : list (option nat * request);
  io : list (string * list json)
}.

Definition with_pool (g : pool) (c : config) : config :=
  {| the_pool := g; main := main c; yielded := yielded c;
     sent := sent c; io := io c |}.

Definition with_main (m : main_prog B) (c : config) : config :=
  {| the_pool := the_pool c; main := m; yielded := yielded c;
     sent := sent c; io := io c |}.

Definition log_sent (who : option nat) (q : request) (c : config) : config :=
  {| the_pool := the_pool c; main := main c; yielded := yielded c;
     sent := sent c ++ [(who, q)]; io := io c |}.

Definition log_io (op : string) (rows : list json) (c : config) : config :=
  {| the_pool := the_pool c; main := main c; yielded := yielded c;
     sent := sent c; io := io c ++ [(op, rows)] |}.

Definition log_yield (i : nat) (c : config) : config :=
  {| the_pool := the_pool c; main := main c; yielded := i :: yielded c;
     sent := sent c; io := io c |}.

Inductive label : Type :=
| Start (i : nat)
| Work (i : nat)
| Deliver (i : nat) (r : reply)
| MainStep
| MainReply (r : main_reply).

(** One worker thread takes a queued future. *)
Definition step_start (i : nat) (c : config) : option config :=
  match futs (the_pool c) !! i with
  | Some (t, Pending) =>
      if (running_count (the_pool c) <? max_workers)%nat
      then Some (with_pool (with_fut i (Running (worker t)) (the_pool c)) c)
      else None
  | _ => None
  end.

(** One atomic step of the worker that runs future [i]. *)
Definition step_work (i : nat) (c : config) : option config :=
  match futs (the_pool c) !! i with
  | Some (_, Running p) =>
      match p with
      | Done o => Some (with_pool (with_fut i (Finished o) (the_pool c)) c)
      | Atomic act k =>
          let s := shared (the_pool c) in
          Some (with_pool (with_fut i (Running (k s))
                                    (with_shared (act s) (the_pool c))) c)
      | Sleep _ k => Some (with_pool (with_fut i (Running k) (the_pool c)) c)
      | Ask _ _ => None
      end
  | _ => None
  end.

(** The request of worker [i] goes out and [r] comes back. *)
Definition step_deliver (i : nat) (r : reply) (c : config) : option config :=
  match futs (the_pool c) !! i with
  | Some (_, Running (Ask q k)) =>
      Some (log_sent (Some i) q
              (with_pool (with_fut i (Running (k r)) (the_pool c)) c))
  | _ => None
  end.

Definition step_main (c : config) : option config :=
  match main c with
  | Atomic act k =>
      Some (with_main (k (the_pool c)) (with_pool (act (the_pool c)) c))
  | Sleep _ k => Some (with_main k c)
  | _ => None
  end.

Definition fut_done (i : nat) (g : pool) : bool :=
  match futs g !! i with Some (_, st) => done st | None => false end.

Definition step_reply (r : main_reply) (c : config) : option config :=
  match main c with
  | Ask q k =>
      match q, r with
      | NextCompleted batch, RIdx i =>
          if bool_decide (i ∈ batch) && bool_decide (i ∉ yielded c)
             && fut_done i (the_pool c)
          then Some (log_yield i (with_main (k r) c)) else None
      | Join, RUnit =>
          if all_done (the_pool c) then Some (with_main (k r) c) else None
      | Net q, RNet _ => Some (log_sent None q (with_main (k r) c))
      | Login, RBool _ => Some (with_main (k r) c)
      | Input, RStr _ => Some (with_main (k r) c)
      | Pandas op rows, RIO _ => Some (log_io op rows (with_main (k r) c))
      | _, _ => None
      end
  | _ => None
  end.

Definition step (l : label) (c : config) : option config :=
  match l with
  | Start i => step_start i c
  | Work i => step_work i c
  | Deliver i r => step_deliver i r c
  | MainStep => step_main c
  | MainReply r => step_reply r c
  end.

(** A schedule is the list of steps taken, in order. *)
Fixpoint run (ls : list label) (c : config) : option config :=
  match ls with
  | [] => Some c
  | l :: ls' =>
      match step l c with
      | Some c' => run ls' c'
      | None => None
      end
  end.

Definition boot (s : S) (m : main_prog B) : config :=
  {| the_pool := {| shared := s; futs := [] |}; main := m;
     yielded := []; sent := []; io := [] |}.

(** Where a schedule leads, for a schedule that can be run. *)
Definition after (ls : list label) (c : config) : config :=
  match run ls c with Some c' => c' | None => c end.

Definition runs (ls : list label) (c : config) : bool :=
  match run ls c with Some _ => true | None => false end.

(** What the main thread has returned or raised at the end. *)
Definition result_of (c : config) : option (outcome B) :=
  match main c with Done o => Some o | _ => None end.
End Pool.

(** A sequential scheduler, to produce concrete runs: the main thread
    goes on while it can; when it waits for a future, the first future
    that is not done takes one step; [as_completed] yields the first
    finished future not yet yielded. The network answers from [net],
    which sees how many requests were sent before. *)
Section Sequential.
Context {S T B : Type}.
Variable worker : T -> worker_prog (S:=S).
Variable max_workers : nat.
Variable net : nat -> request -> reply.
Variable login_ok : bool.
Variable answer : string.

Definition first_undone (g : pool (S:=S) (T:=T)) : option nat :=
  fst <$> List.find (fun f => negb (done (snd (snd f))))
                    (imap (fun i f => (i, f)) (futs g)).

Definition worker_label (c : config (S:=S) (T:=T) (B:=B)) (i : nat) : label :=
  match futs (the_pool c) !! i with
  | Some (_, Pending) => Start i
  | Some (_, Running (Ask q _)) => Deliver i (net (length (sent c)) q)
  | _ => Work i
  end.

Definition pick (c : config (S:=S) (T:=T) (B:=B)) : option label :=
  match main c with
  | Atomic _ _ | Sleep _ _ => Some MainStep
  | Ask Login _ => Some (MainReply (RBool login_ok))
  | Ask Input _ => Some (MainReply (RStr answer))
  | Ask (Net q) _ => Some (MainReply (RNet (net (length (sent c)) q)))
  | Ask (Pandas _ _) _ => Some (MainReply (RIO None))
  | Ask Join _ =>
      match first_undone (the_pool c) with
      | Some i => Some (worker_label c i)
      | None => Some (MainReply RUnit)
      end
  | Ask (NextCompleted batch) _ =>
      match first_undone (the_pool c) with
      | Some i => Some (worker_label c i)
      | None =>
          (fun i => MainReply (RIdx i)) <$>
            List.find (fun i => bool_decide (i ∉ yielded c)) batch
      end
  | Done _ => worker_label c <$> first_undone (the_pool c)
  end.

Fixpoint drive (fuel : nat) (c : config (S:=S) (T:=T) (B:=B))
  : list label * config (S:=S) (T:=T) (B:=B) :=
  match fuel with
  | O => ([], c)
  | Datatypes.S fuel' =>
      match pick c with
      | Some l =>
          match step worker max_workers l c with
          | Some c' => let '(ls, c'') := drive fuel' c' in (l :: ls, c'')
          | None => ([], c)
          end
      | None => ([], c)
      end
  end.
End Sequential.

Arguments pool : clear implicits.
Arguments fut_state : clear implicits.
Arguments config : clear implicits.
Arguments main_prog : clear implicits.
Arguments worker_prog : clear implicits.

End Executor.
Export Executor.

(** ** Hashable keys of dicts and sets *)
Module Keys.

(** A decoded value used as a key: [True == 1] and [False == 0] as keys;
    a list or a dict is unhashable. *)
Inductive hkey : Type :=
| HNone
| HInt (n : Z)
| HStr (s : string).

#[export] Instance hkey_eq_dec : EqDecision hkey.
Proof. solve_decision. Defined.

#[export] Instance hkey_countable : Countable hkey.
Proof.
  refine (inj_countable'
    (fun k => match k with
              | HNone => inl ()
              | HInt n => inr (inl n)
              | HStr s => inr (inr s)
              end)
    (fun x => match x with
              | inl _ => HNone
              | inr (inl n) => HInt n
              | inr (inr s) => HStr s
              end) _).
  intros []; reflexivity.
Defined.

Definition py_hash (j : json) : outcome hkey :=
  match j with
  | JNull => Ret HNone
  | JBool b => Ret (HInt (Z.b2z b))
  | JNum n => Ret (HInt n)
  | JStr s => Ret (HStr s)
  | JList _ | JDict _ => Raise (PyException "TypeError")
  end.

End Keys.
Export Keys.

(** ** multicatch.py *)
Module Multicatch.

(** The fields of [RankingDataCollector] that the threads share. *)
Record collector : Type := {
  stop_ranks : gmap Z stop;
  completed_count_step1 : Z;
  completed_count_step2 : Z
}.

(** Keys of [self.ranking_types]. *)
Definition ranking_type_keys (ranking_day_type : Z) : list Z :=
  [ranking_day_type; 10; 11; 12].

(** [__init__] *)
Definition init (ranking_day_type : Z) : collector :=
  {| stop_ranks :=
       list_to_map ((fun rank_type => (rank_type, Inf)) <$>
                    ranking_type_keys ranking_day_type);
     completed_count_step1 := 0;
     completed_count_step2 := 0 |}.

(** Lines 88-91, one [with self.lock:] block. *)
Definition lower_stop (ranking_type target_rank : Z) (s : collector) : collector :=
  match stop_ranks s !! ranking_type with
  | Some st =>
      if lt_stop target_rank st then
        {| stop_ranks := <[ranking_type := Fin target_rank]> (stop_ranks s);
           completed_count_step1 := completed_count_step1 s;
           completed_count_step2 := completed_count_step2 s |}
      else s
  | None => s
  end.

(** Lines 93-95. *)
Definition count_step1 (s : collector) : collector :=
  {| stop_ranks := stop_ranks s;
     completed_count_step1 := completed_count_step1 s + 1;
     completed_count_step2 := completed_count_step2 s |}.

(** Lines 112-114. *)
Definition count_step2 (s : collector) : collector :=
  {| stop_ranks := stop_ranks s;
     completed_count_step1 := completed_count_step1 s;
     completed_count_step2 := completed_count_step2 s + 1 |}.

(** Body of [fetch_ranking], before decoration. *)
Definition fetch_ranking_func (target_rank ranking_type : Z)
  : prog collector request reply pyval :=
  Atomic id (fun s =>
    match stop_ranks s !! ranking_type with
    | None => Done (Raise (PyException "KeyError"))
    | Some st =>
        if gt_stop target_rank st then Done (Ret (VJson (JList [])))
        else
          Ask (RankingReq target_rank ranking_type) (fun r =>
            match r with
            | Failed msg response => Done (Raise (RequestException msg response))
            | Got response =>
                if status_code response =? 200 then
                  lift (response_json response) (fun ranking_data =>
                  lift (check_sentinel ranking_data) (fun _ =>
                  lift (py_get ranking_data "point_rankings" (JList []))
                       (fun player_list =>
                    let finish :=
                      Atomic count_step1 (fun _ => Done (Ret (VJson player_list))) in
                    if truthy player_list then finish
                    else
                      Atomic (lower_stop ranking_type target_rank) (fun s =>
                        match stop_ranks s !! ranking_type with
                        | Some _ => finish
                        | None => Done (Raise (PyException "KeyError"))
                        end))))
                else Done (Ret (VResp response))
            end)
    end).

Definition fetch_ranking (target_rank ranking_type : Z)
  : prog collector request reply json :=
  retry_request (fetch_ranking_func target_rank ranking_type).

(** [fetch_profile] *)
Definition fetch_profile (player_info : json) : prog collector request reply json :=
  bind (fetch_player_profile player_info false) (fun result =>
    lift (check_sentinel result) (fun _ =>
      if truthy result then
        Atomic count_step2 (fun _ => Done (Ret result))
      else Done (Ret JNull))).

(** What is submitted to an executor. *)
Inductive task : Type :=
| Probe (target_rank ranking_type : Z)
| Profile (player_info : json).

Definition worker (t : task) : worker_prog collector :=
  match t with
  | Probe target_rank ranking_type => fetch_ranking target_rank ranking_type
  | Profile player_info => fetch_profile player_info
  end.

Abbreviation mpool := (pool collector task).

(** How [collect_data] ends. *)
Inductive verdict : Type :=
| Quit
| NoData
| Details (data_list : list json).

(** Lines 281-285: the entry recorded for one player of a page. *)
Definition summary (player : json) : outcome json :=
  obind (py_get player "id" (JStr "")) (fun id =>
  obind (py_get player "rank" (JStr "")) (fun rank =>
  obind (py_get player "point" (JNum 0)) (fun point =>
    Ret (JDict [("player_id", id); ("rank", rank); ("point", point)])))).

Fixpoint summaries (players : list json) : outcome (list json) :=
  match players with
  | [] => Ret []
  | player :: rest =>
      obind (summary player) (fun e =>
      obind (summaries rest) (fun es => Ret (e :: es)))
  end.

(** Lines 273-275, one future of [futures.items()] at a time. *)
Definition try_cancel (ranking_type : Z) (j : nat) (g : mpool) : mpool :=
  match futs g !! j, stop_ranks (shared g) !! ranking_type with
  | Some (Probe r _, st), Some stop =>
      if negb (done st) && gt_stop r stop then cancel j g else g
  | _, _ => g
  end.

Fixpoint cancel_loop {B} (ranking_type : Z) (js : list nat) (k : main_prog collector task B)
  : main_prog collector task B :=
  match js with
  | [] => k
  | j :: js' =>
      Atomic (try_cancel ranking_type j) (fun g =>
        match stop_ranks (shared g) !! ranking_type with
        | Some _ => cancel_loop ranking_type js' k
        | None =>
            match futs g !! j with
            | Some (_, st) =>
                if done st then cancel_loop ranking_type js' k
                else raise_in_with (PyException "KeyError")
            | None => cancel_loop ranking_type js' k
            end
        end)
  end.

Definition info_map : Type := gmap Z (list json).

(** Lines 269-285: the [as_completed] loop of one ranking type. *)
Fixpoint harvest_loop {B} (ranking_type : Z) (batch : list nat) (n : nat)
  (info : info_map) (k : info_map -> main_prog collector task B)
  : main_prog collector task B :=
  match n with
  | O => k info
  | Datatypes.S n' =>
      Ask (NextCompleted batch) (fun r =>
        match r with
        | RIdx i =>
            Atomic id (fun g =>
              match futs g !! i, stop_ranks (shared g) !! ranking_type with
              | Some (Probe rank _, st), Some stop =>
                  if gt_stop rank stop then
                    cancel_loop ranking_type batch
                      (harvest_loop ranking_type batch n' info k)
                  else
                    match st with
                    | Finished (Ret result) =>
                        if truthy result then
                          lift_in_with (obind (py_iter result) summaries) (fun new =>
                            harvest_loop ranking_type batch n'
                              (alter (fun l => (l ++ new)%list) ranking_type info) k)
                        else harvest_loop ranking_type batch n' info k
                    | Finished (Raise e) => raise_in_with e
                    | _ => raise_in_with (PyException "CancelledError")
                    end
              | Some (Probe _ _, _), None => raise_in_with (PyException "KeyError")
              | _, _ => raise_in_with (PyException "reply")
              end)
        | _ => Done (Raise (PyException "reply"))
        end)
  end.

(** [sorted(self.target_ranks)] *)
Definition sorted (ranks : list Z) : list Z := merge_sort Z.le ranks.

(** Lines 260-285: one executor per ranking type. *)
Fixpoint phase1 {B} (target_ranks : list Z) (types : list Z) (info : info_map)
  (k : info_map -> main_prog collector task B) : main_prog collector task B :=
  match types with
  | [] => k info
  | ranking_type :: types' =>
      let sorted_ranks := sorted target_ranks in
      Atomic (submit ((fun rank => Probe rank ranking_type) <$> sorted_ranks))
        (fun g =>
          let batch := seq (length (futs g)) (length sorted_ranks) in
          harvest_loop ranking_type batch (length sorted_ranks) info (fun info =>
            Ask Join (fun _ => phase1 target_ranks types' info k)))
  end.

(** Lines 324-330: a later entry of the same player replaces an earlier one. *)
Fixpoint player_map (players : list json) (m : gmap hkey (json * json))
  : outcome (gmap hkey (json * json)) :=
  match players with
  | [] => Ret m
  | player :: rest =>
      obind (py_item player "player_id") (fun id =>
      obind (py_hash id) (fun key =>
      obind (py_item player "point") (fun point =>
      obind (py_item player "rank") (fun rank =>
        player_map rest (<[key := (point, rank)]> m)))))
  end.

Definition rank_name (rank_type : Z) : string :=
  if rank_type =? 10 then "A" else if rank_type =? 11 then "B" else "C".

Definition player_maps_t : Type := list (Z * gmap hkey (json * json)).

Fixpoint player_maps (info : info_map) (rank_types : list Z) : outcome player_maps_t :=
  match rank_types with
  | [] => Ret []
  | rank_type :: rest =>
      obind (player_map (default [] (info !! rank_type)) ∅) (fun m =>
      obind (player_maps info rest) (fun ms => Ret ((rank_type, m) :: ms)))
  end.

(** Lines 343-351 for one record. *)
Fixpoint merge_siblings (maps : player_maps_t) (key : hkey)
  (result : list (string * json)) : list (string * json) :=
  match maps with
  | [] => result
  | (rank_type, m) :: rest =>
      let name := rank_name rank_type in
      let '(point, rank) :=
        match m !! key with
        | Some (point, rank) => (point, rank)
        | None => (JNull, JNull)
        end in
      merge_siblings rest key
        (dict_set (name +:+ " rank") rank (dict_set (name +:+ "分数") point result))
  end.

Definition merge_result (is_previous_day : bool) (maps : player_maps_t)
  (result : json) : outcome json :=
  if is_previous_day then Ret result
  else
    obind (py_item result "player_id") (fun player_id =>
    obind (py_hash player_id) (fun key =>
      match result with
      | JDict d => Ret (JDict (merge_siblings maps key d))
      | _ => Raise (PyException "TypeError")
      end)).

(** Lines 338-352: the [as_completed] loop of the detail fan-out. *)
Fixpoint detail_loop {B} (is_previous_day : bool) (maps : player_maps_t)
  (batch : list nat) (n : nat) (data_list : list json)
  (k : list json -> main_prog collector task B) : main_prog collector task B :=
  match n with
  | O => k data_list
  | Datatypes.S n' =>
      Ask (NextCompleted batch) (fun r =>
        match r with
        | RIdx i =>
            Atomic id (fun g =>
              match futs g !! i with
              | Some (_, Finished (Ret result)) =>
                  if truthy result then
                    lift_in_with (merge_result is_previous_day maps result) (fun result =>
                      detail_loop is_previous_day maps batch n' (data_list ++ [result])%list k)
                  else detail_loop is_previous_day maps batch n' data_list k
              | Some (_, Finished (Raise e)) => raise_in_with e
              | Some (_, Cancelled) => raise_in_with (PyException "CancelledError")
              | _ => raise_in_with (PyException "reply")
              end)
        | _ => Done (Raise (PyException "reply"))
        end)
  end.

Definition lower_y (s : string) : bool :=
  String.eqb s "y" || String.eqb s "Y".

(** [if input(...).lower() != 'y': return] *)
Definition ask_continue (k : main_prog collector task verdict)
  : main_prog collector task verdict :=
  Ask Input (fun r =>
    match r with
    | RStr s => if lower_y s then k else Done (Ret Quit)
    | _ => Done (Raise (PyException "reply"))
    end).

Definition io_step (op : string) (rows : list json)
  (k : main_prog collector task verdict) : main_prog collector task verdict :=
  Ask (Pandas op rows) (fun r =>
    match r with
    | RIO None => k
    | RIO (Some e) => Done (Raise e)
    | _ => Done (Raise (PyException "reply"))
    end).

(** Lines 317-352. *)
Definition phase2 (ranking_day_type : Z) (info : info_map)
  : main_prog collector task verdict :=
  let is_previous_day := ranking_day_type =? 20 in
  match info !! ranking_day_type with
  | None => Done (Raise (PyException "KeyError"))
  | Some total_players_info =>
      lift (if is_previous_day then Ret [] else player_maps info [10; 11; 12])
        (fun maps =>
          Atomic (submit (Profile <$> total_players_info)) (fun g =>
            let batch := seq (length (futs g)) (length total_players_info) in
            detail_loop is_previous_day maps batch (length total_players_info) []
              (fun data_list =>
                Ask Join (fun _ =>
                  io_step "ranking_full" data_list (Done (Ret (Details data_list)))))))
  end.

(** Lines 287-315: nothing harvested ends the run; else the cache file
    is written and the detail fan-out follows. *)
Definition after_harvest (ranking_day_type : Z) (ranking_types_to_fetch : list Z)
  (info : info_map) : main_prog collector task verdict :=
  let has_data :=
    existsb (fun ranking_type =>
               match info !! ranking_type with
               | Some (_ :: _) => true
               | _ => false
               end) ranking_types_to_fetch in
  if has_data then
    io_step "ranking_cache"
      (concat ((fun ranking_type => default [] (info !! ranking_type)) <$>
               ranking_types_to_fetch))
      (phase2 ranking_day_type info)
  else Done (Ret NoData).

(** Lines 248-285, then the rest. *)
Definition harvest (target_ranks : list Z) (ranking_day_type : Z)
  : main_prog collector task verdict :=
  let is_previous_day := ranking_day_type =? 20 in
  let all_players_basic_info : info_map :=
    list_to_map ((fun rank_type => (rank_type, [])) <$>
                 ranking_type_keys ranking_day_type) in
  let ranking_types_to_fetch :=
    ranking_day_type :: (if is_previous_day then [] else [10; 11; 12]) in
  phase1 target_ranks ranking_types_to_fetch all_players_basic_info
    (after_harvest ranking_day_type ranking_types_to_fetch).

(** [collect_data] *)
Definition collect_data (target_ranks : list Z) (ranking_day_type : Z)
  : main_prog collector task verdict :=
  let liveness :=
    on_finish (in_main (fetch_ranking 1 ranking_day_type)) (fun o =>
      match o with
      | Ret _ => harvest target_ranks ranking_day_type
      | Raise e =>
          if is_Exception e then ask_continue (harvest target_ranks ranking_day_type)
          else Done (Raise e)
      end) in
  Ask Login (fun r =>
    match r with
    | RBool login_success =>
        if login_success then liveness else ask_continue liveness
    | _ => Done (Raise (PyException "reply"))
    end).

Definition system (target_ranks : list Z) (ranking_day_type : Z)
  : config collector task verdict :=
  boot (init ranking_day_type) (collect_data target_ranks ranking_day_type).

Abbreviation step := (Executor.step worker 100).
Abbreviation run := (Executor.run worker 100).
Abbreviation after := (Executor.after worker 100).
Abbreviation runs := (Executor.runs worker 100).
Abbreviation drive := (Executor.drive worker 100).

End Multicatch.

(** ** catchgraderank.py *)
Module Catchgraderank.

(** The fields of [GradeRankingDataCollector] that the threads share. *)
Record collector : Type := {
  stop_rank : stop;
  completed_count_step1 : Z;
  completed_count_step2 : Z
}.

(** [__init__] *)
Definition init : collector :=
  {| stop_rank := Inf; completed_count_step1 := 0; completed_count_step2 := 0 |}.

(** Lines 168-171, one [with self.lock:] block. *)
Definition lower_stop (target_rank : Z) (s : collector) : collector :=
  if lt_stop target_rank (stop_rank s) then
    {| stop_rank := Fin target_rank;
       completed_count_step1 := completed_count_step1 s;
       completed_count_step2 := completed_count_step2 s |}
  else s.

(** Lines 173-175. *)
Definition count_step1 (s : collector) : collector :=
  {| stop_rank := stop_rank s;
     completed_count_step1 := completed_count_step1 s + 1;
     completed_count_step2 := completed_count_step2 s |}.

(** Lines 192-194. *)
Definition count_step2 (s : collector) : collector :=
  {| stop_rank := stop_rank s;
     completed_count_step1 := completed_count_step1 s;
     completed_count_step2 := completed_count_step2 s + 1 |}.

(** Body of [fetch_grade_ranking], before decoration. *)
Definition fetch_grade_ranking_func (target_rank : Z)
  : prog collector request reply pyval :=
  Atomic id (fun s =>
    if gt_stop target_rank (stop_rank s) then Done (Ret (VJson (JList [])))
    else
      Ask (GradeRankingReq target_rank) (fun r =>
        match r with
        | Failed msg response => Done (Raise (RequestException msg response))
        | Got response =>
            if status_code response =? 200 then
              lift (response_json response) (fun ranking_data =>
              lift (check_sentinel ranking_data) (fun _ =>
              lift (py_get ranking_data "point_rankings" (JList []))
                   (fun player_list =>
                let finish :=
                  Atomic count_step1 (fun _ => Done (Ret (VJson player_list))) in
                if truthy player_list then finish
                else Atomic (lower_stop target_rank) (fun _ => finish))))
            else Done (Ret (VResp response))
        end)).

Definition fetch_grade_ranking (target_rank : Z)
  : prog collector request reply json :=
  retry_request (fetch_grade_ranking_func target_rank).

(** [fetch_profile] *)
Definition fetch_profile (player_info : json) : prog collector request reply json :=
  bind (fetch_player_profile player_info false) (fun result =>
    lift (check_sentinel result) (fun _ =>
      if truthy result then
        Atomic count_step2 (fun _ => Done (Ret result))
      else Done (Ret JNull))).

Inductive task : Type :=
| Probe (target_rank : Z)
| Profile (player_info : json).

Definition worker (t : task) : worker_prog collector :=
  match t with
  | Probe target_rank => fetch_grade_ranking target_rank
  | Profile player_info => fetch_profile player_info
  end.

Abbreviation gpool := (pool collector task).

Inductive verdict : Type :=
| Quit
| NoData
| Details (data_list : list json).

(** Lines 248-259: the players of one page, after the ones already seen. *)
Fixpoint record_players (players : list json) (unique_player_ids : gset hkey)
  (players_basic_info : list json) : outcome (gset hkey * list json) :=
  match players with
  | [] => Ret (unique_player_ids, players_basic_info)
  | player :: rest =>
      obind (py_get player "player_id" (JStr "")) (fun player_id =>
        if truthy player_id then
          obind (py_hash player_id) (fun key =>
            if bool_decide (key ∈ unique_player_ids) then
              record_players rest unique_player_ids players_basic_info
            else
              obind (py_get player "rank" (JStr "")) (fun rank =>
              obind (py_get player "point" (JNum 0)) (fun point =>
                record_players rest ({[key]} ∪ unique_player_ids)
                  (players_basic_info ++
                   [JDict [("player_id", player_id); ("rank", rank);
                           ("point", point)]])%list)))
        else record_players rest unique_player_ids players_basic_info)
  end.

(** Lines 241-243, one future of [futures.items()] at a time. *)
Definition try_cancel (j : nat) (g : gpool) : gpool :=
  match futs g !! j with
  | Some (Probe r, st) =>
      if negb (done st) && gt_stop r (stop_rank (shared g)) then cancel j g else g
  | _ => g
  end.

Fixpoint cancel_loop {B} (js : list nat) (k : main_prog collector task B)
  : main_prog collector task B :=
  match js with
  | [] => k
  | j :: js' => Atomic (try_cancel j) (fun _ => cancel_loop js' k)
  end.

(** Lines 237-259: the [as_completed] loop of the harvest. *)
Fixpoint harvest_loop {B} (batch : list nat) (n : nat)
  (unique_player_ids : gset hkey) (players_basic_info : list json)
  (k : list json -> main_prog collector task B) : main_prog collector task B :=
  match n with
  | O => k players_basic_info
  | Datatypes.S n' =>
      Ask (NextCompleted batch) (fun r =>
        match r with
        | RIdx i =>
            Atomic id (fun g =>
              match futs g !! i with
              | Some (Probe rank, st) =>
                  if gt_stop rank (stop_rank (shared g)) then
                    cancel_loop batch
                      (harvest_loop batch n' unique_player_ids players_basic_info k)
                  else
                    match st with
                    | Finished (Ret result) =>
                        if truthy result then
                          lift_in_with
                            (obind (py_iter result) (fun players =>
                               record_players players unique_player_ids
                                 players_basic_info))
                            (fun st' => harvest_loop batch n' (fst st') (snd st') k)
                        else
                          harvest_loop batch n' unique_player_ids players_basic_info k
                    | Finished (Raise e) => raise_in_with e
                    | _ => raise_in_with (PyException "CancelledError")
                    end
              | _ => raise_in_with (PyException "reply")
              end)
        | _ => Done (Raise (PyException "reply"))
        end)
  end.

(** [sorted(self.target_ranks)] *)
Definition sorted (ranks : list Z) : list Z := merge_sort Z.le ranks.

(** [p["player_id"] == player_id], for a recorded (hashable) [p["player_id"]]. *)
Definition key_eq (a b : json) : bool :=
  match py_hash a, py_hash b with
  | Ret x, Ret y => bool_decide (x = y)
  | _, _ => false
  end.

(** Lines 291-297 for one record. *)
Definition merge_result (players_basic_info : list json) (result : json)
  : outcome json :=
  obind (py_item result "player_id") (fun player_id =>
    let matching_players :=
      List.filter (fun p =>
                     match py_item p "player_id" with
                     | Ret id => key_eq id player_id
                     | Raise _ => false
                     end) players_basic_info in
    match matching_players, result with
    | basic_info :: _, JDict d =>
        obind (py_get basic_info "grade" (JNum 0)) (fun grade =>
        obind (py_get basic_info "character_id" (JNum 0)) (fun character_id =>
        obind (py_get basic_info "character_name" (JStr "")) (fun character_name =>
          Ret (JDict (dict_set "character_name" character_name
                     (dict_set "character_id" character_id
                     (dict_set "grade" grade d)))))))
    | _, _ => Ret result
    end).

(** Lines 287-298: the [as_completed] loop of the detail fan-out. *)
Fixpoint detail_loop {B} (players_basic_info : list json)
  (batch : list nat) (n : nat) (data_list : list json)
  (k : list json -> main_prog collector task B) : main_prog collector task B :=
  match n with
  | O => k data_list
  | Datatypes.S n' =>
      Ask (NextCompleted batch) (fun r =>
        match r with
        | RIdx i =>
            Atomic id (fun g =>
              match futs g !! i with
              | Some (_, Finished (Ret result)) =>
                  if truthy result then
                    lift_in_with (merge_result players_basic_info result) (fun result =>
                      detail_loop players_basic_info batch n'
                        (data_list ++ [result])%list k)
                  else detail_loop players_basic_info batch n' data_list k
              | Some (_, Finished (Raise e)) => raise_in_with e
              | Some (_, Cancelled) => raise_in_with (PyException "CancelledError")
              | _ => raise_in_with (PyException "reply")
              end)
        | _ => Done (Raise (PyException "reply"))
        end)
  end.

Definition ask_continue (k : main_prog collector task verdict)
  : main_prog collector task verdict :=
  Ask Input (fun r =>
    match r with
    | RStr s => if Multicatch.lower_y s then k else Done (Ret Quit)
    | _ => Done (Raise (PyException "reply"))
    end).

Definition io_step (op : string) (rows : list json)
  (k : main_prog collector task verdict) : main_prog collector task verdict :=
  Ask (Pandas op rows) (fun r =>
    match r with
    | RIO None => k
    | RIO (Some e) => Done (Raise e)
    | _ => Done (Raise (PyException "reply"))
    end).

(** [DataFrame(rows).sort_values(by='rank')] : a frame built from no rows
    has no column, and sorting by a missing column is a [KeyError]; on a
    frame that has the column the outcome is the environment's. *)
Definition sort_values_rank (rows : list json)
  (k : main_prog collector task verdict) : main_prog collector task verdict :=
  match rows with
  | [] => Done (Raise (PyException "KeyError"))
  | _ :: _ => io_step "sort_values" rows k
  end.

(** Lines 280-312. *)
Definition phase2 (players_basic_info : list json)
  : main_prog collector task verdict :=
  Atomic (submit (Profile <$> players_basic_info)) (fun g =>
    let batch := seq (length (futs g)) (length players_basic_info) in
    detail_loop players_basic_info batch (length players_basic_info) []
      (fun data_list =>
        Ask Join (fun _ =>
          io_step "grade_full" data_list (Done (Ret (Details data_list)))))).

(** Lines 261-278: the frame is sorted before the test for emptiness. *)
Definition after_harvest (players_basic_info : list json)
  : main_prog collector task verdict :=
  sort_values_rank players_basic_info
    (match players_basic_info with
     | _ :: _ =>
         io_step "grade_cache" players_basic_info (phase2 players_basic_info)
     | [] => Done (Ret NoData)
     end).

(** Lines 224-259, then the rest. *)
Definition harvest (target_ranks : list Z) : main_prog collector task verdict :=
  let sorted_ranks := sorted target_ranks in
  Atomic (submit (Probe <$> sorted_ranks)) (fun g =>
    let batch := seq (length (futs g)) (length sorted_ranks) in
    harvest_loop batch (length sorted_ranks) ∅ [] (fun players_basic_info =>
      Ask Join (fun _ => after_harvest players_basic_info))).

(** [collect_data] *)
Definition collect_data (target_ranks : list Z) : main_prog collector task verdict :=
  let liveness :=
    on_finish (in_main (fetch_grade_ranking 1)) (fun o =>
      match o with
      | Ret test_result =>
          if truthy test_result then harvest target_ranks else Done (Ret Quit)
      | Raise e =>
          if is_Exception e then ask_continue (harvest target_ranks)
          else Done (Raise e)
      end) in
  Ask Login (fun r =>
    match r with
    | RBool login_success =>
        if login_success then liveness else ask_continue liveness
    | _ => Done (Raise (PyException "reply"))
    end).

Definition system (target_ranks : list Z) : config collector task verdict :=
  boot init (collect_data target_ranks).

Abbreviation step := (Executor.step worker 100).
Abbreviation run := (Executor.run worker 100).
Abbreviation after := (Executor.after worker 100).
Abbreviation runs := (Executor.runs worker 100).
Abbreviation drive := (Executor.drive worker 100).

End Catchgraderank.


(** ** Safety notions for a pool *)
Module Safety.

(** [acts_within R p] : every atomic access of [p] turns a state [s] into
    some [s'] with [R s' s]. *)
Inductive acts_within {X Q Rp A} (R : X -> X -> Prop) : prog X Q Rp A -> Prop :=
| aw_done o : acts_within R (Done o)
| aw_atomic act k :
    (forall s, R (act s) s) -> (forall s, acts_within R (k s)) ->
    acts_within R (Atomic act k)
| aw_ask q k : (forall r, acts_within R (k r)) -> acts_within R (Ask q k)
| aw_sleep d k : acts_within R k -> acts_within R (Sleep d k).

Section Defs.
Context {S T : Type}.
(** [Rw t s' s] : an atomic step of the worker of task [t] may turn the
    shared object [s] into [s']; [Rm] is the same for the main thread. *)
Variable Rw : T -> S -> S -> Prop.
Variable Rm : S -> S -> Prop.

(** A future keeps its task; the main thread can only cancel it while it
    is pending. *)
Definition fut_step (f f' : T * fut_state S) : Prop :=
  fst f' = fst f /\ (snd f' = snd f \/ (snd f = Pending /\ snd f' = Cancelled)).

(** What an atomic step of the main thread may do to the pool. *)
Definition evolves (g g' : pool S T) : Prop :=
  Rm (shared g') (shared g) /\
  exists old' new,
    futs g' = old' ++ new /\ Forall2 fut_step (futs g) old' /\
    Forall (fun f => snd f = Pending) new.

Definition main_within {B} (m : main_prog S T B) : Prop :=
  acts_within (fun g' g => evolves g g') m.

Definition pool_ok (g : pool S T) : Prop :=
  forall i t p, futs g !! i = Some (t, Running p) -> acts_within (Rw t) p.

Definition config_ok {B} (c : config S T B) : Prop :=
  pool_ok (the_pool c) /\ main_within (main c).

(** The requests that the worker of future [i] has sent. *)
Definition sent_by {B} (i : nat) (c : config S T B) : list request :=
  snd <$> List.filter (fun e => bool_decide (fst e = Some i)) (sent c).

(** Only a future that has started appears as a sender. *)
Definition senders_started {B} (c : config S T B) : Prop :=
  forall j q, (Some j, q) ∈ sent c ->
    exists t st, futs (the_pool c) !! j = Some (t, st) /\ st <> Pending.

(** A future that has not run, or ran [p] up to an empty result, without
    a request. *)
Definition idle (p : worker_prog S) (st : fut_state S) : Prop :=
  st = Pending \/ st = Cancelled \/ st = Running p \/
  st = Running (Done (Ret (JList []))) \/ st = Finished (Ret (JList [])).

(** Future [i] carries the task [t], is idle, and the shared object
    satisfies [stopped]. *)
Definition quiet {B} (worker : T -> worker_prog S) (t : T) (stopped : S -> Prop)
  (i : nat) (c : config S T B) : Prop :=
  config_ok c /\ stopped (shared (the_pool c)) /\
  exists st, futs (the_pool c) !! i = Some (t, st) /\ idle (worker t) st.
End Defs.

End Safety.
Export Safety.
(** ** Notions used to state the properties *)
Module Spec.

(** Whether one call of the wrapped function counts as a failed attempt:
    control leaves the [try] body by an exception that the two handlers
    catch. *)
Definition fails (o : outcome pyval) : bool :=
  match try_body o None with
  | ARaise e _ => is_Exception e
  | AReturn _ => false
  end.

(** The calls and sleeps of [n] attempts in a row, the first one made
    with [retries] failures behind it. *)
Fixpoint attempts_trace (initial_delay retries n : nat) : list (event unit) :=
  match n with
  | O => []
  | Datatypes.S O => [Sent tt]
  | Datatypes.S n' =>
      Sent tt :: Slept (wait_time initial_delay (Datatypes.S retries))
        :: attempts_trace initial_delay (Datatypes.S retries) n'
  end.

(** The integer a level counts for in [sum]. *)
Definition as_int (v : json) : Z :=
  match v with JNum n => n | JBool b => Z.b2z b | _ => 0 end.

(** The level stored in a player record under a character's name. *)
Definition level_of (d : list (string * json)) (name : string) : Z :=
  match assoc name d with Some v => as_int v | None => 0 end.

Definition sum_levels (d : list (string * json)) (names : list (Z * string)) : Z :=
  foldr (fun c acc => level_of d (snd c) + acc) 0 names.

(** [fan_level_list] of a profile reply, as iterated by the loop. *)
Definition fan_list (result : json) : list json :=
  match obind (py_get result "profile_info" (JDict [])) (fun profile_data =>
        obind (py_get profile_data "fan_level_list" (JList [])) py_iter) with
  | Ret l => l
  | Raise _ => []
  end.

(** [fan_info] names the character [cid]. *)
Definition names_character (cid : Z) (fan_info : json) : Prop :=
  exists c, py_get fan_info "character_id" JNull = Ret c /\ int_key c = Ret (Some cid).

(** No entry of [players] has the identity key [key]. *)
Definition no_summary (key : hkey) (players : list json) : Prop :=
  forall player, player ∈ players ->
    obind (py_item player "player_id") py_hash <> Ret key.

(** What the fan-out guarantees of a merged record. *)
Definition absent_is_None (info : Multicatch.info_map) (record : json) : Prop :=
  exists d player_id key,
    record = JDict d /\ assoc "player_id" d = Some player_id /\
    py_hash player_id = Ret key /\
    forall rank_type, rank_type ∈ [10; 11; 12] ->
      no_summary key (default [] (info !! rank_type)) ->
      assoc (Multicatch.rank_name rank_type +:+ "分数") d = Some JNull /\
      assoc (Multicatch.rank_name rank_type +:+ " rank") d = Some JNull.

(** The only change a probe at [target_rank] of [ranking_type] makes to
    the stop offsets of [multicatch.py]: none, or a strictly smaller
    offset for its type. *)
Definition mc_lowered (ranking_type target_rank : Z)
  (s' s : Multicatch.collector) : Prop :=
  Multicatch.stop_ranks s' = Multicatch.stop_ranks s \/
  exists old, Multicatch.stop_ranks s !! ranking_type = Some old /\
              lt_stop target_rank old = true /\
              Multicatch.stop_ranks s' =
                <[ranking_type := Fin target_rank]> (Multicatch.stop_ranks s).

Definition mc_Rw (t : Multicatch.task) (s' s : Multicatch.collector) : Prop :=
  match t with
  | Multicatch.Probe target_rank ranking_type =>
      mc_lowered ranking_type target_rank s' s
  | Multicatch.Profile _ => Multicatch.stop_ranks s' = Multicatch.stop_ranks s
  end.

(** The main thread probes rank 1 of the day's ranking itself. *)
Definition mc_Rm (ranking_day_type : Z)
  : Multicatch.collector -> Multicatch.collector -> Prop :=
  mc_lowered ranking_day_type 1.

(** The stop offset of [ranking_type] is below [target_rank]. *)
Definition mc_stopped (ranking_type target_rank : Z) (s : Multicatch.collector)
  : Prop :=
  exists r, Multicatch.stop_ranks s !! ranking_type = Some (Fin r) /\ r < target_rank.

(** The same for [catchgraderank.py]. *)
Definition gc_lowered (target_rank : Z) (s' s : Catchgraderank.collector) : Prop :=
  Catchgraderank.stop_rank s' = Catchgraderank.stop_rank s \/
  (lt_stop target_rank (Catchgraderank.stop_rank s) = true /\
   Catchgraderank.stop_rank s' = Fin target_rank).

Definition gc_Rw (t : Catchgraderank.task) (s' s : Catchgraderank.collector) : Prop :=
  match t with
  | Catchgraderank.Probe target_rank => gc_lowered target_rank s' s
  | Catchgraderank.Profile _ =>
      Catchgraderank.stop_rank s' = Catchgraderank.stop_rank s
  end.

Definition gc_Rm : Catchgraderank.collector -> Catchgraderank.collector -> Prop :=
  gc_lowered 1.

Definition gc_stopped (target_rank : Z) (s : Catchgraderank.collector) : Prop :=
  exists r, Catchgraderank.stop_rank s = Fin r /\ r < target_rank.

(** One step of a run either leaves the stop offsets alone or gives the
    type of the stepping probe the strictly smaller rank of that probe. *)
Definition mc_lowering (rdt : Z) (l : label)
  (c c' : config Multicatch.collector Multicatch.task Multicatch.verdict)
  : Prop :=
  let s := shared (the_pool c) in
  let s' := shared (the_pool c') in
  Multicatch.stop_ranks s' = Multicatch.stop_ranks s \/
  exists rt r old,
    ((exists i st, l = Work i /\
        futs (the_pool c) !! i = Some (Multicatch.Probe r rt, st)) \/
     (l = MainStep /\ rt = rdt /\ r = 1)) /\
    Multicatch.stop_ranks s !! rt = Some old /\ lt_stop r old = true /\
    Multicatch.stop_ranks s' = <[rt := Fin r]> (Multicatch.stop_ranks s).

(** The same for the single stop offset of [catchgraderank.py]. *)
Definition gc_lowering (l : label)
  (c c' : config Catchgraderank.collector Catchgraderank.task Catchgraderank.verdict)
  : Prop :=
  let s := shared (the_pool c) in
  let s' := shared (the_pool c') in
  Catchgraderank.stop_rank s' = Catchgraderank.stop_rank s \/
  exists r,
    ((exists i st, l = Work i /\
        futs (the_pool c) !! i = Some (Catchgraderank.Probe r, st)) \/
     (l = MainStep /\ r = 1)) /\
    lt_stop r (Catchgraderank.stop_rank s) = true /\
    Catchgraderank.stop_rank s' = Fin r.

(** An empty page at [R], or at a smaller rank, has been recorded. *)
Definition mc_observed (ranking_type R : Z) (s : Multicatch.collector) : Prop :=
  exists r, Multicatch.stop_ranks s !! ranking_type = Some (Fin r) /\ r <= R.

Definition gc_observed (R : Z) (s : Catchgraderank.collector) : Prop :=
  exists r, Catchgraderank.stop_rank s = Fin r /\ r <= R.

(** The identity key of a recorded summary. *)
Definition summary_key (e : json) : option hkey :=
  match obind (py_item e "player_id") py_hash with
  | Ret k => Some k
  | Raise _ => None
  end.

(** The set of seen keys is the set of keys of the recorded summaries,
    and no key is recorded twice. *)
Definition seen_once (unique_player_ids : gset hkey) (players_basic_info : list json)
  : Prop :=
  NoDup (omap summary_key players_basic_info) /\
  forall k, k ∈ unique_player_ids <-> k ∈ omap summary_key players_basic_info.

(** The main program once [as_completed] has yielded future [i] and the
    main thread has looked at the pool [g]. *)
Definition after_yield {S T B} (m : main_prog S T B) (i : nat) (g : pool S T)
  : option (main_prog S T B) :=
  match m with
  | Ask (NextCompleted _) k =>
      match k (RIdx i) with
      | Atomic _ k' => Some (k' g)
      | _ => None
      end
  | _ => None
  end.

End Spec.
Export Spec.

(** ** Concrete inputs and runs *)
Module Scenarios.

(** A body that carries the "event not active" code. *)
Definition sentinel_body : text :=
  Doc (JDict [("error_code", JStr "21001_210102"); ("message", JStr "closed")]).

(** A transport exception that carries such a response. *)
Definition raises_with_sentinel : outcome pyval :=
  Raise (RequestException "redirects" (Some sentinel_body)).

(** A player of a ranking page and a profile reply, for concrete runs. *)
Definition sample_player : json :=
  JDict [("player_id", JStr "P1"); ("rank", JNum 1); ("point", JNum 10)].

Definition fan (character_id level : Z) : json :=
  JDict [("character_id", JNum character_id); ("d_season_fan_level", JNum level)].

Definition sample_profile : json :=
  JDict [("profile_info",
          JDict [("player_name", JStr "n");
                 ("fan_level_list", JList [fan 1031 7; fan 1051 5])])].

Definition sample_profile_reply : reply :=
  Got {| status_code := 200; body := Doc sample_profile |}.

Definition sample_record : list (string * json) :=
  Eval vm_compute in
    match exec (S:=unit) (fetch_player_profile sample_player false)
               [sample_profile_reply] tt with
    | Some (Ret (JDict d), _, _) => d
    | _ => []
    end.

(** A ranking entry as the API sends it ([key] is "id" for the daily
    rankings, "player_id" for the grade ranking) and a page reply. *)
Definition entry (key id : string) (rank point : Z) : json :=
  JDict [(key, JStr id); ("rank", JNum rank); ("point", JNum point)].

Definition page (players : list json) : reply :=
  Got {| status_code := 200;
         body := Doc (JDict [("point_rankings", JList players)]) |}.

Definition http_error : reply :=
  Got {| status_code := 500; body := Raw "Internal Server Error" |}.

(** Scenario "tail": ranks 1, 27, 53 of the previous-day ranking; rank 1
    has one player, the pages from rank 27 on are empty. *)
Definition tail_net (n : nat) (q : request) : reply :=
  match q with
  | RankingReq 1 _ => page [entry "id" "P1" 1 10]
  | ProfileReq _ => sample_profile_reply
  | _ => page []
  end.

Definition tail_system := Multicatch.system (generate_rank_targets 53) 20.

Definition tail_schedule : list label :=
  Eval vm_compute in fst (Multicatch.drive tail_net true "y" 200 tail_system).

(** Up to the step that records the empty page of rank 27, and after. *)
Definition tail_before : list label := take 14 tail_schedule.
Definition tail_after : list label := drop 14 tail_schedule.

(** Scenario "overlap": the player K is on the page of rank 1 and, the
    ranking having moved, on the page of rank 27. *)
Definition overlap_net (n : nat) (q : request) : reply :=
  match q with
  | RankingReq 1 _ => page [entry "id" "K" 26 900]
  | RankingReq 27 _ => page [entry "id" "K" 27 900]
  | GradeRankingReq 1 => page [entry "player_id" "K" 26 900]
  | GradeRankingReq 27 => page [entry "player_id" "K" 27 900]
  | ProfileReq _ => sample_profile_reply
  | _ => page []
  end.

Definition overlap_system := Multicatch.system [1; 27] 20.

Definition overlap_schedule : list label :=
  Eval vm_compute in fst (Multicatch.drive overlap_net true "y" 200 overlap_system).

Definition overlap_grade_system := Catchgraderank.system [1; 27].

Definition overlap_grade_schedule : list label :=
  Eval vm_compute in
    fst (Catchgraderank.drive overlap_net true "y" 200 overlap_grade_system).

(** Scenario "api error": the profile endpoint answers 200 with an error
    body that is not the sentinel. *)
Definition error_body : json :=
  JDict [("error_code", JStr "10001_100101"); ("message", JStr "maintenance")].

Definition api_error_net (n : nat) (q : request) : reply :=
  match q with
  | RankingReq 1 _ => page [entry "id" "P1" 1 10]
  | GradeRankingReq 1 => page [entry "player_id" "P1" 1 10]
  | ProfileReq _ => Got {| status_code := 200; body := Doc error_body |}
  | _ => page []
  end.

Definition api_error_schedule (ranking_day_type : Z) : list label :=
  fst (Multicatch.drive api_error_net true "y" 200
         (Multicatch.system [1] ranking_day_type)).

(** Scenario "outage": the grade ranking answers the liveness probe, then
    every request fails with status 500. *)
Definition outage_net (n : nat) (q : request) : reply :=
  match n with
  | O => page [entry "player_id" "P1" 1 10]
  | _ => http_error
  end.

Definition outage_system := Catchgraderank.system [1].

Definition outage_schedule : list label :=
  Eval vm_compute in fst (Catchgraderank.drive outage_net true "y" 200 outage_system).

Definition is_profile_request (e : option nat * request) : bool :=
  match snd e with ProfileReq _ => true | _ => false end.

(** Scenario "fan-out": the detail fan-out alone, after a harvest in
    which P1 is on the day ranking and on ladder A, P2 on the day ranking
    only, and the ladders B and C are empty. *)
Definition fanout_info : Multicatch.info_map :=
  {[ 21 := [sample_player;
            JDict [("player_id", JStr "P2"); ("rank", JNum 2); ("point", JNum 0)]];
     10 := [JDict [("player_id", JStr "P1"); ("rank", JNum 3); ("point", JNum 5)]];
     11 := []; 12 := [] ]}.

Definition fanout_system
  : config Multicatch.collector Multicatch.task Multicatch.verdict :=
  boot (Multicatch.init 21) (Multicatch.phase2 21 fanout_info).

Definition fanout_schedule : list label :=
  Eval vm_compute in fst (Multicatch.drive tail_net true "y" 200 fanout_system).

Definition fanout_output : list json :=
  Eval vm_compute in
    match result_of (Multicatch.after fanout_schedule fanout_system) with
    | Some (Ret (Multicatch.Details dl)) => dl
    | _ => []
    end.

(** Scenario "closed": the event ends after the liveness probe; every
    later ranking request is answered 200 with the sentinel body. *)
Definition closed_reply : reply :=
  Got {| status_code := 200; body := sentinel_body |}.

Definition closed_system := Multicatch.system [1; 27] 20.

(** The probe of rank 1 meets the sentinel and the main thread takes its
    [SystemExit] from [future.result()]; the probe of rank 27, still
    queued, is started and sends its request all the same, and only then
    does the [with] block let the exception out. *)
Definition closed_schedule : list label :=
  [ MainReply (RBool true); MainStep;
    MainReply (RNet (page [entry "id" "P1" 1 10])); MainStep; MainStep;
    Start 0; Work 0; Deliver 0 closed_reply; Work 0;
    MainReply (RIdx 0); MainStep;
    Start 1; Work 1; Deliver 1 closed_reply; Work 1;
    MainReply RUnit ].

End Scenarios.
Export Scenarios.
(** ** Text: integers in f-strings, [int], [str] methods *)
Module Text.

(** [f"{n}"] for an int. *)
Definition str_int (n : Z) : string := pretty n.

(** [f"{n:02d}"] : zeros in front up to a width of 2, the sign included. *)
Definition format_02d (n : Z) : string :=
  if n <? 0 then pretty n
  else if n <? 10 then "0" +:+ pretty n
  else pretty n.

Definition digit (a : Ascii.ascii) : option Z :=
  let n := Z.of_nat (Ascii.nat_of_ascii a) - 48 in
  if (0 <=? n) && (n <=? 9) then Some n else None.

Fixpoint digits (acc : Z) (s : string) : option Z :=
  match s with
  | EmptyString => Some acc
  | String a s' =>
      match digit a with
      | Some d => digits (10 * acc + d) s'
      | None => None
      end
  end.

Definition unsigned (s : string) : outcome Z :=
  match s with
  | EmptyString => Raise (PyException "ValueError")
  | _ =>
      match digits 0 s with
      | Some n => Ret n
      | None => Raise (PyException "ValueError")
      end
  end.

(** [int(s)] for a text of decimal digits after an optional sign, which
    is all that the formats above produce. (Python also accepts blanks
    around the number, underscores between digits and the digits of
    other scripts; no text parsed in this code has any.) *)
Definition py_int (s : string) : outcome Z :=
  match s with
  | String "-"%char s' => obind (unsigned s') (fun n => Ret (- n))
  | String "+"%char s' => unsigned s'
  | _ => unsigned s
  end.

(** [s.endswith(suffix)] *)
Definition endswith (s suffix : string) : bool :=
  let n := String.length s in
  let m := String.length suffix in
  (m <=? n)%nat && String.eqb (String.substring (n - m) m s) suffix.

(** [s.split(sep, 1)[0]] for a separator of one character: the text
    before its first occurrence, the whole text when there is none. *)
Fixpoint before (sep : Ascii.ascii) (s : string) : string :=
  match s with
  | EmptyString => EmptyString
  | String a s' => if Ascii.eqb a sep then EmptyString else String a (before sep s')
  end.

(** [s.replace(old, new)] for a pattern [old] that is not empty: every
    occurrence, from the left, without overlap. [skip] counts the
    characters of a replaced occurrence that are still to be passed. *)
Fixpoint replace_from (old new : string) (skip : nat) (s : string) : string :=
  match s with
  | EmptyString => EmptyString
  | String a s' =>
      match skip with
      | Datatypes.S k => replace_from old new k s'
      | O =>
          if String.prefix old s
          then new +:+ replace_from old new (String.length old - 1) s'
          else String a (replace_from old new 0 s')
      end
  end.

Definition replace (old new s : string) : string := replace_from old new 0 s.

End Text.
Export Text.
(** ** config.py: identifiers of the event and of the season, names of
    directories and files *)
Module ConfigFns.

(** [d[k]] *)
Definition dict_item {V} (k : string) (d : list (string * V)) : outcome V :=
  match assoc k d with
  | Some v => Ret v
  | None => Raise (PyException "KeyError")
  end.

(** [BATTLE_TYPE], as the module sets it. *)
Definition BATTLE_TYPE : list (string * bool) :=
  [("personal", true); ("guild", false)].

(** [update_battle_type] : the global dict is [flags]. *)
Definition update_battle_type (battle_type_str : string)
  (flags : list (string * bool)) : list (string * bool) :=
  let flags := (fun kv => (fst kv, false)) <$> flags in
  match assoc battle_type_str flags with
  | Some _ => dict_set battle_type_str true flags
  | None => flags
  end.

(** [datetime.now()] : its year and month, and its [date()] as the
    number of the day in the calendar ([date.toordinal()]). *)
Record datetime : Type := { year : Z; month : Z; date : Z }.

Section Clock.
Variable now : datetime.
(** The global [BATTLE_TYPE] and the [date()] of [LGP_START_DATE]. *)
Variable flags : list (string * bool).
Variable LGP_START_DATE : Z.

(** [generate_save_directory] *)
Definition generate_save_directory (month_arg : option Z) : outcome string :=
  let current_month := match month_arg with Some m => m | None => month now end in
  obind (dict_item "personal" flags) (fun personal =>
    let battle_type := if personal : bool then "个人战" else "公会战" in
    Ret (str_int current_month +:+ "月" +:+ battle_type)).

(** [calculate_event_id] *)
Definition calculate_event_id (month_arg : option Z) : outcome Z :=
  let current_month := match month_arg with Some m => m | None => month now end in
  let current_year := year now in
  let PERIOD_START_YEAR := 2025 in
  let PERIOD_START_MONTH := 4 in
  let PERIOD_NUMBER := 5 in
  let total_months :=
    (current_year - PERIOD_START_YEAR) * 12
    + (current_month - PERIOD_START_MONTH + 1) in
  let month_in_period :=
    if total_months <=? 0 then 1 else (total_months - 1) mod 12 + 1 in
  obind (dict_item "personal" flags) (fun personal =>
    let prefix := if personal : bool then 8 else 7 in
    let event_id :=
      str_int prefix +:+ format_02d PERIOD_NUMBER +:+ "1"
      +:+ format_02d month_in_period in
    py_int event_id).

(** [calculate_grade_id] *)
Definition calculate_grade_id (month_arg : option Z) : Z :=
  let current_month := match month_arg with Some m => m | None => month now end in
  let current_year := year now in
  let BASE_YEAR := 2025 in
  let BASE_MONTH := 5 in
  let BASE_ID := 1005006 in
  let total_months := (current_year - BASE_YEAR) * 12 + (current_month - BASE_MONTH) in
  if total_months <? 0 then BASE_ID
  else
    let id_increment := total_months / 2 in
    BASE_ID + id_increment.

(** [generate_filename_prefix] *)
Definition generate_filename_prefix (is_previous_day : bool) : string :=
  if date now <? LGP_START_DATE then ""
  else
    let day_diff := date now - LGP_START_DATE + 1 in
    let day_diff :=
      if is_previous_day && (1 <? day_diff) then day_diff - 1 else day_diff in
    if 0 <? day_diff then "day" +:+ str_int day_diff +:+ "_" else "".

(** [os.path.join] and [CURRENT_DIR] depend on the platform and on
    where the code is installed. *)
Variable path_join : string -> string -> string.
Variable CURRENT_DIR : string.

(** [FILE_NAMES] : each entry computes its name when it is called. *)
Definition FILE_NAMES : list (string * (bool -> string)) :=
  [ ("ranking_cache",
     fun is_previous_day => generate_filename_prefix is_previous_day +:+ "排行榜.xlsx");
    ("ranking_full",
     fun is_previous_day => generate_filename_prefix is_previous_day +:+ "信息.xlsx");
    ("profile_patch",
     fun is_previous_day => generate_filename_prefix is_previous_day +:+ "补漏信息.xlsx");
    ("petal_exchange",
     fun is_previous_day =>
       generate_filename_prefix is_previous_day +:+ "花瓣兑换信息.xlsx");
    ("fanlv",
     fun is_previous_day =>
       generate_filename_prefix is_previous_day +:+ "粉丝等级信息.xlsx");
    ("circle_history",
     fun is_previous_day =>
       path_join CURRENT_DIR
         (generate_filename_prefix is_previous_day +:+ "出刀记录.xlsx")) ].

(** [get_filename] : [None] for a key that is not in [FILE_NAMES]. *)
Definition get_filename (key : string) (is_previous_day : bool) : option string :=
  match assoc key FILE_NAMES with
  | Some f => Some (f is_previous_day)
  | None => None
  end.

(** multicatch.py, lines 289-293 and 412-413: the names of the cache
    file and of the output file of a run. *)
Definition day_type_suffix (ranking_day_type : Z) : string :=
  if ranking_day_type =? 21 then "当日" else "前日".

Definition run_file_name (key : string) (ranking_day_type : Z) : outcome string :=
  let is_previous_day := ranking_day_type =? 20 in
  match get_filename key is_previous_day with
  | Some name =>
      Ret (replace ".xlsx" ("_" +:+ day_type_suffix ranking_day_type +:+ ".xlsx") name)
  | None => Raise (PyException "AttributeError")
  end.

Definition cache_file_name (ranking_day_type : Z) : outcome string :=
  run_file_name "ranking_cache" ranking_day_type.

Definition output_file_name (ranking_day_type : Z) : outcome string :=
  run_file_name "ranking_full" ranking_day_type.
End Clock.

End ConfigFns.
Export ConfigFns.
(** ** multicatch.py, lines 361-384: the order of the output columns *)
Module Columns.

(** [col.endswith("分数") or col.endswith(" rank")] *)
Definition is_abc (col : string) : bool :=
  endswith col "分数" || endswith col " rank".

(** [l.index(x)], for an [x] that is in [l]. *)
Fixpoint index (x : string) (l : list string) : option nat :=
  match l with
  | [] => None
  | y :: l' => if String.eqb y x then Some O else Datatypes.S <$> index x l'
  end.

(** [new_columns], from [all_columns = df.columns.tolist()]. *)
Definition new_columns (all_columns : list string) : list string :=
  let base_columns := List.filter (fun col => negb (is_abc col)) all_columns in
  let abc_columns := List.filter is_abc all_columns in
  let point_index :=
    match index "point" base_columns with
    | Some i => Z.of_nat i
    | None => -1
    end in
  if negb (point_index =? -1) then
    let columns_after_point := drop (Z.to_nat (point_index + 1)) base_columns in
    let columns_before_point := take (Z.to_nat (point_index + 1)) base_columns in
    columns_before_point ++ abc_columns ++ columns_after_point
  else all_columns.

End Columns.
Export Columns.
(** ** account.json: config.py, login.py, register.py, and the resource
    version of utils.py *)
Module Account.

(** The file [account.json]: absent, or a text. *)
Definition file : Type := option text.

(** [obj[k] = v] *)
Definition py_setitem (obj : json) (k : string) (v : json) : outcome json :=
  match obj with
  | JDict d => Ret (JDict (dict_set k v d))
  | _ => Raise (PyException "TypeError")
  end.

(** [obj[k1][k2] = v] : the inner object is changed in place. *)
Definition set_nested (obj : json) (k1 k2 : string) (v : json) : outcome json :=
  obind (py_item obj k1) (fun inner =>
  obind (py_setitem inner k2 v) (fun inner =>
    py_setitem obj k1 inner)).

(** [try: ... except Exception: return None] *)
Definition or_None (o : outcome json) : outcome json :=
  match o with
  | Raise e => if is_Exception e then Ret JNull else Raise e
  | Ret v => Ret v
  end.

(** config.py, [load_account_config] : [{}] when the file cannot be
    opened or decoded. *)
Definition load_account_config (f : file) : json :=
  match f with
  | Some (Doc j) => j
  | _ => JDict []
  end.

(** [save_account_config] *)
Definition save_account_config (account_config : json) : file :=
  Some (Doc account_config).

Section Login.
(** The text that an f-string puts for a decoded value. *)
Variable format : json -> string.

(** What login.py reads and writes: the file and the global [HEADERS]. *)
Record state : Type := { account_json : file; HEADERS : list (string * json) }.

(** login.py, [update_auth_token] *)
Definition update_auth_token (session_token : json) (s : state) : outcome state :=
  let account_config := load_account_config (account_json s) in
  obind (set_nested account_config "auth" "token" session_token)
    (fun account_config =>
      Ret {| account_json := save_account_config account_config;
             HEADERS := dict_set "Authorization"
                          (JStr ("Bearer " +:+ format session_token))
                          (HEADERS s) |}).

(** login.py, [update_res_version] *)
Definition update_res_version (res_version : json) (f : file) : outcome file :=
  let account_config := load_account_config f in
  obind (set_nested account_config "auth" "resource_version" res_version)
    (fun account_config => Ret (save_account_config account_config)).

(** login.py, [get_current_token] *)
Definition get_current_token (f : file) : outcome json :=
  or_None
    (let account_config := load_account_config f in
     obind (py_get account_config "auth" (JDict [])) (fun auth =>
     obind (py_get auth "token" JNull) (fun token =>
       if truthy token then Ret (JStr ("Bearer " +:+ format token))
       else Ret JNull))).
End Login.

(** register.py, [load_account_config] : a fresh configuration when the
    file cannot be opened or decoded. *)
Definition register_default (TEMP_DEVICE_ID : string) : json :=
  JDict [ ("current_account", JStr "新注册");
          ("accounts",
           JDict [("新注册", JDict [("device_id", JStr TEMP_DEVICE_ID);
                                    ("player_id", JStr "")])]);
          ("auth",
           JDict [("token", JStr ""); ("resource_version", JStr "R2505100");
                  ("client_version", JStr "3.1.0")]) ].

Definition register_load_account_config (TEMP_DEVICE_ID : string) (f : file) : json :=
  match f with
  | Some (Doc j) => j
  | _ => register_default TEMP_DEVICE_ID
  end.

(** register.py, [update_account_json] : the file it leaves. *)
Definition update_account_json (TEMP_DEVICE_ID : string)
  (player_id device_id session_token : json) (f : file) : outcome file :=
  let account_config := register_load_account_config TEMP_DEVICE_ID f in
  obind (set_nested account_config "accounts" "新注册"
           (JDict [("device_id", device_id); ("player_id", player_id)]))
    (fun account_config =>
  obind (py_setitem account_config "current_account" (JStr "新注册"))
    (fun account_config =>
  obind (set_nested account_config "auth" "token" session_token)
    (fun account_config => Ret (save_account_config account_config)))).

(** register.py, [register_account], from the reply to its request: the
    file it leaves. An exception of the request itself is not caught.
    A body that decodes to a list or to a text may pass the three key
    tests, but then [data["player_id"]] raises [TypeError]; any other
    value fails the first test with [TypeError]: both are caught by
    [except Exception] and leave the file alone, as a body without the
    keys does. *)
Definition register_account (TEMP_DEVICE_ID : string) (r : reply) (f : file)
  : outcome file :=
  match r with
  | Failed msg response => Raise (RequestException msg response)
  | Got resp =>
      match json_loads (body resp) with
      | Ret (JDict data) =>
          match assoc "player_id" data, assoc "device_specific_id" data,
                assoc "session_token" data with
          | Some player_id, Some device_id, Some session_token =>
              match update_account_json TEMP_DEVICE_ID player_id device_id
                      session_token f with
              | Ret f' => Ret f'
              | Raise e => if is_Exception e then Ret f else Raise e
              end
          | _, _, _ => Ret f
          end
      | _ => Ret f
      end
  end.

(** The reply to the login request of [get_resource_version]: a response
    with its headers (the names in lower case, as the lookup ignores
    case), or a transport error. *)
Record HResponse : Type := {
  h_status_code : Z;
  h_headers : list (string * string);
  h_text : text
}.

Inductive hreply : Type :=
| HGot (r : HResponse)
| HFailed (msg : string) (response : option text).

(** The login request, by the two versions it announces. *)
Inductive login_request : Type :=
| LoginPost (prev_res_version client_version : json).

Section ResourceVersion.
Context {S : Type}.
Variable HEADERS : list (string * json).

(** [HEADERS.get("x-res-version", "").split("@")[0]] *)
Definition default_res_version : outcome json :=
  match default (JStr "") (assoc "x-res-version" HEADERS) with
  | JStr s => Ret (JStr (before "@" s))
  | _ => Raise (PyException "AttributeError")
  end.

(** utils.py, body of [get_resource_version], before decoration. *)
Definition get_resource_version_func (prev_res_version client_version : option json)
  : prog S login_request hreply pyval :=
  lift (match prev_res_version with
        | Some v => Ret v
        | None => default_res_version
        end) (fun prev_res_version =>
  let client_version :=
    match client_version with
    | Some v => v
    | None => default (JStr "") (assoc "x-client-version" HEADERS)
    end in
  Ask (LoginPost prev_res_version client_version) (fun r =>
    match r with
    | HFailed msg response => Done (Raise (RequestException msg response))
    | HGot response =>
        if negb (h_status_code response =? 200)
        then Done (Raise (PyException "RuntimeError"))
        else
          let raw_version :=
            default "" (assoc "x-res-version" (h_headers response)) in
          if String.eqb raw_version ""
          then Done (Raise (PyException "RuntimeError"))
          else Done (Ret (VJson (JStr (before "@" raw_version))))
    end)).

Definition get_resource_version (prev_res_version client_version : option json)
  : prog S login_request hreply json :=
  retry_request (get_resource_version_func prev_res_version client_version).
End ResourceVersion.

(** login.py, [update_latest_resource_version] : the shared state is the
    file. *)
Definition update_latest_resource_version (HEADERS : list (string * json))
  : prog file login_request hreply bool :=
  on_finish (get_resource_version HEADERS None None) (fun o =>
    match o with
    | Ret new_version =>
        Atomic (fun f => match update_res_version new_version f with
                         | Ret f' => f'
                         | Raise _ => f
                         end)
               (fun f => match update_res_version new_version f with
                         | Ret _ => Done (Ret true)
                         | Raise e =>
                             if is_Exception e then Done (Ret false)
                             else Done (Raise e)
                         end)
    | Raise e => if is_Exception e then Done (Ret false) else Done (Raise e)
    end).

End Account.
Export Account.
(** ** Notions used to state the further properties *)
Module SpecMore.

(** One call of the wrapped function ends well with the value [v]: it
    returns [v], which is neither [None] nor a response object, or it
    returns a response of status 200 whose body decodes to [v], without
    the "event not active" code. *)
Definition succeeds_with (o : outcome pyval) (v : json) : Prop :=
  (o = Ret (VJson v) /\ v <> JNull) \/
  (exists r, o = Ret (VResp r) /\ status_code r = 200 /\ body r = Doc v /\
             is_sentinel v = false).

(** What makes one call a failed attempt, in terms of what the call
    returned or raised. *)
Definition failed_call (o : outcome pyval) : Prop :=
  (exists e, o = Raise e /\ is_Exception e = true) \/
  o = Ret (VJson JNull) \/
  (exists r s, o = Ret (VResp r) /\ body r = Raw s) \/
  (exists r j, o = Ret (VResp r) /\ body r = Doc j /\ is_sentinel j = false /\
               status_code r <> 200).

(** The identity that [fetch_player_profile] asks the profile of:
    [player_info["player_id"]] for a summary, else the argument. *)
Definition profile_id (player_info : json) : outcome json :=
  if is_dict player_info then py_item player_info "player_id" else Ret player_info.

(** The ranking types that a run of [multicatch.py] fetches: the day's
    ranking and, unless it is the previous day's, the ladders A, B, C. *)
Definition mc_fetched_types (ranking_day_type : Z) : list Z :=
  ranking_day_type :: (if ranking_day_type =? 20 then [] else [10; 11; 12]).

(** The tasks that a run over [target_ranks] may submit, and the
    requests that each task may send. *)
Definition mc_allowed (target_ranks : list Z) (ranking_day_type : Z)
  (t : Multicatch.task) : Prop :=
  match t with
  | Multicatch.Probe r rt => r ∈ target_ranks /\ rt ∈ mc_fetched_types ranking_day_type
  | Multicatch.Profile _ => True
  end.

Definition mc_Pw (t : Multicatch.task) (q : request) : Prop :=
  match t with
  | Multicatch.Probe r rt => q = RankingReq r rt
  | Multicatch.Profile p => exists id, profile_id p = Ret id /\ q = ProfileReq id
  end.

(** What the main thread of [multicatch.py] may ask: its liveness probe,
    and the two files, the cache file only with rows to write. *)
Definition mc_Pm (ranking_day_type : Z) (q : main_query) : Prop :=
  match q with
  | Net q => q = RankingReq 1 ranking_day_type
  | Pandas op rows => (op = "ranking_cache" /\ rows <> []) \/ op = "ranking_full"
  | _ => True
  end.

(** A summary as the grade harvest records it: the three columns, with
    an identity that is neither empty nor unhashable. *)
Definition recorded_summary (e : json) : Prop :=
  exists player_id rank point key,
    e = JDict [("player_id", player_id); ("rank", rank); ("point", point)] /\
    truthy player_id = true /\ py_hash player_id = Ret key.

(** The same for [catchgraderank.py]. *)
Definition gc_allowed (target_ranks : list Z) (t : Catchgraderank.task) : Prop :=
  match t with
  | Catchgraderank.Probe r => r ∈ target_ranks
  | Catchgraderank.Profile p => recorded_summary p
  end.

Definition gc_Pw (t : Catchgraderank.task) (q : request) : Prop :=
  match t with
  | Catchgraderank.Probe r => q = GradeRankingReq r
  | Catchgraderank.Profile p => exists id, profile_id p = Ret id /\ q = ProfileReq id
  end.

Definition gc_Pm (q : main_query) : Prop :=
  match q with
  | Net q => q = GradeRankingReq 1
  | Pandas op rows =>
      op = "grade_full" \/
      ((op = "sort_values" \/ op = "grade_cache") /\ rows <> [] /\
       NoDup (omap summary_key rows) /\ Forall recorded_summary rows)
  | _ => True
  end.

(** The character [c] does not occur in [s]. *)
Fixpoint free_of (c : Ascii.ascii) (s : string) : Prop :=
  match s with
  | EmptyString => True
  | String a s' => a <> c /\ free_of c s'
  end.

(** A reply that the body of [get_resource_version] turns into an
    exception: a transport error, a status other than 200, or no
    version in the headers. *)
Definition rejected (r : hreply) : Prop :=
  match r with
  | HGot resp =>
      h_status_code resp <> 200 \/
      default "" (assoc "x-res-version" (h_headers resp)) = ""
  | HFailed _ _ => True
  end.

(** A reply that accepts a login: status 200, with the version [raw]
    in its headers. *)
Definition accepted (r : hreply) (raw : string) : Prop :=
  exists resp, r = HGot resp /\ h_status_code resp = 200 /\
    assoc "x-res-version" (h_headers resp) = Some raw /\ raw <> "".

(** The trace of the wrapper, with the request that each call sends. *)
Definition sent_as {Q} (q : Q) (e : event unit) : event Q :=
  match e with
  | Sent _ => Sent q
  | Slept d => Slept d
  end.

End SpecMore.
Export SpecMore.
(** ** What a program may ask, and how often *)
Module Confine.

Section Obeys.
Context {X Q Rp : Type}.
Variable R : X -> X -> Prop.
Variable P : Q -> Prop.
Variable cost : Q -> nat.

(** [obeys R P cost n p] : every atomic access of [p] turns a state [s]
    into some [s'] with [R s' s], every question that [p] asks satisfies
    [P], and along every path through [p] the costs of the questions add
    up to [n] at most. *)
Inductive obeys {A} : nat -> prog X Q Rp A -> Prop :=
| ob_done n o : obeys n (Done o)
| ob_atomic n act k :
    (forall s, R (act s) s) -> (forall s, obeys n (k s)) ->
    obeys n (Atomic act k)
| ob_ask n n' q k :
    P q -> (cost q + n' <= n)%nat -> (forall r, obeys n' (k r)) ->
    obeys n (Ask q k)
| ob_sleep n d k : obeys n k -> obeys n (Sleep d k).
End Obeys.

Section Pool.
Context {S T B : Type}.
(** The tasks that may be submitted, the requests that the worker of a
    task may send, the questions that the main thread may ask, and the
    number of requests that one thread may send. *)
Variable allowed : T -> Prop.
Variable Pw : T -> request -> Prop.
Variable Pm : main_query -> Prop.
Variable budget : nat.

(** What an atomic step of the main thread may do to the pool: cancel
    pending futures and submit allowed tasks. *)
Definition grows (g' g : pool S T) : Prop :=
  exists old' new,
    futs g' = old' ++ new /\ Forall2 fut_step (futs g) old' /\
    Forall (fun f => snd f = Pending /\ allowed (fst f)) new.

(** A request costs one; waiting for a future, the console and the
    files cost nothing. *)
Definition worker_cost (q : request) : nat := 1.

Definition main_cost (q : main_query) : nat :=
  match q with Net _ => 1%nat | _ => 0%nat end.

(** The requests that the main thread has sent itself. *)
Definition main_sent (c : config S T B) : list request :=
  snd <$> List.filter (fun e => bool_decide (fst e = None)) (sent c).

(** A future with the task [t], in the state [st], whose worker has sent
    the requests [qs]. *)
Definition worker_confined (qs : list request) (t : T) (st : fut_state S) : Prop :=
  allowed t /\ Forall (Pw t) qs /\
  match st with
  | Pending => qs = []
  | Running p =>
      exists n, obeys (fun _ _ => True) (Pw t) worker_cost n p /\
                (length qs + n <= budget)%nat
  | _ => (length qs <= budget)%nat
  end.

Definition confined (c : config S T B) : Prop :=
  (forall i t st, futs (the_pool c) !! i = Some (t, st) ->
     worker_confined (sent_by i c) t st) /\
  (forall j q, (Some j, q) ∈ sent c -> is_Some (futs (the_pool c) !! j)) /\
  (exists n, obeys grows Pm main_cost n (main c) /\
             (length (main_sent c) + n <= budget)%nat) /\
  Forall (fun q => Pm (Net q)) (main_sent c) /\
  Forall (fun e => Pm (Pandas (fst e) (snd e))) (io c).
End Pool.

End Confine.
Export Confine.
(** ** login.py: the login request *)
Module LoginCall.

(** [d.pop(k, None)] on a copy of [d]. *)
Definition dict_pop {V} (k : string) (d : list (string * V)) : list (string * V) :=
  List.filter (fun kv => negb (String.eqb k (fst kv))) d.

(** The request of [login], with the headers it is sent with. *)
Inductive login_call : Type :=
| LoginCall (player_id device_id : json) (headers : list (string * json)).

(** The response as the wrapper looks at it: status and body. *)
Definition as_Response (r : HResponse) : Response :=
  {| status_code := h_status_code r; body := h_text r |}.

(** login.py, body of [login], before decoration. The global [HEADERS]
    and account.json are the shared state. *)
Definition login_func (player_id device_id : json)
  : prog state login_call hreply pyval :=
  Atomic (fun s => s) (fun s =>
  let headers := dict_pop "Authorization" (HEADERS s) in
  Ask (LoginCall player_id device_id headers) (fun r =>
    match r with
    | HFailed msg response => Done (Raise (RequestException msg response))
    | HGot response =>
        if h_status_code response =? 200 then
          let raw_version :=
            default "" (assoc "x-res-version" (h_headers response)) in
          if negb (String.eqb raw_version "") then
            let res_version := JStr (before "@" raw_version) in
            Atomic (fun s =>
                      {| account_json := account_json s;
                         HEADERS := dict_set "x-res-version" res_version (HEADERS s) |})
              (fun _ =>
            Atomic (fun s =>
                      match update_res_version res_version (account_json s) with
                      | Ret f' => {| account_json := f'; HEADERS := HEADERS s |}
                      | Raise _ => s
                      end)
              (fun s =>
                 match update_res_version res_version (account_json s) with
                 | Ret _ =>
                     Done (obind (response_json (as_Response response))
                                 (fun j => Ret (VJson j)))
                 | Raise e => Done (Raise e)
                 end))
          else
            Done (obind (response_json (as_Response response))
                        (fun j => Ret (VJson j)))
        else Done (Ret (VResp (as_Response response)))
    end)).

Definition login (player_id device_id : json)
  : prog state login_call hreply json :=
  retry_request (login_func player_id device_id).

End LoginCall.
Export LoginCall.
(** * Properties *)

(** ** Programs *)

Lemma yields_inv {S Q R A} (p : prog S Q R A) o :
  yields p o ->
  match p with
  | Done o' => o = o'
  | Atomic act k => exists s, yields (k s) o
  | Ask q k => exists r, yields (k r) o
  | Sleep d k => yields k o
  end.
Proof. destruct 1; eauto. Qed.

Lemma yields_on_finish {S Q R A B} (p : prog S Q R A) (f : outcome A -> prog S Q R B) o :
  yields (on_finish p f) o -> exists o', yields p o' /\ yields (f o') o.
Proof.
  induction p as [o'|act k IH|q k IH|d k IH]; cbn [on_finish]; intros H.
  - exists o'. split; [constructor|done].
  - apply yields_inv in H as [s H]. destruct (IH _ H) as (o' & ? & ?).
    exists o'. split; [econstructor|]; eauto.
  - apply yields_inv in H as [r H]. destruct (IH _ H) as (o' & ? & ?).
    exists o'. split; [econstructor|]; eauto.
  - apply yields_inv in H. destruct (IH H) as (o' & ? & ?).
    exists o'. split; [econstructor|]; eauto.
Qed.

Lemma yields_done_inv {S Q R A} (o o' : outcome A) :
  yields (S:=S) (Q:=Q) (R:=R) (Done o) o' -> o' = o.
Proof. intros H. by apply yields_inv in H. Qed.

Lemma exec_yields {S Q R A} (p : prog S Q R A) : forall rs s o s' tr,
  exec p rs s = Some (o, s', tr) -> yields p o.
Proof.
  induction p as [o'|act k IH|q k IH|d k IH]; intros rs s o s' tr H; cbn [exec] in H.
  - injection H as <- _ _. constructor.
  - econstructor. eapply IH, H.
  - destruct rs as [|r rs]; [done|].
    destruct (exec (k r) rs s) as [[[o1 s1] tr1]|] eqn:E; [|done].
    injection H as <- _ _. econstructor. eapply IH, E.
  - destruct (exec k rs s) as [[[o1 s1] tr1]|] eqn:E; [|done].
    injection H as <- _ _. econstructor. eapply IH, E.
Qed.

(** ** The retrying wrapper *)

Lemma try_body_last o last :
  try_body o last =
  match try_body o None with
  | AReturn v => AReturn v
  | ARaise e None => ARaise e last
  | ARaise e (Some b) => ARaise e (Some b)
  end.
Proof.
  destruct o as [[r|j]|e]; simpl; try reflexivity.
  - destruct (except_Exception _); [|reflexivity].
    destruct (status_code r =? 200); [destruct (response_json r); reflexivity|].
    reflexivity.
  - destruct j; reflexivity.
Qed.

Lemma recover_body_ret response last : exists l, recover_body response last = Ret l.
Proof.
  unfold recover_body. destruct (negb _); [|eauto].
  destruct response as [t|]; [|eauto]. destruct (truthy_text t); simpl; eauto.
Qed.

Lemma final_check_ret last : final_check last = Ret tt.
Proof. destruct last as [t|]; simpl; [destruct (truthy_text t)|]; reflexivity. Qed.

Section RetryFacts.
Context {S : Type} (m d : nat).

Lemma retry_loop_trace fuel : forall retries last os (s s' : S) o tr,
  (retries + fuel = m)%nat ->
  exec (retry_loop m d fuel retries last) os s = Some (o, s', tr) ->
  s' = s /\
  (forall e, o = Raise e -> is_Exception e = false) /\
  exists n, (n <= fuel)%nat /\ (fuel = 0 \/ 1 <= n)%nat /\
            tr = attempts_trace d retries n.
Proof.
  induction fuel as [|fuel IH]; intros retries last os s s' o tr Hm H.
  { injection H as <- <- <-. split; [done|]. split; [intros e [=]|].
    exists 0%nat. auto with lia. }
  assert (Hlt : (retries <? m)%nat = true) by (apply Nat.ltb_lt; lia).
  cbn [retry_loop] in H. rewrite Hlt in H. cbn [negb exec] in H.
  destruct os as [|o1 os]; [discriminate|].
  assert (Hone : forall v, Some (v, s, [Sent tt]) = Some (o, s', tr) ->
    s' = s /\ (forall e, v = Raise e -> is_Exception e = false) ->
    s' = s /\ (forall e, o = Raise e -> is_Exception e = false) /\
    exists n, (n <= Datatypes.S fuel)%nat /\
              (Datatypes.S fuel = 0 \/ 1 <= n)%nat /\
              tr = attempts_trace d retries n).
  { intros v [= <- <- <-] [_ Hv]. split; [done|]. split; [done|].
    exists 1%nat. split; [lia|]. split; [lia|]. reflexivity. }
  assert (Hmore : forall l,
    match exec (if (Datatypes.S retries =? m)%nat then Done (Ret JNull)
                else Sleep (wait_time d (Datatypes.S retries))
                       (retry_loop m d fuel (Datatypes.S retries) l)) os s with
    | Some (o, s', tr) => Some (o, s', Sent tt :: tr)
    | None => None
    end = Some (o, s', tr) ->
    s' = s /\ (forall e, o = Raise e -> is_Exception e = false) /\
    exists n, (n <= Datatypes.S fuel)%nat /\
              (Datatypes.S fuel = 0 \/ 1 <= n)%nat /\
              tr = attempts_trace d retries n).
  { intros l Hl. destruct (Datatypes.S retries =? m)%nat eqn:Heq.
    - apply (Hone (Ret JNull)); [exact Hl|]. split; [|intros e [=]].
      by injection Hl as _ <- _.
    - apply Nat.eqb_neq in Heq. cbn [exec] in Hl.
      destruct (exec (retry_loop m d fuel (Datatypes.S retries) l) os s)
        as [[[o' s''] tr']|] eqn:E; [|discriminate].
      injection Hl as <- <- <-.
      apply IH in E as (-> & Hexn & n & Hn & Hpos & ->); [|lia].
      split; [done|]. split; [done|].
      destruct n as [|n]; [lia|].
      exists (Datatypes.S (Datatypes.S n)).
      split; [lia|]. split; [lia|]. reflexivity. }
  destruct (try_body o1 last) as [v|[code|msg response|kind] last'].
  - apply (Hone (Ret v)); [exact H|]. split; [|intros e [=]].
    by injection H as _ <- _.
  - apply (Hone (Raise (SystemExit code))); [exact H|].
    split; [|intros e [= <-]; done]. by injection H as _ <- _.
  - destruct (recover_body_ret response last') as [l Hl]. rewrite Hl in H.
    cbn [lift] in H. rewrite final_check_ret in H. cbn [lift] in H.
    exact (Hmore l H).
  - apply (Hmore last'). exact H.
Qed.

Lemma fails_try_body o last :
  fails o = true ->
  exists e last', try_body o last = ARaise e last' /\ is_Exception e = true.
Proof.
  unfold fails. rewrite (try_body_last o last).
  destruct (try_body o None) as [v|e [b|]]; [done|eauto..].
Qed.

Lemma retry_loop_exhausted fuel : forall retries last os (s : S),
  (retries + fuel = m)%nat ->
  (fuel <= length os)%nat ->
  Forall (fun o => fails o = true) (take fuel os) ->
  exec (retry_loop m d fuel retries last) os s =
  Some (Ret JNull, s, attempts_trace d retries fuel).
Proof.
  induction fuel as [|fuel IH]; intros retries last os s Hm Hlen Hall; [done|].
  assert (Hlt : (retries <? m)%nat = true) by (apply Nat.ltb_lt; lia).
  cbn [retry_loop]. rewrite Hlt. cbn [negb exec].
  destruct os as [|o1 os]; [simpl in Hlen; lia|].
  cbn [take] in Hall. apply Forall_cons in Hall as [Hf Hall].
  destruct (fails_try_body o1 last Hf) as (e & last' & -> & He).
  cbn [length] in Hlen.
  assert (Hmore : forall l,
    match exec (if (Datatypes.S retries =? m)%nat then Done (Ret JNull)
                else Sleep (wait_time d (Datatypes.S retries))
                       (retry_loop m d fuel (Datatypes.S retries) l)) os s with
    | Some (o, s', tr) => Some (o, s', Sent tt :: tr)
    | None => None
    end = Some (Ret JNull, s, attempts_trace d retries (Datatypes.S fuel))).
  { intros l. destruct (Datatypes.S retries =? m)%nat eqn:Heq.
    - apply Nat.eqb_eq in Heq. assert (fuel = 0)%nat as -> by lia. reflexivity.
    - apply Nat.eqb_neq in Heq. cbn [exec].
      rewrite IH by (lia || done).
      destruct fuel; [lia|]. reflexivity. }
  destruct e as [code|msg response|kind]; [done| |].
  - destruct (recover_body_ret response last') as [l ->]. cbn [lift].
    rewrite final_check_ret. cbn [lift]. apply Hmore.
  - apply Hmore.
Qed.
End RetryFacts.

Lemma fetch_player_profile_cases {S} player_info ill r :
  yields (fetch_player_profile (S:=S) player_info ill) (Ret r) ->
  r = JNull \/ has_key "error_code" r = true \/
  exists player_id result,
    truthy result = true /\ has_key "error_code" result = false /\
    build_player_data player_info player_id ill result = Ret r.
Proof.
  unfold fetch_player_profile. intros H.
  destruct (if is_dict player_info then _ else _) as [player_id|e]; cbn [lift] in H.
  2:{ apply yields_done_inv in H. done. }
  apply yields_on_finish in H as ([result|e] & _ & H).
  2:{ apply yields_done_inv in H. done. }
  destruct (has_key "error_code" result) eqn:Herr.
  { apply yields_done_inv in H as [= ->]. auto. }
  destruct (truthy result) eqn:Ht; apply yields_done_inv in H.
  - right; right. exists player_id, result. auto.
  - left. congruence.
Qed.

Lemma set_level_keys cid v levels : (set_level cid v levels).*1 = levels.*1.
Proof.
  induction levels as [|[c v'] l IH]; [done|]. cbn [set_level].
  destruct (c =? cid); cbn; [done|by rewrite IH].
Qed.

Lemma lookup_set_level_ne cid c v levels :
  c <> cid -> lookup_level cid (set_level c v levels) = lookup_level cid levels.
Proof.
  intros Hne. induction levels as [|[c' v'] l IH]; [done|]. cbn [set_level].
  destruct (c' =? c) eqn:E1; cbn [lookup_level].
  - apply Z.eqb_eq in E1. subst. destruct (c =? cid) eqn:E2; [|done].
    apply Z.eqb_eq in E2. done.
  - destruct (c' =? cid); [done|apply IH].
Qed.

Lemma update_levels_keys fans : forall levels levels',
  update_levels fans levels = Ret levels' -> levels'.*1 = levels.*1.
Proof.
  induction fans as [|f fans IH]; intros levels levels' H; cbn [update_levels] in H.
  { by injection H as <-. }
  destruct (py_get f "character_id" JNull) as [c|]; [|done]. cbn [obind] in H.
  destruct (py_get f "d_season_fan_level" (JNum 0)) as [lv|]; [|done]. cbn [obind] in H.
  destruct (int_key c) as [[cid|]|]; [| |done]; cbn [obind] in H; [|by apply IH].
  destruct (lookup_level cid levels); [|by apply IH].
  apply IH in H. by rewrite H, set_level_keys.
Qed.

Lemma update_levels_unlisted cid fans : forall levels levels',
  update_levels fans levels = Ret levels' ->
  ~ Exists (names_character cid) fans ->
  lookup_level cid levels' = lookup_level cid levels.
Proof.
  induction fans as [|f fans IH]; intros levels levels' H Hno; cbn [update_levels] in H.
  { by injection H as <-. }
  assert (Hno' : ~ Exists (names_character cid) fans) by (intros ?; apply Hno; by right).
  destruct (py_get f "character_id" JNull) as [c|] eqn:Ec; [|done]. cbn [obind] in H.
  destruct (py_get f "d_season_fan_level" (JNum 0)) as [lv|]; [|done]. cbn [obind] in H.
  destruct (int_key c) as [[c'|]|] eqn:Ek; [| |done]; cbn [obind] in H; [|by apply IH].
  destruct (lookup_level c' levels); [|by apply IH].
  rewrite (IH _ _ H Hno'). apply lookup_set_level_ne.
  intros ->. apply Hno. left. exists c. auto.
Qed.

Lemma py_sum_spec vs : forall t, py_sum vs = Ret t -> t = foldr (fun v acc => as_int v + acc) 0 vs.
Proof.
  induction vs as [|v vs IH]; intros t H; cbn [py_sum] in H.
  { by injection H as <-. }
  destruct v; try done; destruct (py_sum vs) as [t'|]; try done;
    cbn [obind] in H; injection H as <-; cbn [foldr as_int]; by rewrite <- (IH t').
Qed.

Lemma build_player_data_shape player_info player_id ill result r :
  build_player_data player_info player_id ill result = Ret r ->
  exists d levels,
    r = JDict d /\
    update_levels (fan_list result) ((fun c => (fst c, JNum 0)) <$> CHARACTER_NAMES)
      = Ret levels /\
    Forall2 (fun c kv => fst kv = fst c /\ assoc (snd c) d = Some (snd kv))
            CHARACTER_NAMES levels /\
    assoc "季度等级" d =
      Some (JNum (foldr (fun v acc => as_int v + acc) 0 levels.*2)) /\
    assoc "104季度等级" d =
      Some (JNum (foldr (fun v acc => as_int v + acc) 0
                    (List.filter (fun c => negb (excluded (fst c))) levels).*2)).
Proof.
  unfold build_player_data, fan_list. intros H.
  destruct (py_get result "profile_info" (JDict [])) as [profile_data|]; [|done].
  cbn [obind] in *.
  destruct (py_get profile_data "fan_level_list" (JList [])) as [fl|]; [|done].
  cbn [obind] in *.
  destruct (py_get profile_data "player_name" (JStr "")) as [pn|]; [|done].
  destruct (py_get profile_data "search_guild_key" (JStr "")) as [sg|]; [|done].
  destruct (py_get profile_data "guild_name" (JStr "")) as [gn|]; [|done].
  destruct (py_get profile_data "dream_style_num" (JNum 0)) as [dr|]; [|done].
  cbn [obind] in H.
  set (base := [("player_id", player_id); _; _; _; _]) in H.
  destruct (if is_dict player_info then _ else Ret base) as [pd1|] eqn:E1; [|done].
  cbn [obind] in H.
  destruct (if ill then _ else Ret pd1) as [pd2|] eqn:E2; [|done].
  cbn [obind] in H.
  destruct (py_iter fl) as [fans|]; [|done]. cbn [obind] in H.
  destruct (update_levels fans _) as [levels|] eqn:Eu; [|done]. cbn [obind] in H.
  destruct (py_sum levels.*2) as [total|] eqn:Et; [|done]. cbn [obind] in H.
  destruct (py_sum (List.filter _ levels).*2) as [total104|] eqn:Et4; [|done].
  cbn [obind] in H.
  apply py_sum_spec in Et, Et4.
  pose proof (update_levels_keys _ _ _ Eu) as Hk.
  assert (exists d, r = JDict d /\
            Forall2 (fun c kv => fst kv = fst c /\ assoc (snd c) d = Some (snd kv))
                    CHARACTER_NAMES levels /\
            assoc "季度等级" d = Some (JNum total) /\
            assoc "104季度等级" d = Some (JNum total104)) as (d & -> & ? & ? & ?);
    [|exists d, levels; by rewrite <- Et, <- Et4].
  clear Eu Et Et4. revert H. generalize total total104. clear total total104.
  intros total total104 H.
  repeat (destruct levels as [|[? ?] levels]; [discriminate|]).
  destruct levels; [|discriminate].
  injection Hk as -> -> -> -> -> -> -> -> -> -> ->.
  destruct (is_dict player_info).
  - destruct (py_get player_info "rank" (JStr "")) as [rk|]; [|done].
    destruct (py_get player_info "point" (JNum 0)) as [pt|]; [|done].
    cbn [obind] in E1. injection E1 as <-.
    destruct ill.
    + destruct (py_get profile_data "last_login_date" (JStr "")) as [ld|]; [|done].
      cbn [obind] in E2. injection E2 as <-.
      vm_compute in H. injection H as <-. eexists. split; [reflexivity|].
      split; [repeat constructor|split; reflexivity].
    + injection E2 as <-.
      vm_compute in H. injection H as <-. eexists. split; [reflexivity|].
      split; [repeat constructor|split; reflexivity].
  - injection E1 as <-.
    destruct ill.
    + destruct (py_get profile_data "last_login_date" (JStr "")) as [ld|]; [|done].
      cbn [obind] in E2. injection E2 as <-.
      vm_compute in H. injection H as <-. eexists. split; [reflexivity|].
      split; [repeat constructor|split; reflexivity].
    + injection E2 as <-.
      vm_compute in H. injection H as <-. eexists. split; [reflexivity|].
      split; [repeat constructor|split; reflexivity].
Qed.

Lemma levels_sum (d : list (string * json)) names :
  forall levels : list (Z * json),
  Forall2 (fun c kv => fst kv = fst c /\ assoc (snd c) d = Some (snd kv))
          names levels ->
  foldr (fun v acc => as_int v + acc) 0 levels.*2 = sum_levels d names.
Proof.
  induction names as [|c names IH]; intros levels HF; inversion HF; subst; [done|].
  cbn. unfold level_of at 1. destruct H1 as [_ ->]. f_equal. by apply IH.
Qed.

Lemma levels_filter (f : Z -> bool) (d : list (string * json)) names :
  forall levels : list (Z * json),
  Forall2 (fun c kv => fst kv = fst c /\ assoc (snd c) d = Some (snd kv))
          names levels ->
  Forall2 (fun c kv => fst kv = fst c /\ assoc (snd c) d = Some (snd kv))
          (List.filter (fun c => f (fst c)) names)
          (List.filter (fun c => f (fst c)) levels).
Proof.
  induction names as [|c names IH]; intros levels HF; inversion HF; subst;
    [constructor|].
  cbn [List.filter]. destruct H1 as [Hk Hv]. rewrite Hk.
  destruct (f (fst c)); [constructor; [done|]|]; by apply IH.
Qed.

(** ** C5, C1: the retrying transport *)

(** A response object whose body carries the sentinel code ends the
    attempt with [SystemExit], whatever its status code. *)
Lemma sentinel_response_exits (r : Response) j last :
  response_json r = Ret j -> is_sentinel j = true ->
  try_body (Ret (VResp r)) last = ARaise (SystemExit 1) last.
Proof.
  intros Hj Hs. unfold try_body. rewrite Hj. cbn [obind].
  unfold check_sentinel. by rewrite Hs.
Qed.

(** C5: the wrapper with the default arguments calls the wrapped function
    at most 3 times, sleeps 1 then 2 time units between consecutive calls
    (initial_delay * 2 ** (attempt - 1)), lets no [Exception] escape, and
    returns [None] once three calls in a row have failed. *)
Theorem retry_request_bounded_backoff (S : Type) :
  (forall (os : list (outcome pyval)) (s s' : S) o tr,
      exec (wrapper 3 1) os s = Some (o, s', tr) ->
      (tr = [Sent tt] \/
       tr = [Sent tt; Slept (1 * 2 ^ (1 - 1)); Sent tt] \/
       tr = [Sent tt; Slept (1 * 2 ^ (1 - 1)); Sent tt;
             Slept (1 * 2 ^ (2 - 1)); Sent tt]) /\
      (forall e, o = Raise e -> is_Exception e = false)) /\
  (forall (o1 o2 o3 : outcome pyval) rest (s : S),
      fails o1 = true -> fails o2 = true -> fails o3 = true ->
      exec (wrapper 3 1) (o1 :: o2 :: o3 :: rest) s =
      Some (Ret JNull, s, [Sent tt; Slept 1; Sent tt; Slept 2; Sent tt])).
Proof.
  split.
  - intros os s s' o tr H.
    apply retry_loop_trace in H as (_ & Hexn & n & Hn & Hpos & ->); [|done].
    split; [|done].
    destruct n as [|[|[|[|n]]]]; try lia; auto.
  - intros o1 o2 o3 rest s H1 H2 H3. unfold wrapper.
    rewrite retry_loop_exhausted; [done|done|simpl; lia|].
    simpl. repeat constructor; done.
Qed.

Lemma retry_request_bounded_backoff_witness :
  let o := Raise (A:=pyval) (PyException "ConnectionError") in
  fails o = true /\
  exec (S:=unit) (wrapper 3 1) [o; o; o] tt =
  Some (Ret JNull, tt, [Sent tt; Slept 1; Sent tt; Slept 2; Sent tt]).
Proof.
  split; [reflexivity|].
  apply (proj2 (retry_request_bounded_backoff unit)); reflexivity.
Defined.

(** C1 at the failing input: the wrapped call raises, three times, a
    [RequestException] whose response body carries the sentinel code. The
    [sys.exit(1)] of lines 97 and 117 is inside [try: ... except: pass], so
    the wrapper sleeps, retries and returns [None]. *)
Theorem sentinel_on_exception_path_is_swallowed :
  exec (S:=unit) (wrapper 3 1)
       [raises_with_sentinel; raises_with_sentinel; raises_with_sentinel] tt =
  Some (Ret JNull, tt, [Sent tt; Slept 1; Sent tt; Slept 2; Sent tt]).
Proof. reflexivity. Qed.

(** ** C9, C10: the player record *)

(** C9: in the record of a fetched profile the total is the sum of the
    levels stored for all characters of [CHARACTER_NAMES], and the second
    total is that sum without the characters 1051 and 1052. *)
Theorem profile_totals (S : Type) player_info include_last_login d :
  yields (fetch_player_profile (S:=S) player_info include_last_login)
         (Ret (JDict d)) ->
  assoc "error_code" d = None ->
  assoc "季度等级" d = Some (JNum (sum_levels d CHARACTER_NAMES)) /\
  assoc "104季度等级" d =
    Some (JNum (sum_levels d
                  (List.filter (fun c => negb (bool_decide (fst c ∈ [1051; 1052])))
                               CHARACTER_NAMES))).
Proof.
  intros Hy Herr.
  apply fetch_player_profile_cases in Hy as [[=]|[Hy|Hy]].
  { cbn in Hy. by rewrite Herr in Hy. }
  destruct Hy as (player_id & result & _ & _ & Hb).
  apply build_player_data_shape in Hb as (d' & levels & [= <-] & _ & HF & Ht & Ht4).
  rewrite Ht, Ht4. split.
  - by rewrite (levels_sum d CHARACTER_NAMES levels).
  - rewrite (levels_sum d _ _ (levels_filter (fun z => negb (excluded z)) _ _ _ HF)).
    reflexivity.
Qed.

Lemma sample_record_yielded :
  yields (fetch_player_profile (S:=unit) sample_player false)
         (Ret (JDict sample_record)).
Proof. eapply (exec_yields _ [sample_profile_reply] tt). reflexivity. Qed.

Lemma profile_totals_witness :
  yields (fetch_player_profile (S:=unit) sample_player false)
         (Ret (JDict sample_record)) /\
  assoc "error_code" sample_record = None /\
  assoc "季度等级" sample_record = Some (JNum 12) /\
  assoc "104季度等级" sample_record = Some (JNum 7).
Proof.
  split; [exact sample_record_yielded|]. split; [reflexivity|].
  exact (profile_totals unit sample_player false sample_record
           sample_record_yielded eq_refl).
Defined.



(** ** What the atomic steps of a program may do *)

Lemma acts_within_inv {X Q Rp A} (R : X -> X -> Prop) (p : prog X Q Rp A) :
  acts_within R p ->
  match p with
  | Done _ => True
  | Atomic act k => (forall s, R (act s) s) /\ (forall s, acts_within R (k s))
  | Ask q k => forall r, acts_within R (k r)
  | Sleep d k => acts_within R k
  end.
Proof. destruct 1; auto. Qed.

Lemma acts_within_on_finish {X Q Rp A B} (R : X -> X -> Prop)
  (p : prog X Q Rp A) (f : outcome A -> prog X Q Rp B) :
  acts_within R p -> (forall o, acts_within R (f o)) ->
  acts_within R (on_finish p f).
Proof.
  intros Hp Hf. induction Hp; cbn [on_finish]; [apply Hf|constructor; auto..].
Qed.

Lemma acts_within_bind {X Q Rp A B} (R : X -> X -> Prop)
  (p : prog X Q Rp A) (f : A -> prog X Q Rp B) :
  acts_within R p -> (forall a, acts_within R (f a)) ->
  acts_within R (bind p f).
Proof.
  intros Hp Hf. apply acts_within_on_finish; [done|].
  intros [a|e]; [apply Hf|constructor].
Qed.

Lemma acts_within_link {X Q Rp A B} (R : X -> X -> Prop)
  (w : prog X unit (outcome B) A) (f : prog X Q Rp B) :
  acts_within R w -> acts_within R f -> acts_within R (link w f).
Proof.
  intros Hw Hf. induction Hw; cbn [link]; try (constructor; auto; fail).
  destruct q. apply acts_within_on_finish; auto.
Qed.

Lemma acts_within_weaken {X Q Rp A} (R R' : X -> X -> Prop) (p : prog X Q Rp A) :
  (forall s' s, R s' s -> R' s' s) -> acts_within R p -> acts_within R' p.
Proof. intros HR Hp. induction Hp; constructor; auto. Qed.

(** The retry loop itself never touches the shared object. *)
Lemma retry_loop_acts {X} (R : X -> X -> Prop) m d fuel :
  forall retries last, acts_within R (retry_loop (S:=X) m d fuel retries last).
Proof.
  induction fuel as [|fuel IH]; intros retries last; cbn [retry_loop];
    [constructor|].
  destruct (negb _); [constructor|]. constructor. intros o.
  destruct (try_body o last) as [v|[code|msg response|kind] last'];
    try (constructor; fail).
  - destruct (recover_body_ret response last') as [l ->]. cbn [lift].
    destruct (_ =? _)%nat; [|constructor; apply IH].
    rewrite final_check_ret. constructor.
  - destruct (_ =? _)%nat; constructor. apply IH.
Qed.

Lemma retry_request_acts {X Q Rp} (R : X -> X -> Prop) (func : prog X Q Rp pyval) :
  acts_within R func -> acts_within R (retry_request func).
Proof. intros Hf. apply acts_within_link; [apply retry_loop_acts|done]. Qed.

Lemma fetch_player_profile_acts {X} (R : X -> X -> Prop) player_info ill :
  acts_within R (fetch_player_profile (S:=X) player_info ill).
Proof.
  unfold fetch_player_profile.
  destruct (if is_dict player_info then _ else _); cbn [lift]; [|constructor].
  apply acts_within_bind.
  - apply retry_request_acts. constructor. intros [r|msg resp]; [|constructor].
    destruct (_ =? _); [|constructor].
    destruct (response_json r); constructor.
  - intros result. destruct (has_key _ _); [constructor|].
    destruct (truthy result); constructor.
Qed.

(** ** Safety of a pool *)
Section SafetyFacts.
Context {S T : Type}.
Variable worker : T -> worker_prog S.
Variable max_workers : nat.
Variable Rw : T -> S -> S -> Prop.
Variable Rm : S -> S -> Prop.

Hypothesis worker_ok : forall t, acts_within (Rw t) (worker t).
Hypothesis Rm_refl : forall s, Rm s s.

Context {B : Type}.
Implicit Types c : config S T B.

Lemma lookup_with_fut i j st (g : pool S T) :
  futs (with_fut i st g) !! j =
  if decide (i = j) then (fun f => (fst f, st)) <$> futs g !! j else futs g !! j.
Proof.
  unfold with_fut. cbn [futs]. destruct (decide (i = j)) as [->|Hne].
  - by rewrite list_lookup_alter_eq.
  - by rewrite list_lookup_alter_ne.
Qed.

Lemma step_ok l c c' :
  config_ok Rw Rm c -> step worker max_workers l c = Some c' ->
  config_ok Rw Rm c' /\
  (shared (the_pool c') = shared (the_pool c) \/
   (exists i t st, l = Work i /\ futs (the_pool c) !! i = Some (t, st) /\
                   Rw t (shared (the_pool c')) (shared (the_pool c))) \/
   (l = MainStep /\ Rm (shared (the_pool c')) (shared (the_pool c)))).
Proof.
  intros [Hp Hm] Hs. destruct l as [i|i|i r| |r]; cbn [step] in Hs.
  - (* Start *)
    unfold step_start in Hs.
    destruct (futs (the_pool c) !! i) as [[t [| | |]]|] eqn:Hi; try done.
    destruct (_ <? _)%nat; [|done]. injection Hs as <-. split; [|by left].
    split; [|done]. intros j t' p. cbn [the_pool with_pool main with_main log_sent]. rewrite lookup_with_fut.
    destruct (decide (i = j)) as [<-|]; [|apply Hp].
    rewrite Hi. cbn. intros [= <- <-]. apply worker_ok.
  - (* Work *)
    unfold step_work in Hs.
    destruct (futs (the_pool c) !! i) as [[t [|p| |]]|] eqn:Hi; try done.
    pose proof (Hp _ _ _ Hi) as Hpi.
    destruct p as [o|act k|q k|d k]; [| | done|]; injection Hs as <-;
      cbn [the_pool with_pool main with_main].
    + split; [|by left]. split; [|done]. intros j t' p. cbn [the_pool with_pool main with_main log_sent]. rewrite lookup_with_fut.
      destruct (decide (i = j)) as [<-|]; [|apply Hp]. by rewrite Hi.
    + apply acts_within_inv in Hpi as [Hact Hk].
      split.
      * split; [|done]. intros j t' p. cbn [the_pool with_pool main with_main log_sent]. rewrite lookup_with_fut. cbn [futs with_shared].
        destruct (decide (i = j)) as [<-|]; [|apply Hp].
        rewrite Hi. cbn. intros [= <- <-]. apply Hk.
      * right; left. exists i, t, (Running (Atomic act k)). cbn. auto.
    + apply acts_within_inv in Hpi. split; [|by left]. split; [|done].
      intros j t' p. cbn [the_pool with_pool main with_main log_sent]. rewrite lookup_with_fut.
      destruct (decide (i = j)) as [<-|]; [|apply Hp].
      rewrite Hi. cbn. by intros [= <- <-].
  - (* Deliver *)
    unfold step_deliver in Hs.
    destruct (futs (the_pool c) !! i) as [[t [|[o|act k|q k|d k]| |]]|] eqn:Hi; try done.
    injection Hs as <-. cbn. split; [|by left]. split; [|done].
    pose proof (Hp _ _ _ Hi) as Hpi. apply acts_within_inv in Hpi.
    intros j t' p. cbn [the_pool with_pool main with_main log_sent]. rewrite lookup_with_fut.
    destruct (decide (i = j)) as [<-|]; [|apply Hp].
    rewrite Hi. cbn. intros [= <- <-]. apply Hpi.
  - (* MainStep *)
    unfold step_main in Hs.
    destruct (main c) as [o|act k|q k|d k] eqn:Hmain; try done;
      apply acts_within_inv in Hm; injection Hs as <-; cbn.
    + destruct Hm as [Hact Hk].
      destruct (Hact (the_pool c)) as (HR & old' & new & Hf & H2 & Hnew).
      split; [|right; right; done]. split; [|apply Hk].
      intros j t p Hj. cbn [the_pool with_pool with_main] in Hj. rewrite Hf in Hj.
      destruct (decide (j < length old')%nat) as [Hlt|Hge].
      * rewrite lookup_app_l in Hj by done.
        destruct (Forall2_lookup_r _ _ _ _ _ H2 Hj) as ([t0 st0] & Hj0 & Ht & Hst).
        cbn in Ht, Hst. subst t0. destruct Hst as [<-|[_ [=]]]. by eapply Hp.
      * rewrite lookup_app_r in Hj by lia.
        apply (Forall_lookup_1 _ _ _ _ Hnew) in Hj. done.
    + split; [|by left]. done.
  - (* MainReply *)
    unfold step_reply in Hs.
    destruct (main c) as [o|act k|q k|d k] eqn:Hmain; try done.
    apply acts_within_inv in Hm.
    assert (Hgo : forall k', Some (with_main (k r) k') = Some c' ->
              shared (the_pool k') = shared (the_pool c) ->
              pool_ok Rw (the_pool k') ->
              config_ok Rw Rm c' /\
              (shared (the_pool c') = shared (the_pool c) \/
               (exists i t st, MainReply r = Work i /\
                  futs (the_pool c) !! i = Some (t, st) /\
                  Rw t (shared (the_pool c')) (shared (the_pool c))) \/
               (MainReply r = MainStep /\
                  Rm (shared (the_pool c')) (shared (the_pool c))))).
    { intros k' [= <-] Hsh Hpk. cbn. split; [|by left]. split; [done|apply Hm]. }
    destruct q, r; try done; cbn [log_yield log_sent log_io] in Hs.
    + destruct (_ && _); [|done]. injection Hs as <-. cbn.
      split; [|by left]. split; [done|apply Hm].
    + destruct (all_done _); [|done]. by apply (Hgo c).
    + injection Hs as <-. cbn. split; [|by left]. split; [done|apply Hm].
    + by apply (Hgo c).
    + by apply (Hgo c).
    + injection Hs as <-. cbn. split; [|by left]. split; [done|apply Hm].
Qed.

Lemma run_app ls1 ls2 c :
  run worker max_workers (ls1 ++ ls2) c =
  run worker max_workers ls1 c ≫= run worker max_workers ls2.
Proof.
  revert c. induction ls1 as [|l ls1 IH]; intros c; cbn [run app]; [done|].
  destruct (step worker max_workers l c); [apply IH|done].
Qed.

Lemma run_ok ls : forall c c',
  config_ok Rw Rm c -> run worker max_workers ls c = Some c' -> config_ok Rw Rm c'.
Proof.
  induction ls as [|l ls IH]; intros c c' Hok H; cbn [run] in H.
  { by injection H as <-. }
  destruct (step worker max_workers l c) as [c1|] eqn:Hs; [|done].
  eapply IH; [|exact H]. by eapply step_ok.
Qed.

Lemma boot_ok s (m : main_prog S T B) : main_within Rm m -> config_ok Rw Rm (boot s m).
Proof. intros Hm. split; [|done]. intros i t p Hi. done. Qed.

Lemma run_yields ls : forall c c' o,
  run worker max_workers ls c = Some c' -> yields (main c') o -> yields (main c) o.
Proof.
  induction ls as [|l ls IH]; intros c c' o H Hy; cbn [run] in H.
  { by injection H as <-. }
  destruct (step worker max_workers l c) as [c1|] eqn:Hs; [|done].
  specialize (IH _ _ _ H Hy). clear H Hy.
  destruct l as [i|i|i r| |r]; cbn [step] in Hs.
  - unfold step_start in Hs.
    destruct (futs (the_pool c) !! i) as [[t [| | |]]|]; try done.
    destruct (_ <? _)%nat; [|done]. by injection Hs as <-.
  - unfold step_work in Hs.
    destruct (futs (the_pool c) !! i) as [[t [|[o'|act k|q k|d k]| |]]|]; try done;
      by injection Hs as <-.
  - unfold step_deliver in Hs.
    destruct (futs (the_pool c) !! i) as [[t [|[o'|act k|q k|d k]| |]]|]; try done;
      by injection Hs as <-.
  - unfold step_main in Hs.
    destruct (main c) as [o'|act k|q k|d k]; try done; injection Hs as <-;
      econstructor; exact IH.
  - unfold step_reply in Hs.
    destruct (main c) as [o'|act k|q k|d k]; try done.
    apply (yields_ask _ _ r).
    destruct q, r; try done; cbn [log_yield log_sent log_io] in Hs.
    + destruct (_ && _); [|done]. by injection Hs as <-.
    + destruct (all_done _); [|done]. by injection Hs as <-.
    + by injection Hs as <-.
    + by injection Hs as <-.
    + by injection Hs as <-.
    + by injection Hs as <-.
Qed.

Lemma fut_steps_refl (l : list (T * fut_state S)) : Forall2 fut_step l l.
Proof. apply Forall2_same_length_lookup. split; [done|]. intros i f f' H1 H2.
  simplify_eq. split; auto. Qed.

Lemma evolves_refl (g : pool S T) : evolves Rm g g.
Proof.
  split; [apply Rm_refl|]. exists (futs g), []. rewrite app_nil_r.
  split; [done|]. split; [apply fut_steps_refl|constructor].
Qed.

Lemma evolves_shared (g : pool S T) s : Rm s (shared g) -> evolves Rm g (with_shared s g).
Proof.
  intros HR. split; [done|]. exists (futs g), []. cbn. rewrite app_nil_r.
  split; [done|]. split; [apply fut_steps_refl|constructor].
Qed.

Lemma evolves_submit (g : pool S T) ts : evolves Rm g (submit ts g).
Proof.
  split; [apply Rm_refl|]. exists (futs g), ((fun t => (t, Pending)) <$> ts).
  split; [done|]. split; [apply fut_steps_refl|].
  apply Forall_fmap, Forall_forall. done.
Qed.

Lemma evolves_cancel (g : pool S T) j : evolves Rm g (cancel j g).
Proof.
  unfold cancel.
  destruct (futs g !! j) as [[t [| | |]]|] eqn:Hj; try apply evolves_refl.
  split; [apply Rm_refl|]. exists (futs (with_fut j Cancelled g)), [].
  rewrite app_nil_r. split; [done|]. split; [|constructor].
  apply Forall2_same_length_lookup. split; [cbn; by rewrite length_alter|].
  intros i f f' H1 H2. rewrite lookup_with_fut in H2.
  destruct (decide (j = i)) as [<-|]; [|simplify_eq; split; auto].
  rewrite Hj in H1, H2. cbn in H2. simplify_eq. split; auto.
Qed.

Lemma in_main_within {A} (p : prog S request reply A) :
  acts_within Rm p -> main_within Rm (in_main (T:=T) p).
Proof.
  intros Hp. unfold main_within.
  induction Hp as [o|act k Hact Hk IH|q k Hk IH|d k Hk IH]; cbn [in_main].
  - constructor.
  - constructor; [|intros g; apply IH]. intros g. by apply evolves_shared.
  - constructor. intros [| |r| | |]; try constructor. apply IH.
  - constructor. apply IH.
Qed.

Lemma raise_in_with_within e :
  main_within Rm (raise_in_with (S:=S) (T:=T) (B:=B) e).
Proof. constructor. intros _. constructor. Qed.

Lemma lift_in_with_within {A} (o : outcome A) (f : A -> main_prog S T B) :
  (forall a, main_within Rm (f a)) -> main_within Rm (lift_in_with o f).
Proof. intros Hf. destruct o; [apply Hf|apply raise_in_with_within]. Qed.
End SafetyFacts.

(** ** A probe beyond the stop offset stays quiet *)
Section Idle.
Context {S T : Type}.
Variable worker : T -> worker_prog S.
Variable max_workers : nat.
Variable Rw : T -> S -> S -> Prop.
Variable Rm : S -> S -> Prop.
Hypothesis worker_ok : forall t, acts_within (Rw t) (worker t).
Context {B : Type}.
Implicit Types c : config S T B.

(** [stopped] holds from the moment the stop offset is below the task's
    rank; no step undoes it, and under it the task's function returns
    the empty list at its first step. *)
Variable t : T.
Variable stopped : S -> Prop.
Hypothesis stopped_w : forall t' s' s, Rw t' s' s -> stopped s -> stopped s'.
Hypothesis stopped_m : forall s' s, Rm s' s -> stopped s -> stopped s'.
Hypothesis short_circuit :
  exists k, worker t = Atomic id k /\
            forall s, stopped s -> k s = Done (Ret (JList [])).

Lemma sent_by_log_other i who q c1 c :
  who <> Some i -> sent c1 = sent c ->
  sent_by i (log_sent who q c1) = sent_by i c.
Proof.
  intros Hne He. unfold sent_by, log_sent. cbn [sent]. rewrite He.
  rewrite List.filter_app. cbn [List.filter fst].
  rewrite bool_decide_eq_false_2 by done. by rewrite app_nil_r.
Qed.

Lemma step_quiet i l c c' :
  quiet Rw Rm worker t stopped i c -> step worker max_workers l c = Some c' ->
  quiet Rw Rm worker t stopped i c' /\ sent_by i c' = sent_by i c.
Proof.
  intros (Hok & Hst & st & Hi & Hidle) Hs.
  destruct (step_ok worker max_workers Rw Rm worker_ok l c c' Hok Hs) as [Hok' Hsh].
  assert (Hst' : stopped (shared (the_pool c'))).
  { destruct Hsh as [->|[(j & t' & st' & _ & _ & HR)|[_ HR]]]; eauto. }
  destruct short_circuit as (k & Hw & Hk).
  destruct l as [j|j|j r| |r]; cbn [step] in Hs.
  - (* Start *)
    unfold step_start in Hs.
    destruct (futs (the_pool c) !! j) as [[t' [| | |]]|] eqn:Hj; try done.
    destruct (_ <? _)%nat; [|done]. injection Hs as <-. split; [|done].
    split; [done|]. split; [done|]. cbn [the_pool with_pool].
    rewrite lookup_with_fut. destruct (decide (j = i)) as [->|]; [|eauto].
    rewrite Hi in Hj. injection Hj as Ht' _. subst t'. rewrite Hi. cbn.
    eexists. split; [done|]. unfold idle. auto.
  - (* Work *)
    unfold step_work in Hs.
    destruct (futs (the_pool c) !! j) as [[t' [|p| |]]|] eqn:Hj; try done.
    destruct (decide (j = i)) as [->|Hne].
    + rewrite Hi in Hj. injection Hj as Ht' Hp'. subst t' st.
      destruct Hidle as [[=]|[[=]|[[= Hp]|[[= Hp]|[=]]]]]; subst p.
      * rewrite Hw in Hs. injection Hs as <-. split; [|done].
        split; [done|]. split; [done|]. cbn [the_pool with_pool].
        rewrite lookup_with_fut, decide_True by done. cbn [futs with_shared].
        rewrite Hi. cbn. eexists. split; [done|].
        rewrite Hk by done. unfold idle. auto.
      * injection Hs as <-. split; [|done].
        split; [done|]. split; [done|]. cbn [the_pool with_pool].
        rewrite lookup_with_fut, decide_True by done.
        rewrite Hi. cbn. eexists. split; [done|]. unfold idle. auto 10.
    + assert (Hkeep : forall g st', futs g !! i = Some (t, st) ->
                futs (with_fut j st' g) !! i = Some (t, st)).
      { intros g st' Hg. by rewrite lookup_with_fut, decide_False. }
      destruct p as [o|act k'|q k'|d k']; [| |done|]; injection Hs as <-;
        (split; [|done]); (split; [done|]); (split; [done|]);
        exists st; (split; [|done]); cbn [the_pool with_pool]; by apply Hkeep.
  - (* Deliver *)
    unfold step_deliver in Hs.
    destruct (futs (the_pool c) !! j) as [[t' [|[o|act k'|q k'|d k']| |]]|] eqn:Hj;
      try done.
    injection Hs as <-.
    destruct (decide (j = i)) as [->|Hne].
    { rewrite Hi in Hj. injection Hj as Ht' Hp'. subst t' st.
      destruct Hidle as [[=]|[[=]|[[= Hp]|[[=]|[=]]]]].
      rewrite Hw in Hp. done. }
    split; [|apply sent_by_log_other; [congruence|done]].
    split; [done|]. split; [done|]. exists st. split; [|done].
    cbn [the_pool with_pool log_sent]. by rewrite lookup_with_fut, decide_False.
  - (* MainStep *)
    unfold step_main in Hs. destruct Hok as [_ Hm].
    destruct (main c) as [o|act k'|q k'|d k'] eqn:Hmain; try done;
      apply acts_within_inv in Hm; injection Hs as <-; (split; [|done]).
    + split; [done|]. split; [done|]. cbn [the_pool with_pool with_main].
      destruct Hm as [Hact _].
      destruct (Hact (the_pool c)) as (_ & old' & new & Hf & H2 & _).
      destruct (Forall2_lookup_l _ _ _ _ _ H2 Hi) as ([t' st'] & Hi' & Ht & Hstep).
      cbn in Ht, Hstep. subst t'. exists st'. split.
      { rewrite Hf. rewrite lookup_app_l; [done|]. by eapply lookup_lt_Some. }
      destruct Hstep as [->|[-> ->]]; [done|]. unfold idle. auto.
    + split; [done|]. split; [done|]. by exists st.
  - (* MainReply *)
    unfold step_reply in Hs.
    destruct (main c) as [o|act k'|q k'|d k'] eqn:Hmain; try done.
    assert (Hq : forall c1, the_pool c1 = the_pool c -> config_ok Rw Rm c1 ->
              quiet Rw Rm worker t stopped i c1).
    { intros c1 Hp Hc1. split; [done|]. rewrite Hp. split; [done|]. by exists st. }
    destruct q, r; try done; cbn [log_yield log_sent log_io] in Hs.
    + destruct (_ && _); [|done]. injection Hs as <-. split; [|done].
      apply Hq; [done|]. destruct Hok' as [? ?]. done.
    + destruct (all_done _); [|done]. injection Hs as <-. split; [|done].
      apply Hq; [done|]. destruct Hok' as [? ?]. done.
    + injection Hs as <-. split.
      * apply Hq; [done|]. destruct Hok' as [? ?]. done.
      * by apply sent_by_log_other.
    + injection Hs as <-. split; [|done]. apply Hq; [done|].
      destruct Hok' as [? ?]. done.
    + injection Hs as <-. split; [|done]. apply Hq; [done|].
      destruct Hok' as [? ?]. done.
    + injection Hs as <-. split; [|done]. apply Hq; [done|].
      destruct Hok' as [? ?]. done.
Qed.

Lemma run_quiet i ls : forall c c',
  quiet Rw Rm worker t stopped i c -> run worker max_workers ls c = Some c' ->
  quiet Rw Rm worker t stopped i c' /\ sent_by i c' = sent_by i c.
Proof.
  induction ls as [|l ls IH]; intros c c' Hq H; cbn [run] in H.
  { by injection H as <-. }
  destruct (step worker max_workers l c) as [c1|] eqn:Hs; [|done].
  destruct (step_quiet i l c c1 Hq Hs) as [Hq1 He1].
  destruct (IH _ _ Hq1 H) as [Hq' He']. split; [done|congruence].
Qed.
End Idle.

(** ** Who has sent a request *)
Section SentFacts.
Context {S T : Type}.
Variable worker : T -> worker_prog S.
Variable max_workers : nat.
Variable Rw : T -> S -> S -> Prop.
Variable Rm : S -> S -> Prop.
Hypothesis worker_ok : forall t, acts_within (Rw t) (worker t).
Context {B : Type}.
Implicit Types c : config S T B.

Lemma step_senders l c c' :
  config_ok Rw Rm c -> senders_started c ->
  step worker max_workers l c = Some c' -> senders_started c'.
Proof.
  intros Hok Hinv Hs j q Hin.
  destruct l as [i|i|i r| |r]; cbn [step] in Hs.
  - unfold step_start in Hs.
    destruct (futs (the_pool c) !! i) as [[t [| | |]]|] eqn:Hi; try done.
    destruct (_ <? _)%nat; [|done]. injection Hs as <-.
    destruct (Hinv j q Hin) as (t' & st & Hj & Hne).
    cbn [the_pool with_pool]. rewrite lookup_with_fut.
    destruct (decide (i = j)) as [->|]; [|eauto].
    rewrite Hj. cbn. eauto.
  - unfold step_work in Hs.
    destruct (futs (the_pool c) !! i) as [[t [|p| |]]|] eqn:Hi; try done.
    destruct (Hinv j q) as (t' & st & Hj & Hne).
    { destruct p; try done; by injection Hs as <-. }
    assert (Hgo : forall st' g, futs g = futs (the_pool c) -> st' <> Pending ->
              exists t0 st0, futs (with_fut i st' g) !! j = Some (t0, st0) /\ st0 <> Pending).
    { intros st' g Hg Hst'. rewrite lookup_with_fut, Hg.
      destruct (decide (i = j)) as [->|]; [|eauto]. rewrite Hj. cbn. eauto. }
    destruct p as [o|act k|q' k|d k]; [| |done|]; injection Hs as <-;
      cbn [the_pool with_pool]; by apply Hgo.
  - unfold step_deliver in Hs.
    destruct (futs (the_pool c) !! i) as [[t [|[o|act k|q' k|d k]| |]]|] eqn:Hi;
      try done.
    injection Hs as <-. cbn [sent log_sent the_pool with_pool] in *.
    rewrite lookup_with_fut.
    apply elem_of_app in Hin as [Hin|Hin].
    + destruct (Hinv j q Hin) as (t' & st & Hj & Hne).
      destruct (decide (i = j)) as [->|]; [|eauto]. rewrite Hj. cbn. eauto.
    + apply list_elem_of_singleton in Hin. injection Hin as -> ->.
      rewrite decide_True by done. rewrite Hi. cbn. eauto.
  - unfold step_main in Hs. destruct Hok as [_ Hm].
    destruct (main c) as [o|act k|q' k|d k] eqn:Hmain; try done;
      apply acts_within_inv in Hm; injection Hs as <-;
      cbn [sent with_main with_pool the_pool] in *;
      destruct (Hinv j q Hin) as (t' & st & Hj & Hne); [|eauto].
    destruct Hm as [Hact _].
    destruct (Hact (the_pool c)) as (_ & old' & new & Hf & H2 & _).
    destruct (Forall2_lookup_l _ _ _ _ _ H2 Hj) as ([t0 st0] & Hj' & Ht & Hstep).
    cbn in Ht, Hstep. exists t0, st0. split.
    { rewrite Hf, lookup_app_l; [done|]. by eapply lookup_lt_Some. }
    destruct Hstep as [->|[? ->]]; done.
  - unfold step_reply in Hs.
    destruct (main c) as [o|act k|q' k|d k] eqn:Hmain; try done.
    destruct q', r; try done; cbn [log_yield log_sent log_io] in Hs.
    + destruct (_ && _); [|done]. injection Hs as <-. by apply (Hinv j q).
    + destruct (all_done _); [|done]. injection Hs as <-. by apply (Hinv j q).
    + injection Hs as <-. cbn [sent the_pool with_main log_sent] in *.
      apply elem_of_app in Hin as [Hin|Hin]; [by apply (Hinv j q)|].
      by apply list_elem_of_singleton in Hin.
    + injection Hs as <-. by apply (Hinv j q).
    + injection Hs as <-. by apply (Hinv j q).
    + injection Hs as <-. by apply (Hinv j q).
Qed.

Lemma run_senders ls : forall c c',
  config_ok Rw Rm c -> senders_started c ->
  run worker max_workers ls c = Some c' -> senders_started c'.
Proof.
  induction ls as [|l ls IH]; intros c c' Hok Hinv H; cbn [run] in H.
  { by injection H as <-. }
  destruct (step worker max_workers l c) as [c1|] eqn:Hs; [|done].
  eapply IH; [| |exact H].
  - by eapply step_ok.
  - by eapply step_senders.
Qed.

Lemma boot_senders s (m : main_prog S T B) : senders_started (boot s m).
Proof. intros j q Hin. by apply elem_of_nil in Hin. Qed.

Lemma filter_none {A} (f : A -> bool) (l : list A) :
  (forall e, e ∈ l -> f e = false) -> List.filter f l = [].
Proof.
  induction l as [|a l IH]; intros H; [done|]. cbn [List.filter].
  rewrite (H a) by left. apply IH. intros e He. apply H. by right.
Qed.

Lemma pending_sent_nothing c i t :
  senders_started c -> futs (the_pool c) !! i = Some (t, Pending) ->
  sent_by i c = [].
Proof.
  intros Hinv Hi. unfold sent_by. rewrite filter_none; [done|].
  intros [who q] Hin. apply bool_decide_eq_false. cbn. intros ->.
  destruct (Hinv i q Hin) as (t' & st & Hj & Hne). congruence.
Qed.
End SentFacts.

(** ** multicatch.py: the atomic steps only lower the stop offsets *)
Section MulticatchSafety.
Import Multicatch.

Lemma lowered_lower_stop rt r s : mc_lowered rt r (lower_stop rt r s) s.
Proof.
  unfold lower_stop. destruct (stop_ranks s !! rt) as [old|] eqn:E; [|by left].
  destruct (lt_stop r old) eqn:El; [|by left]. right. by exists old.
Qed.

Lemma mc_fetch_ranking_func_acts r rt :
  acts_within (mc_lowered rt r) (fetch_ranking_func r rt).
Proof.
  unfold fetch_ranking_func. constructor; [by left|]. intros s.
  destruct (stop_ranks s !! rt); [|constructor].
  destruct (gt_stop r s0); [constructor|]. constructor. intros [resp|msg resp0]; [|constructor].
  destruct (_ =? _); [|constructor].
  destruct (response_json resp) as [ranking_data|]; cbn [lift]; [|constructor].
  destruct (check_sentinel ranking_data); cbn [lift]; [|constructor].
  destruct (py_get ranking_data "point_rankings" (JList [])) as [pl|]; cbn [lift];
    [|constructor].
  assert (Hfin : acts_within (mc_lowered rt r)
            (Atomic (Q:=request) (R:=reply) count_step1 (fun _ => Done (Ret (VJson pl))))).
  { constructor; [by left|]. constructor. }
  destruct (truthy pl); [done|].
  constructor; [apply lowered_lower_stop|]. intros s1.
  destruct (stop_ranks s1 !! rt); [done|constructor].
Qed.

Lemma mc_fetch_profile_acts player_info :
  acts_within (fun s' s => stop_ranks s' = stop_ranks s) (fetch_profile player_info).
Proof.
  unfold fetch_profile. apply acts_within_bind; [apply fetch_player_profile_acts|].
  intros result. destruct (check_sentinel result); cbn [lift]; [|constructor].
  destruct (truthy result); [|constructor]. constructor; [done|]. constructor.
Qed.

Lemma mc_worker_acts t : acts_within (mc_Rw t) (worker t).
Proof.
  destruct t as [r rt|p]; cbn [worker mc_Rw].
  - apply retry_request_acts, mc_fetch_ranking_func_acts.
  - apply mc_fetch_profile_acts.
Qed.

Section MulticatchMain.
Context (rdt : Z).
Local Abbreviation mw := (main_within (S:=collector) (T:=task) (mc_Rm rdt)).

Lemma mc_Rm_refl s : mc_Rm rdt s s.
Proof. by left. Qed.

Lemma mc_try_cancel_evolves rt j g : evolves (mc_Rm rdt) g (try_cancel rt j g).
Proof.
  unfold try_cancel.
  destruct (futs g !! j) as [[[r rt'|p] st]|]; try apply (evolves_refl _ mc_Rm_refl).
  destruct (stop_ranks (shared g) !! rt); [|apply (evolves_refl _ mc_Rm_refl)].
  destruct (_ && _); [apply (evolves_cancel _ mc_Rm_refl)|apply (evolves_refl _ mc_Rm_refl)].
Qed.

Lemma mc_cancel_loop_within {B} rt js (k : main_prog collector task B) :
  mw k -> mw (cancel_loop rt js k).
Proof.
  intros Hk. induction js as [|j js IH]; cbn [cancel_loop]; [done|].
  constructor; [intros g; apply mc_try_cancel_evolves|]. intros g.
  destruct (stop_ranks (shared g) !! rt); [done|].
  destruct (futs g !! j) as [[t st]|]; [|done].
  destruct (done st); [done|apply raise_in_with_within].
Qed.

Lemma mc_harvest_loop_within {B} rt batch n :
  forall info (k : info_map -> main_prog collector task B),
    (forall info, mw (k info)) -> mw (harvest_loop rt batch n info k).
Proof.
  induction n as [|n IH]; intros info k Hk; cbn [harvest_loop]; [apply Hk|].
  constructor. intros [i| | | | |]; try constructor.
  { intros g. apply (evolves_refl _ mc_Rm_refl). }
  intros g.
  destruct (futs g !! i) as [[[r rt'|p] st]|]; try apply raise_in_with_within.
  destruct (stop_ranks (shared g) !! rt); [|apply raise_in_with_within].
  destruct (gt_stop r s).
  { apply mc_cancel_loop_within. by apply IH. }
  destruct st as [|p|[result|e]|]; try apply raise_in_with_within.
  destruct (truthy result); [|by apply IH].
  apply lift_in_with_within. intros new. by apply IH.
Qed.

Lemma mc_phase1_within {B} ranks types :
  forall info (k : info_map -> main_prog collector task B),
    (forall info, mw (k info)) -> mw (phase1 ranks types info k).
Proof.
  induction types as [|rt types IH]; intros info k Hk; cbn [phase1]; [apply Hk|].
  constructor; [intros g; apply (evolves_submit _ mc_Rm_refl)|]. intros g.
  apply mc_harvest_loop_within. intros info'. constructor. intros _. by apply IH.
Qed.

Lemma mc_detail_loop_within {B} ipd maps batch n :
  forall acc (k : list json -> main_prog collector task B),
    (forall dl, mw (k dl)) -> mw (detail_loop ipd maps batch n acc k).
Proof.
  induction n as [|n IH]; intros acc k Hk; cbn [detail_loop]; [apply Hk|].
  constructor. intros [i| | | | |]; try constructor.
  { intros g. apply (evolves_refl _ mc_Rm_refl). }
  intros g.
  destruct (futs g !! i) as [[t [|p|[result|e]|]]|]; try apply raise_in_with_within.
  destruct (truthy result); [|by apply IH].
  apply lift_in_with_within. intros r'. by apply IH.
Qed.

Lemma mc_io_step_within op rows k : mw k -> mw (io_step op rows k).
Proof. intros Hk. constructor. intros [| | | | |[e|]]; try constructor. done. Qed.

Lemma mc_ask_continue_within k : mw k -> mw (ask_continue k).
Proof.
  intros Hk. constructor. intros [| | | |s|]; try constructor.
  destruct (lower_y s); [done|constructor].
Qed.

Lemma mc_phase2_within info : mw (phase2 rdt info).
Proof.
  unfold phase2. destruct (info !! rdt) as [total|]; [|constructor].
  destruct (if rdt =? 20 then _ else _) as [maps|]; cbn [lift]; [|constructor].
  constructor; [intros g; apply (evolves_submit _ mc_Rm_refl)|]. intros g.
  apply mc_detail_loop_within. intros dl. constructor. intros _.
  apply mc_io_step_within. constructor.
Qed.

Lemma mc_harvest_within ranks : mw (harvest ranks rdt).
Proof.
  unfold harvest. apply mc_phase1_within. intros info. unfold after_harvest.
  destruct (existsb _ _); [|constructor].
  apply mc_io_step_within, mc_phase2_within.
Qed.

Lemma mc_collect_data_within ranks : mw (collect_data ranks rdt).
Proof.
  unfold collect_data.
  assert (Hl : mw (on_finish (in_main (fetch_ranking 1 rdt)) (fun o =>
            match o with
            | Ret _ => harvest ranks rdt
            | Raise e =>
                if is_Exception e then ask_continue (harvest ranks rdt)
                else Done (Raise e)
            end))).
  { apply acts_within_on_finish.
    - apply (in_main_within (mc_Rm rdt)).
      apply retry_request_acts, mc_fetch_ranking_func_acts.
    - intros [v|e]; [apply mc_harvest_within|].
      destruct (is_Exception e); [|constructor].
      apply mc_ask_continue_within, mc_harvest_within. }
  constructor. intros [| | |b| |]; try constructor.
  destruct b; [done|]. by apply mc_ask_continue_within.
Qed.

Lemma mc_system_ok ranks : config_ok mc_Rw (mc_Rm rdt) (system ranks rdt).
Proof. apply boot_ok, mc_collect_data_within. Qed.
End MulticatchMain.
End MulticatchSafety.

(** ** catchgraderank.py: the atomic steps only lower the stop offset *)
Section GradeSafety.
Import Catchgraderank.

Lemma gc_lowered_lower_stop r s : gc_lowered r (lower_stop r s) s.
Proof.
  unfold lower_stop. destruct (lt_stop r (stop_rank s)) eqn:El; [|by left].
  right. done.
Qed.

Lemma gc_fetch_grade_ranking_func_acts r :
  acts_within (gc_lowered r) (fetch_grade_ranking_func r).
Proof.
  unfold fetch_grade_ranking_func. constructor; [by left|]. intros s.
  destruct (gt_stop r (stop_rank s)); [constructor|]. constructor.
  intros [resp|msg resp0]; [|constructor].
  destruct (_ =? _); [|constructor].
  destruct (response_json resp) as [ranking_data|]; cbn [lift]; [|constructor].
  destruct (check_sentinel ranking_data); cbn [lift]; [|constructor].
  destruct (py_get ranking_data "point_rankings" (JList [])) as [pl|]; cbn [lift];
    [|constructor].
  assert (Hfin : acts_within (gc_lowered r)
            (Atomic (Q:=request) (R:=reply) count_step1 (fun _ => Done (Ret (VJson pl))))).
  { constructor; [by left|]. constructor. }
  destruct (truthy pl); [done|].
  constructor; [apply gc_lowered_lower_stop|done].
Qed.

Lemma gc_fetch_profile_acts player_info :
  acts_within (fun s' s => stop_rank s' = stop_rank s) (fetch_profile player_info).
Proof.
  unfold fetch_profile. apply acts_within_bind; [apply fetch_player_profile_acts|].
  intros result. destruct (check_sentinel result); cbn [lift]; [|constructor].
  destruct (truthy result); [|constructor]. constructor; [done|]. constructor.
Qed.

Lemma gc_worker_acts t : acts_within (gc_Rw t) (worker t).
Proof.
  destruct t as [r|p]; cbn [worker gc_Rw].
  - apply retry_request_acts, gc_fetch_grade_ranking_func_acts.
  - apply gc_fetch_profile_acts.
Qed.

Local Abbreviation gw := (main_within (S:=collector) (T:=task) gc_Rm).

Lemma gc_Rm_refl s : gc_Rm s s.
Proof. by left. Qed.

Lemma gc_try_cancel_evolves j g : evolves gc_Rm g (try_cancel j g).
Proof.
  unfold try_cancel.
  destruct (futs g !! j) as [[[r|p] st]|]; try apply (evolves_refl _ gc_Rm_refl).
  destruct (_ && _); [apply (evolves_cancel _ gc_Rm_refl)|apply (evolves_refl _ gc_Rm_refl)].
Qed.

Lemma gc_cancel_loop_within {B} js (k : main_prog collector task B) :
  gw k -> gw (cancel_loop js k).
Proof.
  intros Hk. induction js as [|j js IH]; cbn [cancel_loop]; [done|].
  constructor; [intros g; apply gc_try_cancel_evolves|done].
Qed.

Lemma gc_harvest_loop_within {B} batch n :
  forall ids info (k : list json -> main_prog collector task B),
    (forall info, gw (k info)) -> gw (harvest_loop batch n ids info k).
Proof.
  induction n as [|n IH]; intros ids info k Hk; cbn [harvest_loop]; [apply Hk|].
  constructor. intros [i| | | | |]; try constructor.
  { intros g. apply (evolves_refl _ gc_Rm_refl). }
  intros g.
  destruct (futs g !! i) as [[[r|p] st]|]; try apply raise_in_with_within.
  destruct (gt_stop r _).
  { apply gc_cancel_loop_within. by apply IH. }
  destruct st as [|p|[result|e]|]; try apply raise_in_with_within.
  destruct (truthy result); [|by apply IH].
  apply lift_in_with_within. intros new. by apply IH.
Qed.

Lemma gc_detail_loop_within {B} basic batch n :
  forall acc (k : list json -> main_prog collector task B),
    (forall dl, gw (k dl)) -> gw (detail_loop basic batch n acc k).
Proof.
  induction n as [|n IH]; intros acc k Hk; cbn [detail_loop]; [apply Hk|].
  constructor. intros [i| | | | |]; try constructor.
  { intros g. apply (evolves_refl _ gc_Rm_refl). }
  intros g.
  destruct (futs g !! i) as [[t [|p|[result|e]|]]|]; try apply raise_in_with_within.
  destruct (truthy result); [|by apply IH].
  apply lift_in_with_within. intros r'. by apply IH.
Qed.

Lemma gc_io_step_within op rows k : gw k -> gw (io_step op rows k).
Proof. intros Hk. constructor. intros [| | | | |[e|]]; try constructor. done. Qed.

Lemma gc_ask_continue_within k : gw k -> gw (ask_continue k).
Proof.
  intros Hk. constructor. intros [| | | |s|]; try constructor.
  destruct (Multicatch.lower_y s); [done|constructor].
Qed.

Lemma gc_phase2_within basic : gw (phase2 basic).
Proof.
  unfold phase2.
  constructor; [intros g; apply (evolves_submit _ gc_Rm_refl)|]. intros g.
  apply gc_detail_loop_within. intros dl. constructor. intros _.
  apply gc_io_step_within. constructor.
Qed.

Lemma gc_harvest_within ranks : gw (harvest ranks).
Proof.
  unfold harvest.
  constructor; [intros g; apply (evolves_submit _ gc_Rm_refl)|]. intros g.
  apply gc_harvest_loop_within. intros info. constructor. intros _.
  unfold after_harvest, sort_values_rank. destruct info as [|p info]; [constructor|].
  apply gc_io_step_within, gc_io_step_within, gc_phase2_within.
Qed.

Lemma gc_collect_data_within ranks : gw (collect_data ranks).
Proof.
  unfold collect_data.
  assert (Hl : gw (on_finish (in_main (fetch_grade_ranking 1)) (fun o =>
            match o with
            | Ret test_result =>
                if truthy test_result then harvest ranks else Done (Ret Quit)
            | Raise e =>
                if is_Exception e then ask_continue (harvest ranks)
                else Done (Raise e)
            end))).
  { apply acts_within_on_finish.
    - apply (in_main_within gc_Rm).
      apply retry_request_acts, gc_fetch_grade_ranking_func_acts.
    - intros [v|e].
      + destruct (truthy v); [apply gc_harvest_within|constructor].
      + destruct (is_Exception e); [|constructor].
        apply gc_ask_continue_within, gc_harvest_within. }
  constructor. intros [| | |b| |]; try constructor.
  destruct b; [done|]. by apply gc_ask_continue_within.
Qed.

Lemma gc_system_ok ranks : config_ok gc_Rw gc_Rm (system ranks).
Proof. apply boot_ok, gc_collect_data_within. Qed.
End GradeSafety.

(** ** C2: the stop offsets along a run *)

Lemma stop_le_refl a : stop_le a a.
Proof. destruct a; cbn; [done|lia]. Qed.

Lemma stop_le_trans a b c : stop_le a b -> stop_le b c -> stop_le a c.
Proof. destruct a, b, c; cbn; try done; lia. Qed.

Lemma lt_stop_le r old : lt_stop r old = true -> stop_le (Fin r) old.
Proof. destruct old; cbn; [done|]. intros H. apply Z.ltb_lt in H. lia. Qed.

Section MulticatchStop.
Import Multicatch.

Lemma mc_lowered_le rt r s' s :
  mc_lowered rt r s' s ->
  forall rt' a, stop_ranks s !! rt' = Some a ->
    exists b, stop_ranks s' !! rt' = Some b /\ stop_le b a.
Proof.
  intros [->|(old & Hold & Hlt & ->)] rt' a Ha.
  - exists a. split; [done|apply stop_le_refl].
  - destruct (decide (rt = rt')) as [<-|Hne].
    + rewrite lookup_insert_eq. eexists. split; [done|].
      assert (old = a) as -> by congruence. by apply lt_stop_le.
    + rewrite lookup_insert_ne by done. exists a. split; [done|apply stop_le_refl].
Qed.

Lemma mc_step_lowering rdt l (c c' : config collector task verdict) :
  config_ok mc_Rw (mc_Rm rdt) c -> step l c = Some c' ->
  config_ok mc_Rw (mc_Rm rdt) c' /\ mc_lowering rdt l c c'.
Proof.
  intros Hok Hs.
  destruct (step_ok worker 100%nat mc_Rw (mc_Rm rdt) mc_worker_acts l c c' Hok Hs)
    as [Hok' Hsh].
  split; [done|]. unfold mc_lowering.
  destruct Hsh as [->|[(i & t & st & -> & Hi & HR)|[-> HR]]]; [by left| |].
  - destruct t as [r rt|p]; cbn [mc_Rw] in HR; [|by left].
    destruct HR as [?|(old & ? & ? & ?)]; [by left|]. right.
    exists rt, r, old. split; [left; eauto|done].
  - destruct HR as [?|(old & ? & ? & ?)]; [by left|]. right.
    exists rdt, 1, old. split; [by right|done].
Qed.

Lemma mc_lowering_le rdt l c c' :
  mc_lowering rdt l c c' ->
  forall rt a, stop_ranks (shared (the_pool c)) !! rt = Some a ->
    exists b, stop_ranks (shared (the_pool c')) !! rt = Some b /\ stop_le b a.
Proof.
  intros [H|(rt0 & r & old & _ & H1 & H2 & H3)] rt a Ha.
  - apply (mc_lowered_le rt 0 _ (shared (the_pool c))); [by left|done].
  - apply (mc_lowered_le rt0 r _ (shared (the_pool c))); [|done].
    right. by exists old.
Qed.

Lemma mc_run_monotone rdt ls : forall c c' : config collector task verdict,
  config_ok mc_Rw (mc_Rm rdt) c -> run ls c = Some c' ->
  forall rt a, stop_ranks (shared (the_pool c)) !! rt = Some a ->
    exists b, stop_ranks (shared (the_pool c')) !! rt = Some b /\ stop_le b a.
Proof.
  induction ls as [|l ls IH]; intros c c' Hok H rt a Ha; cbn [Executor.run] in H.
  { injection H as <-. exists a. split; [done|apply stop_le_refl]. }
  destruct (step l c) as [c1|] eqn:Hs; [|done].
  destruct (mc_step_lowering rdt l c c1 Hok Hs) as [Hok1 Hl].
  destruct (mc_lowering_le _ _ _ _ Hl rt a Ha) as (b1 & Hb1 & Hle1).
  destruct (IH _ _ Hok1 H rt b1 Hb1) as (b & Hb & Hle).
  exists b. split; [done|]. by eapply stop_le_trans.
Qed.

Lemma mc_lower_stop_lookup rt r s st :
  stop_ranks s !! rt = Some st ->
  stop_ranks (lower_stop rt r s) !! rt = Some (stop_min (Fin r) st).
Proof.
  intros Hst. unfold lower_stop. rewrite Hst.
  destruct st as [|x]; cbn [lt_stop stop_min stop_ranks].
  - by rewrite lookup_insert_eq.
  - destruct (r <? x) eqn:E; cbn [stop_ranks].
    + rewrite lookup_insert_eq. apply Z.ltb_lt in E. f_equal. f_equal. lia.
    + rewrite Hst. apply Z.ltb_ge in E. f_equal. f_equal. lia.
Qed.

Lemma mc_min_wins rt a b s st :
  stop_ranks s !! rt = Some st ->
  stop_ranks (lower_stop rt a (lower_stop rt b s)) !! rt
    = Some (stop_min (Fin (Z.min a b)) st).
Proof.
  intros Hst. erewrite mc_lower_stop_lookup; [|by apply mc_lower_stop_lookup].
  f_equal. destruct st; cbn; f_equal; lia.
Qed.

Lemma mc_init_inf rdt rt :
  rt ∈ ranking_type_keys rdt -> stop_ranks (init rdt) !! rt = Some Inf.
Proof.
  intros Hin. unfold init, ranking_type_keys in *. cbn [stop_ranks fmap list_fmap list_to_map foldr].
  cbn. rewrite !lookup_insert.
  repeat (case_decide; [done|]).
  repeat (apply elem_of_cons in Hin as [->|Hin]; [done|]).
  by apply elem_of_nil in Hin.
Qed.
End MulticatchStop.

Section GradeStop.
Import Catchgraderank.

Lemma gc_lowered_le r s' s : gc_lowered r s' s -> stop_le (stop_rank s') (stop_rank s).
Proof.
  intros [->|[Hlt ->]]; [apply stop_le_refl|by apply lt_stop_le].
Qed.

Lemma gc_step_lowering l (c c' : config collector task verdict) :
  config_ok gc_Rw gc_Rm c -> step l c = Some c' ->
  config_ok gc_Rw gc_Rm c' /\ gc_lowering l c c'.
Proof.
  intros Hok Hs.
  destruct (step_ok worker 100%nat gc_Rw gc_Rm gc_worker_acts l c c' Hok Hs)
    as [Hok' Hsh].
  split; [done|]. unfold gc_lowering.
  destruct Hsh as [->|[(i & t & st & -> & Hi & HR)|[-> HR]]]; [by left| |].
  - destruct t as [r|p]; cbn [gc_Rw] in HR; [|by left].
    destruct HR as [?|[? ?]]; [by left|]. right.
    exists r. split; [left; eauto|done].
  - destruct HR as [?|[? ?]]; [by left|]. right.
    exists 1. split; [by right|done].
Qed.

Lemma gc_lowering_le l c c' :
  gc_lowering l c c' ->
  stop_le (stop_rank (shared (the_pool c'))) (stop_rank (shared (the_pool c))).
Proof.
  intros [H|(r & _ & H1 & H2)].
  - rewrite H. apply stop_le_refl.
  - rewrite H2. by apply lt_stop_le.
Qed.

Lemma gc_run_monotone ls : forall c c' : config collector task verdict,
  config_ok gc_Rw gc_Rm c -> run ls c = Some c' ->
  stop_le (stop_rank (shared (the_pool c'))) (stop_rank (shared (the_pool c))).
Proof.
  induction ls as [|l ls IH]; intros c c' Hok H; cbn [Executor.run] in H.
  { injection H as <-. apply stop_le_refl. }
  destruct (step l c) as [c1|] eqn:Hs; [|done].
  destruct (gc_step_lowering l c c1 Hok Hs) as [Hok1 Hl].
  eapply stop_le_trans; [by eapply IH|by apply gc_lowering_le in Hl].
Qed.

Lemma gc_lower_stop_rank r s :
  stop_rank (lower_stop r s) = stop_min (Fin r) (stop_rank s).
Proof.
  unfold lower_stop. destruct (stop_rank s) as [|x] eqn:E; cbn [lt_stop stop_min].
  - done.
  - destruct (r <? x) eqn:El; cbn [stop_rank].
    + apply Z.ltb_lt in El. f_equal. lia.
    + rewrite E. apply Z.ltb_ge in El. f_equal. lia.
Qed.

Lemma gc_min_wins a b s :
  stop_rank (lower_stop a (lower_stop b s))
    = stop_min (Fin (Z.min a b)) (stop_rank s).
Proof.
  rewrite !gc_lower_stop_rank. destruct (stop_rank s); cbn; f_equal; lia.
Qed.
End GradeStop.


(** ** C3: probes beyond the stop offset *)

Section MulticatchQuiet.
Import Multicatch.

Lemma mc_stopped_lowered rt r rt' r' s' s :
  mc_lowered rt' r' s' s -> mc_stopped rt r s -> mc_stopped rt r s'.
Proof.
  intros [H|(old & Hold & Hlt & H)] (x & Hx & Hxr); unfold mc_stopped; rewrite H.
  - eauto.
  - destruct (decide (rt' = rt)) as [->|Hne].
    + rewrite lookup_insert_eq. exists r'. split; [done|].
      rewrite Hx in Hold. injection Hold as <-. cbn in Hlt.
      apply Z.ltb_lt in Hlt. lia.
    + rewrite lookup_insert_ne by done. eauto.
Qed.

Lemma mc_stopped_w rt r t' s' s :
  mc_Rw t' s' s -> mc_stopped rt r s -> mc_stopped rt r s'.
Proof.
  destruct t' as [r' rt'|p]; cbn [mc_Rw].
  - apply mc_stopped_lowered.
  - intros H (x & Hx & Hxr). exists x. by rewrite H.
Qed.

Lemma mc_short_circuit r rt :
  exists k, worker (Probe r rt) = Atomic id k /\
            forall s, mc_stopped rt r s -> k s = Done (Ret (JList [])).
Proof.
  eexists. split; [reflexivity|]. intros s (x & Hx & Hxr). cbn beta.
  rewrite Hx. cbn [gt_stop].
  assert ((x <? r) = true) as -> by (apply Z.ltb_lt; lia). reflexivity.
Qed.

Lemma mc_late_probe_quiet ranks rdt ls0 (c : config collector task verdict) i r rt R :
  run ls0 (system ranks rdt) = Some c ->
  futs (the_pool c) !! i = Some (Probe r rt, Pending) ->
  mc_observed rt R (shared (the_pool c)) -> R < r ->
  forall ls c', run ls c = Some c' ->
    sent_by i c' = [] /\
    exists st, futs (the_pool c') !! i = Some (Probe r rt, st) /\
               idle (fetch_ranking r rt) st.
Proof.
  intros H0 Hi (x & Hx & HxR) HRr ls c' Hrun.
  assert (Hok : config_ok mc_Rw (mc_Rm rdt) c).
  { eapply run_ok; [apply mc_worker_acts|apply mc_system_ok|exact H0]. }
  assert (Hsent : sent_by i c = []).
  { eapply pending_sent_nothing; [|exact Hi].
    eapply run_senders; [apply mc_worker_acts|apply mc_system_ok|apply boot_senders|exact H0]. }
  assert (Hq : quiet mc_Rw (mc_Rm rdt) worker (Probe r rt) (mc_stopped rt r) i c).
  { split; [done|]. split; [exists x; split; [done|lia]|].
    exists Pending. split; [done|]. by left. }
  destruct (run_quiet worker 100%nat mc_Rw (mc_Rm rdt) mc_worker_acts
              (Probe r rt) (mc_stopped rt r)
              (mc_stopped_w rt r) (mc_stopped_lowered rt r rdt 1)
              (mc_short_circuit r rt) i ls c c' Hq Hrun)
    as [(_ & _ & st & Hst & Hidle) He].
  split; [congruence|]. by exists st.
Qed.

Lemma mc_observed_after rt R s :
  is_Some (stop_ranks s !! rt) -> mc_observed rt R (lower_stop rt R s).
Proof.
  intros [st Hst]. unfold mc_observed.
  rewrite (mc_lower_stop_lookup rt R s st Hst).
  destruct st as [|x]; cbn [stop_min]; eexists; (split; [done|lia]).
Qed.

Lemma mc_try_cancel_pending rt j r rt' stop (g : mpool) :
  futs g !! j = Some (Probe r rt', Pending) ->
  stop_ranks (shared g) !! rt = Some stop -> gt_stop r stop = true ->
  futs (try_cancel rt j g) !! j = Some (Probe r rt', Cancelled).
Proof.
  intros Hj Hs Hgt. unfold try_cancel, cancel. rewrite Hj, Hs, Hgt. cbn.
  by rewrite list_lookup_alter_eq, Hj.
Qed.

Lemma mc_sweep_on_late_future {B} rt batch n info
  (k : info_map -> main_prog collector task B) i rank rt' st stop (g : mpool) :
  futs g !! i = Some (Probe rank rt', st) ->
  stop_ranks (shared g) !! rt = Some stop -> gt_stop rank stop = true ->
  after_yield (harvest_loop rt batch (Datatypes.S n) info k) i g
    = Some (cancel_loop rt batch (harvest_loop rt batch n info k)).
Proof. intros Hi Hs Hgt. cbn. by rewrite Hi, Hs, Hgt. Qed.
End MulticatchQuiet.

Section GradeQuiet.
Import Catchgraderank.

Lemma gc_stopped_lowered r r' s' s :
  gc_lowered r' s' s -> gc_stopped r s -> gc_stopped r s'.
Proof.
  intros [H|[Hlt H]] (x & Hx & Hxr); unfold gc_stopped; rewrite H; [eauto|].
  exists r'. split; [done|]. rewrite Hx in Hlt. cbn in Hlt.
  apply Z.ltb_lt in Hlt. lia.
Qed.

Lemma gc_stopped_w r t' s' s :
  gc_Rw t' s' s -> gc_stopped r s -> gc_stopped r s'.
Proof.
  destruct t' as [r'|p]; cbn [gc_Rw].
  - apply gc_stopped_lowered.
  - intros H (x & Hx & Hxr). exists x. by rewrite H.
Qed.

Lemma gc_short_circuit r :
  exists k, worker (Probe r) = Atomic id k /\
            forall s, gc_stopped r s -> k s = Done (Ret (JList [])).
Proof.
  eexists. split; [reflexivity|]. intros s (x & Hx & Hxr). cbn beta.
  rewrite Hx. cbn [gt_stop].
  assert ((x <? r) = true) as -> by (apply Z.ltb_lt; lia). reflexivity.
Qed.

Lemma gc_late_probe_quiet ranks ls0 (c : config collector task verdict) i r R :
  run ls0 (system ranks) = Some c ->
  futs (the_pool c) !! i = Some (Probe r, Pending) ->
  gc_observed R (shared (the_pool c)) -> R < r ->
  forall ls c', run ls c = Some c' ->
    sent_by i c' = [] /\
    exists st, futs (the_pool c') !! i = Some (Probe r, st) /\
               idle (fetch_grade_ranking r) st.
Proof.
  intros H0 Hi (x & Hx & HxR) HRr ls c' Hrun.
  assert (Hok : config_ok gc_Rw gc_Rm c).
  { eapply run_ok; [apply gc_worker_acts|apply gc_system_ok|exact H0]. }
  assert (Hsent : sent_by i c = []).
  { eapply pending_sent_nothing; [|exact Hi].
    eapply run_senders; [apply gc_worker_acts|apply gc_system_ok|apply boot_senders|exact H0]. }
  assert (Hq : quiet gc_Rw gc_Rm worker (Probe r) (gc_stopped r) i c).
  { split; [done|]. split; [exists x; split; [done|lia]|].
    exists Pending. split; [done|]. by left. }
  destruct (run_quiet worker 100%nat gc_Rw gc_Rm gc_worker_acts
              (Probe r) (gc_stopped r)
              (gc_stopped_w r) (gc_stopped_lowered r 1)
              (gc_short_circuit r) i ls c c' Hq Hrun)
    as [(_ & _ & st & Hst & Hidle) He].
  split; [congruence|]. by exists st.
Qed.

Lemma gc_observed_after R s : gc_observed R (lower_stop R s).
Proof.
  unfold gc_observed. rewrite gc_lower_stop_rank.
  destruct (stop_rank s) as [|x]; cbn [stop_min]; eexists; (split; [done|lia]).
Qed.

Lemma gc_try_cancel_pending j r (g : gpool) :
  futs g !! j = Some (Probe r, Pending) ->
  gt_stop r (stop_rank (shared g)) = true ->
  futs (try_cancel j g) !! j = Some (Probe r, Cancelled).
Proof.
  intros Hj Hgt. unfold try_cancel, cancel. rewrite Hj, Hgt. cbn.
  by rewrite list_lookup_alter_eq, Hj.
Qed.

Lemma gc_sweep_on_late_future {B} batch n ids info
  (k : list json -> main_prog collector task B) i rank st (g : gpool) :
  futs g !! i = Some (Probe rank, st) ->
  gt_stop rank (stop_rank (shared g)) = true ->
  after_yield (harvest_loop batch (Datatypes.S n) ids info k) i g
    = Some (cancel_loop batch (harvest_loop batch n ids info k)).
Proof. intros Hi Hgt. cbn. by rewrite Hi, Hgt. Qed.
End GradeQuiet.


(** ** C8, C6: the detail fan-out of multicatch.py *)

Section MulticatchFanout.
Import Multicatch.

Lemma assoc_dict_set {V} k k' (v : V) d :
  assoc k (dict_set k' v d) = if String.eqb k k' then Some v else assoc k d.
Proof.
  induction d as [|[k0 v0] d IH]; cbn [dict_set assoc].
  - by destruct (String.eqb k k').
  - destruct (String.eqb k' k0) eqn:E0; cbn [assoc].
    + apply String.eqb_eq in E0. subst k0.
      by destruct (String.eqb k k').
    + rewrite IH. destruct (String.eqb k k0) eqn:E; [|done].
      apply String.eqb_eq in E. subst k0.
      destruct (String.eqb k k') eqn:E'; [|done].
      apply String.eqb_eq in E'. subst. by rewrite String.eqb_refl in E0.
Qed.


Lemma player_map_absent key players : forall m m',
  player_map players m = Ret m' ->
  m !! key = None -> no_summary key players -> m' !! key = None.
Proof.
  induction players as [|p players IH]; intros m m' H Hm Hno; cbn [player_map] in H.
  { by injection H as <-. }
  assert (Hp : obind (py_item p "player_id") py_hash <> Ret key)
    by (apply Hno; left).
  destruct (py_item p "player_id") as [id|]; [|done]. cbn [obind] in H, Hp.
  destruct (py_hash id) as [k|]; [|done]. cbn [obind] in H.
  destruct (py_item p "point") as [pt|]; [|done]. cbn [obind] in H.
  destruct (py_item p "rank") as [rk|]; [|done]. cbn [obind] in H.
  apply (IH _ _ H).
  - rewrite lookup_insert_ne; [done|congruence].
  - intros q Hq. apply Hno. by right.
Qed.

Lemma player_maps_abc info maps :
  player_maps info [10; 11; 12] = Ret maps ->
  exists mA mB mC,
    maps = [(10, mA); (11, mB); (12, mC)] /\
    player_map (default [] (info !! 10)) ∅ = Ret mA /\
    player_map (default [] (info !! 11)) ∅ = Ret mB /\
    player_map (default [] (info !! 12)) ∅ = Ret mC.
Proof.
  cbn [player_maps]. intros H.
  destruct (player_map (default [] (info !! 10)) ∅) as [mA|]; [|done].
  destruct (player_map (default [] (info !! 11)) ∅) as [mB|]; [|done].
  destruct (player_map (default [] (info !! 12)) ∅) as [mC|]; [|done].
  cbn in H. injection H as <-. by exists mA, mB, mC.
Qed.

Lemma merge_siblings_abc mA mB mC key d :
  let d' := merge_siblings [(10, mA); (11, mB); (12, mC)] key d in
  assoc "player_id" d' = assoc "player_id" d /\
  (mA !! key = None -> assoc "A分数" d' = Some JNull /\ assoc "A rank" d' = Some JNull) /\
  (mB !! key = None -> assoc "B分数" d' = Some JNull /\ assoc "B rank" d' = Some JNull) /\
  (mC !! key = None -> assoc "C分数" d' = Some JNull /\ assoc "C rank" d' = Some JNull).
Proof.
  cbn [merge_siblings].
  destruct (mA !! key) as [[pa ra]|]; destruct (mB !! key) as [[pb rb]|];
    destruct (mC !! key) as [[pc rc]|];
    repeat split; intros; try done; rewrite !assoc_dict_set; reflexivity.
Qed.

Lemma merge_result_absent info maps result r' :
  player_maps info [10; 11; 12] = Ret maps ->
  merge_result false maps result = Ret r' ->
  absent_is_None info r'.
Proof.
  intros Hm H. apply player_maps_abc in Hm as (mA & mB & mC & -> & HA & HB & HC).
  unfold merge_result in H.
  destruct (py_item result "player_id") as [player_id|] eqn:Hid; [|done].
  cbn [obind] in H.
  destruct (py_hash player_id) as [key|] eqn:Hk; [|done]. cbn [obind] in H.
  destruct result as [| | | | |d]; try done. injection H as <-.
  destruct (merge_siblings_abc mA mB mC key d) as (Hpid & HmA & HmB & HmC).
  exists (merge_siblings [(10, mA); (11, mB); (12, mC)] key d), player_id, key.
  split; [reflexivity|].
  split. { rewrite Hpid. cbn in Hid. by destruct (assoc "player_id" d); simplify_eq. }
  split; [done|].
  intros rt Hrt Hno.
  repeat (apply elem_of_cons in Hrt as [->|Hrt]).
  - apply HmA. eapply player_map_absent; eauto.
  - apply HmB. eapply player_map_absent; eauto.
  - apply HmC. eapply player_map_absent; eauto.
  - by apply elem_of_nil in Hrt.
Qed.

Lemma detail_loop_yields {B} (P : json -> Prop) ipd maps batch
  (k : list json -> main_prog collector task B) :
  (forall result r', truthy result = true ->
     merge_result ipd maps result = Ret r' -> P r') ->
  forall n acc o,
    Forall P acc ->
    yields (detail_loop ipd maps batch n acc k) o ->
    (exists dl, Forall P dl /\ (length dl <= length acc + n)%nat /\ yields (k dl) o)
    \/ (exists e, o = Raise e).
Proof.
  intros HP. induction n as [|n IH]; intros acc o Hacc H; cbn [detail_loop] in H.
  { left. exists acc. split; [done|]. split; [lia|done]. }
  apply yields_inv in H as [r H].
  destruct r as [i| | | | |]; try (apply yields_inv in H; eauto; fail).
  apply yields_inv in H as [g H].
  assert (Hraise : forall e, yields (raise_in_with (S:=collector) (T:=task) (B:=B) e) o ->
            (exists dl, Forall P dl /\ (length dl <= length acc + Datatypes.S n)%nat /\ yields (k dl) o)
            \/ (exists e, o = Raise e)).
  { intros e He. apply yields_inv in He as [_ He]. apply yields_inv in He. eauto. }
  destruct (futs g !! i) as [[t [|p|[result|e]|]]|]; eauto.
  destruct (truthy result) eqn:Ht.
  - destruct (merge_result ipd maps result) as [r'|e] eqn:Hm; cbn [lift_in_with] in H; eauto.
    apply IH in H as [(dl & ? & Hlen & ?)|?]; [left|by right|].
    + exists dl. split; [done|]. split; [|done]. rewrite length_app in Hlen. simpl in Hlen. lia.
    + apply Forall_app. split; [done|]. constructor; eauto.
  - apply IH in H as [(dl & ? & Hlen & ?)|?]; [left|by right|done].
    exists dl. split; [done|]. split; [lia|done].
Qed.

Lemma phase2_yields (P : json -> Prop) ranking_day_type info dl :
  (forall maps result r',
     (if ranking_day_type =? 20 then Ret [] else player_maps info [10; 11; 12]) = Ret maps ->
     truthy result = true ->
     merge_result (ranking_day_type =? 20) maps result = Ret r' -> P r') ->
  yields (phase2 ranking_day_type info) (Ret (Details dl)) ->
  Forall P dl /\
  (length dl <= length (default [] (info !! ranking_day_type)))%nat.
Proof.
  intros HP H. unfold phase2 in H.
  destruct (info !! ranking_day_type) as [total|]; [|by apply yields_inv in H].
  destruct (if ranking_day_type =? 20 then _ else _) as [maps|] eqn:Hm;
    cbn [lift] in H; [|by apply yields_inv in H].
  apply yields_inv in H as [g H].
  apply (detail_loop_yields P) in H as [(dl' & HF & Hlen & H)|[e [=]]]; [| |done].
  2:{ intros; eapply HP; eauto. }
  apply yields_inv in H as [_ H]. unfold io_step in H.
  apply yields_inv in H as [r H].
  destruct r as [| | | | |[e|]]; apply yields_inv in H; try done.
  injection H as <-. split; [done|]. simpl in *. lia.
Qed.

(** C8: when the sibling ladders are merged (every ranking day type but
    20), each record of the fan-out output carries, for a ladder A, B or C
    in which its player has no summary, the value [None] (not [0]) as
    that ladder's score and rank. *)
Theorem absent_sibling_score_is_None ranking_day_type info dl :
  ranking_day_type <> 20 ->
  yields (phase2 ranking_day_type info) (Ret (Details dl)) ->
  Forall (absent_is_None info) dl.
Proof.
  intros Hday H.
  apply (phase2_yields (absent_is_None info)) in H as [H _]; [done|].
  intros maps result r' Hm _ Hr.
  apply Z.eqb_neq in Hday. rewrite Hday in Hm, Hr.
  eapply merge_result_absent; eauto.
Qed.
End MulticatchFanout.

(** ** Concrete runs, and the harvest of catchgraderank.py *)

Section RunFacts.
Context {S T B : Type} (worker : T -> worker_prog S) (max_workers : nat).

Lemma run_after ls (c : config S T B) :
  Executor.runs worker max_workers ls c = true ->
  Executor.run worker max_workers ls c = Some (Executor.after worker max_workers ls c).
Proof.
  unfold Executor.runs, Executor.after.
  by destruct (Executor.run worker max_workers ls c).
Qed.

Lemma result_yields ls (c : config S T B) o :
  Executor.runs worker max_workers ls c = true ->
  result_of (Executor.after worker max_workers ls c) = Some o ->
  yields (main c) o.
Proof.
  intros Hr Ho. apply run_after in Hr.
  eapply run_yields; [exact Hr|].
  unfold result_of in Ho.
  destruct (main (Executor.after worker max_workers ls c)); try done.
  injection Ho as ->. constructor.
Qed.
End RunFacts.

Section GradeDedup.
Import Catchgraderank.

Lemma record_players_seen_once players : forall ids info ids' info',
  record_players players ids info = Ret (ids', info') ->
  seen_once ids info ->
  seen_once ids' info' /\ info `prefix_of` info'.
Proof.
  induction players as [|p players IH]; intros ids info ids' info' H Hinv;
    cbn [record_players] in H.
  { injection H as <- <-. done. }
  destruct (py_get p "player_id" (JStr "")) as [pid|]; [|done]. cbn [obind] in H.
  destruct (truthy pid); [|by eapply IH].
  destruct (py_hash pid) as [key|] eqn:Hk; [|done]. cbn [obind] in H.
  destruct (bool_decide (key ∈ ids)) eqn:Hin; [by eapply IH|].
  apply bool_decide_eq_false in Hin.
  destruct (py_get p "rank" (JStr "")) as [rk|]; [|done]. cbn [obind] in H.
  destruct (py_get p "point" (JNum 0)) as [pt|]; [|done]. cbn [obind] in H.
  apply IH in H as [Hinv' Hpre].
  - split; [done|]. etrans; [|exact Hpre]. by apply prefix_app_r.
  - destruct Hinv as [Hnd Hiff].
    assert (Hkey : omap summary_key
                     (info ++ [JDict [("player_id", pid); ("rank", rk); ("point", pt)]])
                   = omap summary_key info ++ [key]).
    { rewrite omap_app. f_equal. cbn. unfold summary_key. cbn. by rewrite Hk. }
    split.
    + rewrite Hkey. apply NoDup_app. split; [done|]. split; [|apply NoDup_singleton].
      intros k Hk1 Hk2. apply list_elem_of_singleton in Hk2. subst k.
      apply Hin, Hiff, Hk1.
    + intros k.
      rewrite Hkey, elem_of_app, list_elem_of_singleton, <- Hiff,
        elem_of_union, elem_of_singleton.
      tauto.
Qed.

Lemma gc_harvest_loop_yields {B} batch n :
  forall ids info (k : list json -> main_prog collector task B) o,
    seen_once ids info ->
    yields (harvest_loop batch n ids info k) o ->
    (exists ids' info', seen_once ids' info' /\ info `prefix_of` info' /\
                        yields (k info') o)
    \/ (exists e, o = Raise e).
Proof.
  induction n as [|n IH]; intros ids info k o Hinv H; cbn [harvest_loop] in H.
  { left. by exists ids, info. }
  apply yields_inv in H as [r H].
  destruct r as [i| | | | |]; try (apply yields_inv in H; eauto; fail).
  apply yields_inv in H as [g H].
  assert (Hraise : forall e, yields (raise_in_with (S:=collector) (T:=task) (B:=B) e) o ->
            (exists ids' info', seen_once ids' info' /\ info `prefix_of` info' /\
                                yields (k info') o)
            \/ (exists e, o = Raise e)).
  { intros e He. apply yields_inv in He as [_ He]. apply yields_inv in He. eauto. }
  assert (Hsweep : forall js p, 
            yields (cancel_loop js p) o -> yields p o).
  { induction js as [|j js IHjs]; intros p Hp; cbn [cancel_loop] in Hp; [done|].
    apply yields_inv in Hp as [_ Hp]. by apply IHjs. }
  destruct (futs g !! i) as [[[rank|pl] st]|]; eauto.
  destruct (gt_stop rank _).
  { apply Hsweep in H. by eapply IH. }
  destruct st as [|p|[result|e]|]; eauto.
  destruct (truthy result); [|by eapply IH].
  destruct (obind (py_iter result) _) as [[ids1 info1]|e] eqn:Hrec;
    cbn [lift_in_with] in H; eauto.
  destruct (py_iter result) as [players|]; [|done]. cbn [obind] in Hrec.
  apply record_players_seen_once in Hrec as [Hinv1 Hpre1]; [|done].
  cbn [fst snd] in H. apply IH in H as [(ids2 & info2 & ? & ? & ?)|?]; [|by right|done].
  left. exists ids2, info2. split; [done|]. split; [by etrans|done].
Qed.

(** The grade collector records an identity key at most once, and what
    is recorded is never replaced: the harvest goes on with a list whose
    keys are distinct. *)
Lemma grade_harvest_unique ranks o :
  yields (harvest ranks) o ->
  (exists players_basic_info,
     NoDup (omap summary_key players_basic_info) /\
     yields (after_harvest players_basic_info) o)
  \/ (exists e, o = Raise e).
Proof.
  unfold harvest. intros H. apply yields_inv in H as [g H].
  apply gc_harvest_loop_yields in H as [(ids & info & [Hnd _] & _ & H)|?];
    [left|by right|].
  - exists info. split; [done|]. by apply yields_inv in H as [_ H].
  - split; [constructor|]. intros k. cbn. by rewrite elem_of_empty, elem_of_nil.
Qed.
End GradeDedup.

(** ** C4, C6, C7 at their failing inputs; runs that witness C2, C3, C8 *)

(** A second way past the fail-fast of C1: [sys.exit(1)] in a worker
    thread only ends that future. The other queued probes are still run
    and still send their requests, before and after the main thread
    meets the exception. *)
Lemma sentinel_in_worker_does_not_stop_pool :
  Multicatch.runs closed_schedule closed_system = true /\
  result_of (Multicatch.after closed_schedule closed_system)
    = Some (Raise (SystemExit 1)) /\
  sent (Multicatch.after closed_schedule closed_system)
    = [(None, RankingReq 1 20); (Some 0%nat, RankingReq 1 20);
       (Some 1%nat, RankingReq 27 20)].
Proof. repeat split; vm_compute; reflexivity. Qed.

(** C4 at the failing input: the page of rank 1 and the page of rank 27
    both hold the player K. [RankingDataCollector.collect_data] appends
    every entry (lines 280-285, no test), so the harvest it hands to the
    cache file holds K twice. *)
Theorem multicatch_keeps_both_summaries :
  Multicatch.runs overlap_schedule overlap_system = true /\
  io (Multicatch.after overlap_schedule overlap_system) !! 0%nat =
  Some ("ranking_cache",
        [JDict [("player_id", JStr "K"); ("rank", JNum 26); ("point", JNum 900)];
         JDict [("player_id", JStr "K"); ("rank", JNum 27); ("point", JNum 900)]]).
Proof. split; vm_compute; reflexivity. Qed.

(** The sibling collector, on the same two pages, keeps the first. *)
Lemma grade_keeps_first_summary :
  Catchgraderank.runs overlap_grade_schedule overlap_grade_system = true /\
  io (Catchgraderank.after overlap_grade_schedule overlap_grade_system) !! 1%nat =
  Some ("grade_cache",
        [JDict [("player_id", JStr "K"); ("rank", JNum 26); ("point", JNum 900)]]).
Proof. split; vm_compute; reflexivity. Qed.


(** C7 at the failing input: the grade ranking answers the liveness probe
    and then fails. Nothing is harvested, no profile is requested and no
    file is written, but [collect_data] ends with the [KeyError] of
    [sort_values] (line 265) instead of the return of line 278. *)
Theorem grade_zero_entities_raises :
  Catchgraderank.runs outage_schedule outage_system = true /\
  result_of (Catchgraderank.after outage_schedule outage_system)
    = Some (Raise (PyException "KeyError")) /\
  List.filter is_profile_request
    (sent (Catchgraderank.after outage_schedule outage_system)) = [] /\
  io (Catchgraderank.after outage_schedule outage_system) = [].
Proof. repeat split; vm_compute; reflexivity. Qed.

(** With nothing harvested the multi-stream collector returns at once. *)
Lemma multicatch_no_data_returns rdt types (info : Multicatch.info_map) :
  (forall rt, rt ∈ types -> default [] (info !! rt) = []) ->
  Multicatch.after_harvest rdt types info = Done (Ret Multicatch.NoData).
Proof.
  intros H. unfold Multicatch.after_harvest.
  destruct (existsb _ types) eqn:E; [|done].
  apply existsb_exists in E as (rt & Hin & Hrt).
  apply list_elem_of_In in Hin. specialize (H rt Hin).
  destruct (info !! rt) as [[|]|]; done.
Qed.

(** The detail fan-out returns at most one record per summary. *)
Lemma fanout_output_bounded rdt info dl :
  yields (Multicatch.phase2 rdt info) (Ret (Multicatch.Details dl)) ->
  (length dl <= length (default [] (info !! rdt)))%nat.
Proof.
  intros H. by apply (phase2_yields (fun _ => True)) in H as [_ H].
Qed.

Lemma absent_sibling_score_is_None_witness :
  21 <> 20 /\
  yields (Multicatch.phase2 21 fanout_info) (Ret (Multicatch.Details fanout_output)) /\
  Forall (absent_is_None fanout_info) fanout_output.
Proof.
  assert (Hy : yields (Multicatch.phase2 21 fanout_info)
                      (Ret (Multicatch.Details fanout_output))).
  { apply (result_yields Multicatch.worker 100%nat fanout_schedule fanout_system);
      vm_compute; reflexivity. }
  split; [done|]. split; [exact Hy|].
  apply (absent_sibling_score_is_None 21 fanout_info fanout_output); [done|exact Hy].
Defined.


(** * Further properties *)

(** ** [rank_utils.py]: the list of target ranks *)
Section RankTargets.

Lemma rank_targets_from_closed fuel : forall current_rank target_count,
  (current_rank <= target_count ->
   (target_count - current_rank) / 26 < Z.of_nat fuel) ->
  rank_targets_from fuel current_rank target_count =
    (fun k => current_rank + 26 * k) <$>
      seqZ 0 (if current_rank <=? target_count
              then (target_count - current_rank) / 26 + 1 else 0).
Proof.
  induction fuel as [|fuel IH]; intros cur target Hfuel; cbn [rank_targets_from].
  { destruct (cur <=? target) eqn:E; [|done].
    apply Z.leb_le in E. specialize (Hfuel E).
    pose proof (Z.div_pos (target - cur) 26). lia. }
  destruct (cur <=? target) eqn:E; [|done].
  apply Z.leb_le in E. specialize (Hfuel E).
  set (q := (target - cur) / 26) in *.
  assert (Hq : 0 <= q) by (apply Z.div_pos; lia).
  rewrite seqZ_cons by lia. cbn [fmap list_fmap].
  rewrite Z.mul_0_r, Z.add_0_r. f_equal.
  replace (Z.pred (q + 1)) with q by lia.
  rewrite IH.
  - replace (Z.succ 0) with (1 + 0) by lia.
    rewrite <- fmap_add_seqZ, <- list_fmap_compose.
    assert (Hdiv : (target - cur) = 26 * q + (target - cur) mod 26)
      by (apply Z.div_mod; lia).
    pose proof (Z.mod_pos_bound (target - cur) 26).
    destruct (cur + 26 <=? target) eqn:E2.
    + apply Z.leb_le in E2.
      replace ((target - (cur + 26)) / 26 + 1) with q.
      2:{ replace (target - (cur + 26)) with ((target - cur) + (-1) * 26) by lia.
          rewrite Z.div_add by lia. lia. }
      apply list_fmap_ext. intros _ k _. cbn. lia.
    + apply Z.leb_gt in E2. assert (q = 0) as -> by nia. done.
  - intros Hle.
    replace (target - (cur + 26)) with ((target - cur) + (-1) * 26) by lia.
    rewrite Z.div_add by lia. lia.
Qed.

Lemma generate_rank_targets_closed target_count :
  generate_rank_targets target_count =
    (fun k => 1 + 26 * k) <$> seqZ 0 ((target_count + 25) / 26).
Proof.
  unfold generate_rank_targets. rewrite rank_targets_from_closed.
  - destruct (1 <=? target_count) eqn:E.
    + apply Z.leb_le in E.
      replace (target_count + 25) with ((target_count - 1) + 1 * 26) by lia.
      by rewrite Z.div_add by lia.
    + apply Z.leb_gt in E.
      assert ((target_count + 25) / 26 <= 0) as Hle.
      { enough ((target_count + 25) / 26 < 1) by lia.
        apply Z.div_lt_upper_bound; lia. }
      rewrite (seqZ_nil 0 ((target_count + 25) / 26)) by lia. done.
  - intros Hle. rewrite Z2Nat.id by lia.
    apply Z.div_lt_upper_bound; lia.
Qed.

Lemma page_starts_increasing (R : relation Z) len :
  (forall x y, x < y -> R x y) ->
  forall m, StronglySorted R ((fun k => 1 + 26 * k) <$> seqZ m (Z.of_nat len)).
Proof.
  intros HR. induction len as [|len IH]; intros m.
  { rewrite seqZ_nil by lia. constructor. }
  rewrite seqZ_cons by lia. cbn [fmap list_fmap].
  replace (Z.pred (Z.of_nat (Datatypes.S len))) with (Z.of_nat len) by lia.
  constructor; [apply IH|].
  apply Forall_fmap, Forall_seqZ. intros k Hk. cbn. apply HR. lia.
Qed.

(** X1: [generate_rank_targets(n)] is the list 1, 27, 53, ... of the
    numbers 1 + 26k that do not exceed [n], in increasing order: it has
    ceil(n / 26) elements, and none when [n] is below 1. *)
Theorem rank_targets_are_page_starts target_count :
  (forall r, r ∈ generate_rank_targets target_count <->
             exists k, 0 <= k /\ r = 1 + 26 * k /\ r <= target_count) /\
  StronglySorted Z.lt (generate_rank_targets target_count) /\
  Z.of_nat (length (generate_rank_targets target_count))
    = Z.max 0 ((target_count + 25) / 26) /\
  (target_count < 1 -> generate_rank_targets target_count = []).
Proof.
  rewrite generate_rank_targets_closed.
  set (n := (target_count + 25) / 26).
  assert (Hn : forall k, k < n <-> 1 + 26 * k <= target_count).
  { intros k. unfold n. split; intros H.
    - assert (k + 1 <= (target_count + 25) / 26) as H' by lia.
      apply (Z.mul_le_mono_nonneg_l _ _ 26) in H'; [|lia].
      pose proof (Z.mul_div_le (target_count + 25) 26). lia.
    - enough (k + 1 <= (target_count + 25) / 26) by lia.
      apply Z.div_le_lower_bound; lia. }
  repeat split.
  - intros (k & -> & Hk)%list_elem_of_fmap. apply elem_of_seqZ in Hk.
    exists k. split; [lia|]. split; [done|]. apply Hn. lia.
  - intros (k & Hk & -> & Hle). apply list_elem_of_fmap. exists k.
    split; [done|]. apply elem_of_seqZ. apply Hn in Hle. lia.
  - destruct (Z.le_gt_cases n 0) as [Hle|Hgt].
    + rewrite seqZ_nil by done. constructor.
    + rewrite <- (Z2Nat.id n) by lia. by apply page_starts_increasing.
  - rewrite length_fmap, length_seqZ. lia.
  - intros Hlt. rewrite seqZ_nil; [done|].
    destruct (Z.le_gt_cases n 0) as [|Hgt]; [done|].
    assert (0 < n) as H0%Hn by lia. lia.
Qed.

Lemma rank_targets_are_page_starts_witness :
  (27 ∈ generate_rank_targets 53 <->
   exists k, 0 <= k /\ 27 = 1 + 26 * k /\ 27 <= 53) /\
  Z.of_nat (length (generate_rank_targets 53)) = Z.max 0 ((53 + 25) / 26) /\
  (0 < 1 -> generate_rank_targets 0 = []).
Proof.
  split; [apply (proj1 (rank_targets_are_page_starts 53) 27)|].
  split; [apply (proj1 (proj2 (proj2 (rank_targets_are_page_starts 53))))|].
  apply (proj2 (proj2 (proj2 (rank_targets_are_page_starts 0)))).
Defined.

(** X2: every rank from 1 to [target_count] lies on the page of 26
    entries that starts at one of the generated targets. *)
Theorem rank_targets_cover_every_rank target_count r :
  1 <= r <= target_count ->
  exists t, t ∈ generate_rank_targets target_count /\ t <= r < t + 26.
Proof.
  intros Hr. rewrite generate_rank_targets_closed.
  set (k := (r - 1) / 26).
  assert (Hk : 26 * k <= r - 1 < 26 * k + 26).
  { pose proof (Z.mul_div_le (r - 1) 26).
    pose proof (Z.mul_succ_div_gt (r - 1) 26). unfold k. lia. }
  assert (0 <= k) by (apply Z.div_pos; lia).
  exists (1 + 26 * k). split; [|lia].
  apply list_elem_of_fmap. exists k. split; [done|].
  apply elem_of_seqZ. split; [lia|].
  enough (k + 1 <= (target_count + 25) / 26) by lia.
  apply Z.div_le_lower_bound; lia.
Qed.

Lemma rank_targets_cover_every_rank_witness :
  1 <= 30 <= 53 /\
  exists t, t ∈ generate_rank_targets 53 /\ t <= 30 < t + 26.
Proof.
  split; [lia|]. apply (rank_targets_cover_every_rank 53 30). lia.
Defined.

(** X3: the generated targets are already in the order in which
    [collect_data] submits them: [sorted(self.target_ranks)] returns the
    list unchanged, in both collectors. *)
Theorem rank_targets_submitted_as_generated target_count :
  Multicatch.sorted (generate_rank_targets target_count)
    = generate_rank_targets target_count /\
  Catchgraderank.sorted (generate_rank_targets target_count)
    = generate_rank_targets target_count.
Proof.
  assert (Hs : Sorted Z.le (generate_rank_targets target_count)).
  { rewrite generate_rank_targets_closed.
    set (n := (target_count + 25) / 26).
    apply StronglySorted_Sorted.
    destruct (Z.le_gt_cases n 0) as [Hle|Hgt].
    - rewrite seqZ_nil by done. constructor.
    - rewrite <- (Z2Nat.id n) by lia.
      apply page_starts_increasing. intros x y. apply Z.lt_le_incl. }
  assert (H : merge_sort Z.le (generate_rank_targets target_count)
              = generate_rank_targets target_count).
  { apply (Sorted_unique Z.le); [apply Sorted_merge_sort; apply _|done|].
    apply merge_sort_Permutation. }
  split; exact H.
Qed.

End RankTargets.
(** ** [utils.py]: more on the retrying wrapper *)
Section RetryMore.
Context {S : Type} (m d : nat).

Lemma succeeds_try_body o v last :
  succeeds_with o v -> try_body o last = AReturn v.
Proof.
  intros [[-> Hv]|(r & -> & H200 & Hb & Hs)].
  - destruct v; done.
  - unfold try_body, response_json. rewrite Hb. cbn [obind].
    unfold check_sentinel. rewrite Hs. cbn [except_Exception].
    by rewrite H200.
Qed.

Lemma retry_loop_recovers os1 : forall fuel retries last o v rest (s : S),
  (retries + fuel = m)%nat ->
  (length os1 < fuel)%nat ->
  Forall (fun o => fails o = true) os1 ->
  succeeds_with o v ->
  exec (retry_loop m d fuel retries last) (os1 ++ o :: rest) s =
  Some (Ret v, s, attempts_trace d retries (Datatypes.S (length os1))).
Proof.
  induction os1 as [|o1 os1 IH]; intros fuel retries last o v rest s Hm Hlen Hall Hv.
  - destruct fuel as [|fuel]; [simpl in Hlen; lia|].
    assert (Hlt : (retries <? m)%nat = true) by (apply Nat.ltb_lt; lia).
    cbn [retry_loop app]. rewrite Hlt. cbn [negb exec].
    by rewrite (succeeds_try_body _ _ _ Hv).
  - destruct fuel as [|fuel]; [simpl in Hlen; lia|].
    cbn [length] in Hlen.
    assert (Hlt : (retries <? m)%nat = true) by (apply Nat.ltb_lt; lia).
    assert (Hne : (Datatypes.S retries =? m)%nat = false) by (apply Nat.eqb_neq; lia).
    apply Forall_cons in Hall as [Hf Hall].
    destruct (fails_try_body o1 last Hf) as (e & last' & Ht & He).
    cbn [retry_loop app]. rewrite Hlt. cbn [negb exec]. rewrite Ht.
    destruct e as [code|msg response|kind]; [done| |].
    + destruct (recover_body_ret response last') as [l ->]. cbn [lift].
      rewrite Hne. cbn [exec].
      rewrite (IH fuel (Datatypes.S retries) l o v rest s) by (lia || done).
      reflexivity.
    + rewrite Hne. cbn [exec].
      rewrite (IH fuel (Datatypes.S retries) last' o v rest s) by (lia || done).
      reflexivity.
Qed.
End RetryMore.

(** X4: failures before a success are invisible in the result. When
    fewer than 3 calls in a row fail and the next one ends well with [v],
    the wrapper returns [v], leaves the shared state alone, calls the
    function once more than it failed and sleeps 1 and then 2 time units
    between the calls. *)
Theorem retry_request_returns_first_success (S : Type)
  (os1 : list (outcome pyval)) o v rest (s : S) :
  (length os1 < 3)%nat ->
  Forall (fun o => fails o = true) os1 ->
  succeeds_with o v ->
  exec (wrapper 3 1) (os1 ++ o :: rest) s =
  Some (Ret v, s,
        match os1 with
        | [] => [Sent tt]
        | [_] => [Sent tt; Slept 1; Sent tt]
        | _ => [Sent tt; Slept 1; Sent tt; Slept 2; Sent tt]
        end).
Proof.
  intros Hlen Hall Hv. unfold wrapper.
  rewrite (retry_loop_recovers 3 1 os1 3 0 None o v rest s) by (done || lia).
  destruct os1 as [|? [|? [|? ?]]]; try reflexivity. simpl in Hlen. lia.
Qed.

Lemma retry_request_returns_first_success_witness :
  let down := Ret (VResp {| status_code := 503; body := Raw "busy" |}) in
  let up := Ret (VResp {| status_code := 200; body := Doc (JList []) |}) in
  (length [down; down] < 3)%nat /\
  Forall (fun o => fails o = true) [down; down] /\
  succeeds_with up (JList []) /\
  exec (S:=unit) (wrapper 3 1) ([down; down] ++ up :: []) tt =
  Some (Ret (JList []), tt, [Sent tt; Slept 1; Sent tt; Slept 2; Sent tt]).
Proof.
  intros down up.
  assert (H1 : (length [down; down] < 3)%nat) by (simpl; lia).
  assert (H2 : Forall (fun o => fails o = true) [down; down])
    by (repeat constructor).
  assert (H3 : succeeds_with up (JList [])).
  { right. eexists. repeat split; reflexivity. }
  split; [exact H1|]. split; [exact H2|]. split; [exact H3|].
  exact (retry_request_returns_first_success unit [down; down] up (JList []) [] tt
           H1 H2 H3).
Defined.

(** X5: what the wrapper counts as a failed attempt, to be retried: the
    call raised an [Exception]; or it returned [None]; or it returned a
    response whose body is not JSON (whatever the status, 200 included);
    or a response of a status other than 200 whose body does not carry
    the "event not active" code. Nothing else is retried. *)
Theorem failed_attempts_characterised (o : outcome pyval) :
  fails o = true <-> failed_call o.
Proof.
  unfold fails, failed_call, try_body. split.
  - destruct o as [[r|j]|e].
    + unfold response_json. destruct (body r) as [j|s] eqn:Hb.
      * cbn [obind]. unfold check_sentinel.
        destruct (is_sentinel j) eqn:Hs; [done|]. cbn [except_Exception].
        destruct (status_code r =? 200) eqn:H200; [done|].
        intros _. right; right; right. exists r, j.
        apply Z.eqb_neq in H200. done.
      * intros _. right; right; left. by exists r, s.
    + destruct j; try done. intros _. right; left. done.
    + intros He. left. by exists e.
  - intros [(e & -> & He)|[->|[(r & s & -> & Hb)|(r & j & -> & Hb & Hs & H200)]]].
    + done.
    + done.
    + unfold response_json. rewrite Hb. cbn [obind except_Exception is_Exception].
      destruct (status_code r =? 200); reflexivity.
    + unfold response_json. rewrite Hb. cbn [obind].
      unfold check_sentinel. rewrite Hs. cbn [except_Exception].
      apply Z.eqb_neq in H200. rewrite H200. reflexivity.
Qed.
(** ** [utils.py]: the columns of a player record *)
Section ProfileColumns.

Lemma build_player_data_explicit player_info player_id ill result r :
  build_player_data player_info player_id ill result = Ret r ->
  exists pn sg gn dr ranked login (levels : list (Z * json)) total total104,
    levels.*1 = CHARACTER_NAMES.*1 /\
    (if is_dict player_info
     then exists rk pt, py_get player_info "rank" (JStr "") = Ret rk /\
                        py_get player_info "point" (JNum 0) = Ret pt /\
                        ranked = [("rank", rk); ("point", pt)]
     else ranked = []) /\
    (if ill then exists ld, login = [("最后登录时间", ld)] else login = []) /\
    r = JDict ([("player_id", player_id); ("player_name", pn);
                ("search_guild_key", sg); ("guild_name", gn); ("DR数量", dr)]
               ++ ranked ++ login
               ++ zip CHARACTER_NAMES.*2 levels.*2
               ++ [("季度等级", JNum total); ("104季度等级", JNum total104)]).
Proof.
  unfold build_player_data. intros H.
  destruct (py_get result "profile_info" (JDict [])) as [profile_data|]; [|done].
  cbn [obind] in *.
  destruct (py_get profile_data "fan_level_list" (JList [])) as [fl|]; [|done].
  cbn [obind] in *.
  destruct (py_get profile_data "player_name" (JStr "")) as [pn|]; [|done].
  destruct (py_get profile_data "search_guild_key" (JStr "")) as [sg|]; [|done].
  destruct (py_get profile_data "guild_name" (JStr "")) as [gn|]; [|done].
  destruct (py_get profile_data "dream_style_num" (JNum 0)) as [dr|]; [|done].
  cbn [obind] in H.
  set (base := [("player_id", player_id); _; _; _; _]) in H.
  destruct (if is_dict player_info then _ else Ret base) as [pd1|] eqn:E1; [|done].
  cbn [obind] in H.
  destruct (if ill then _ else Ret pd1) as [pd2|] eqn:E2; [|done].
  cbn [obind] in H.
  destruct (py_iter fl) as [fans|]; [|done]. cbn [obind] in H.
  destruct (update_levels fans _) as [levels|] eqn:Eu; [|done]. cbn [obind] in H.
  destruct (py_sum levels.*2) as [total|]; [|done]. cbn [obind] in H.
  destruct (py_sum (List.filter _ levels).*2) as [total104|]; [|done].
  cbn [obind] in H.
  pose proof (update_levels_keys _ _ _ Eu) as Hk. clear Eu.
  exists pn, sg, gn, dr.
  exists (if is_dict player_info
          then match py_get player_info "rank" (JStr ""),
                     py_get player_info "point" (JNum 0) with
               | Ret rk, Ret pt => [("rank", rk); ("point", pt)]
               | _, _ => []
               end
          else []).
  exists (if ill
          then match py_get profile_data "last_login_date" (JStr "") with
               | Ret ld => [("最后登录时间", ld)]
               | _ => []
               end
          else []).
  exists levels, total, total104.
  split; [exact Hk|].
  repeat (destruct levels as [|[? ?] levels]; [discriminate|]).
  destruct levels; [|discriminate].
  injection Hk as -> -> -> -> -> -> -> -> -> -> ->.
  destruct (is_dict player_info).
  - destruct (py_get player_info "rank" (JStr "")) as [rk|]; [|done].
    destruct (py_get player_info "point" (JNum 0)) as [pt|]; [|done].
    cbn [obind] in E1. injection E1 as <-.
    split; [by exists rk, pt|].
    destruct ill.
    + destruct (py_get profile_data "last_login_date" (JStr "")) as [ld|]; [|done].
      cbn [obind] in E2. injection E2 as <-.
      split; [by exists ld|].
      vm_compute in H. injection H as <-. reflexivity.
    + injection E2 as <-. split; [done|].
      vm_compute in H. injection H as <-. reflexivity.
  - injection E1 as <-. split; [done|].
    destruct ill.
    + destruct (py_get profile_data "last_login_date" (JStr "")) as [ld|]; [|done].
      cbn [obind] in E2. injection E2 as <-.
      split; [by exists ld|].
      vm_compute in H. injection H as <-. reflexivity.
    + injection E2 as <-. split; [done|].
      vm_compute in H. injection H as <-. reflexivity.
Qed.

(** X6: the record that [fetch_player_profile] builds always has the same
    columns in the same order: the five identity columns, then [rank]
    and [point] when the argument is a ranking summary (taken from the
    summary, with the defaults [""] and [0]), then the login date when it
    is asked for, then the eleven characters in the order of
    [CHARACTER_NAMES], then the two totals. *)
Theorem player_record_columns (S : Type) player_info include_last_login d :
  yields (fetch_player_profile (S:=S) player_info include_last_login)
         (Ret (JDict d)) ->
  assoc "error_code" d = None ->
  d.*1 = ["player_id"; "player_name"; "search_guild_key"; "guild_name"; "DR数量"]
         ++ (if is_dict player_info then ["rank"; "point"] else [])
         ++ (if include_last_login then ["最后登录时间"] else [])
         ++ CHARACTER_NAMES.*2 ++ ["季度等级"; "104季度等级"] /\
  (is_dict player_info = true ->
   py_item player_info "player_id" = Ret (default JNull (assoc "player_id" d)) /\
   py_get player_info "rank" (JStr "") = Ret (default JNull (assoc "rank" d)) /\
   py_get player_info "point" (JNum 0) = Ret (default JNull (assoc "point" d))) /\
  (is_dict player_info = false -> assoc "player_id" d = Some player_info).
Proof.
  intros Hy Herr. unfold fetch_player_profile in Hy.
  destruct (if is_dict player_info then _ else _) as [player_id|e] eqn:Eid;
    cbn [lift] in Hy.
  2:{ apply yields_done_inv in Hy. done. }
  apply yields_on_finish in Hy as ([result|e] & _ & Hy).
  2:{ apply yields_done_inv in Hy. done. }
  destruct (has_key "error_code" result) eqn:He.
  { apply yields_done_inv in Hy as [= <-]. cbn in He. by rewrite Herr in He. }
  destruct (truthy result); apply yields_done_inv in Hy; [|done].
  symmetry in Hy.
  apply build_player_data_explicit in Hy
    as (pn & sg & gn & dr & ranked & login & levels & total & total104
        & Hk & Hranked & Hlogin & Hd).
  injection Hd as ->. clear Herr.
  repeat (destruct levels as [|[? ?] levels]; [discriminate|]).
  destruct levels; [|discriminate].
  destruct (is_dict player_info).
  - destruct Hranked as (rk & pt & Hrk & Hpt & ->).
    split; [|split; [intros _|done]].
    + destruct include_last_login; [destruct Hlogin as [ld ->]|subst login];
        reflexivity.
    + rewrite Eid, Hrk, Hpt. done.
  - subst ranked. injection Eid as <-.
    split; [|split; [done|intros _; reflexivity]].
    destruct include_last_login; [destruct Hlogin as [ld ->]|subst login];
      reflexivity.
Qed.

Lemma player_record_columns_witness :
  yields (fetch_player_profile (S:=unit) sample_player false)
         (Ret (JDict sample_record)) /\
  assoc "error_code" sample_record = None /\
  sample_record.*1 =
    ["player_id"; "player_name"; "search_guild_key"; "guild_name"; "DR数量";
     "rank"; "point";
     "花帆"; "さやか"; "瑠璃乃"; "梢"; "缀理"; "慈"; "吟子"; "小铃"; "姬芽";
     "泉"; "塞拉斯"; "季度等级"; "104季度等级"].
Proof.
  split; [eapply (exec_yields _ [sample_profile_reply] tt); reflexivity|].
  split; [reflexivity|].
  apply (player_record_columns unit sample_player false sample_record).
  - eapply (exec_yields _ [sample_profile_reply] tt). reflexivity.
  - reflexivity.
Defined.
End ProfileColumns.
(** ** Requests and files: what a run can ask for *)

Lemma obeys_inv {X Q Rp A} (R : X -> X -> Prop) (P : Q -> Prop) cost n
  (p : prog X Q Rp A) :
  obeys R P cost n p ->
  match p with
  | Done _ => True
  | Atomic act k => (forall s, R (act s) s) /\ (forall s, obeys R P cost n (k s))
  | Ask q k =>
      exists n', P q /\ (cost q + n' <= n)%nat /\ (forall r, obeys R P cost n' (k r))
  | Sleep d k => obeys R P cost n k
  end.
Proof. destruct 1; eauto. Qed.

Lemma obeys_mono {X Q Rp A} (R : X -> X -> Prop) (P : Q -> Prop) cost n m
  (p : prog X Q Rp A) :
  (n <= m)%nat -> obeys R P cost n p -> obeys R P cost m p.
Proof.
  intros Hle H. revert m Hle.
  induction H as [n o|n act k Hact Hk IH|n n' q k HP Hc Hk IH|n d k Hk IH];
    intros m Hle.
  - constructor.
  - constructor; [done|]. intros s. by apply IH.
  - apply (ob_ask _ _ _ m n'); [done|lia|done].
  - constructor. by apply IH.
Qed.

Lemma obeys_on_finish {X Q Rp A B} (R : X -> X -> Prop) (P : Q -> Prop) cost a b
  (p : prog X Q Rp A) (f : outcome A -> prog X Q Rp B) :
  obeys R P cost a p -> (forall o, obeys R P cost b (f o)) ->
  obeys R P cost (a + b) (on_finish p f).
Proof.
  intros H Hf.
  induction H as [n o|n act k Hact Hk IH|n n' q k HP Hc Hk IH|n d k Hk IH];
    cbn [on_finish].
  - apply (obeys_mono _ _ _ b); [lia|apply Hf].
  - constructor; [done|]. intros s. apply IH.
  - apply (ob_ask _ _ _ (n + b) (n' + b)); [done|lia|]. intros r. apply IH.
  - constructor. apply IH.
Qed.

Lemma obeys_bind {X Q Rp A B} (R : X -> X -> Prop) (P : Q -> Prop) cost a b
  (p : prog X Q Rp A) (f : A -> prog X Q Rp B) :
  obeys R P cost a p -> (forall x, obeys R P cost b (f x)) ->
  obeys R P cost (a + b) (bind p f).
Proof.
  intros H Hf. apply obeys_on_finish; [done|].
  intros [x|e]; [apply Hf|constructor].
Qed.

Lemma obeys_lift {X Q Rp A B} (R : X -> X -> Prop) (P : Q -> Prop) cost n
  (o : outcome A) (f : A -> prog X Q Rp B) :
  (forall x, o = Ret x -> obeys R P cost n (f x)) -> obeys R P cost n (lift o f).
Proof. intros Hf. destruct o as [x|e]; cbn [lift]; [by apply Hf|constructor]. Qed.

(** The wrapper calls the wrapped function [a] times at most; each call
    asks within [b]. *)
Lemma obeys_link {X Q Rp A B} (R : X -> X -> Prop) (P : Q -> Prop) cost a b
  (w : prog X unit (outcome B) A) (f : prog X Q Rp B) :
  obeys R (fun _ => True) (fun _ => 1%nat) a w -> obeys R P cost b f ->
  obeys R P cost (a * b) (link w f).
Proof.
  intros H Hf.
  induction H as [n o|n act k Hact Hk IH|n n' q k HP Hc Hk IH|n d k Hk IH];
    cbn [link].
  - constructor.
  - constructor; [done|]. intros s. apply IH.
  - apply (obeys_mono _ _ _ (b + n' * b)); [nia|].
    apply obeys_on_finish; [done|]. intros o. apply IH.
  - constructor. apply IH.
Qed.

Lemma retry_loop_obeys {X} (R : X -> X -> Prop) m d fuel :
  forall retries last,
    obeys R (fun _ => True) (fun _ => 1%nat) fuel
          (retry_loop (S:=X) m d fuel retries last).
Proof.
  induction fuel as [|fuel IH]; intros retries last; cbn [retry_loop];
    [constructor|].
  destruct (negb _); [constructor|].
  apply (ob_ask _ _ _ (Datatypes.S fuel) fuel); [done|lia|]. intros o.
  assert (Hnext : forall retries' last',
    obeys R (fun _ => True) (fun _ => 1%nat) fuel
      (if (retries' =? m)%nat then Done (Ret JNull)
       else Sleep (wait_time d retries') (retry_loop m d fuel retries' last'))).
  { intros retries' last'. destruct (_ =? _)%nat; [constructor|].
    constructor. apply IH. }
  destruct (try_body o last) as [v|[code|msg response|kind] last'];
    [constructor|constructor| |apply Hnext].
  apply obeys_lift. intros l _. cbn zeta.
  destruct (_ =? _)%nat eqn:E; [|constructor; apply IH].
  apply obeys_lift. intros _ _. constructor.
Qed.

(** A decorated function sends three times what its body sends, at
    most. *)
Lemma retry_request_obeys {X Q Rp} (R : X -> X -> Prop) (P : Q -> Prop) cost b
  (func : prog X Q Rp pyval) :
  obeys R P cost b func -> obeys R P cost (3 * b) (retry_request func).
Proof. intros Hf. apply obeys_link; [apply retry_loop_obeys|done]. Qed.

Section ConfineFacts.
Context {S T B : Type}.
Variable worker : T -> worker_prog S.
Variable max_workers : nat.
Variable allowed : T -> Prop.
Variable Pw : T -> request -> Prop.
Variable Pm : main_query -> Prop.
Variable budget : nat.
Hypothesis worker_obeys : forall t,
  allowed t -> obeys (fun _ _ => True) (Pw t) worker_cost budget (worker t).
Implicit Types c : config S T B.

Local Abbreviation confined' := (confined (B:=B) allowed Pw Pm budget).
Local Abbreviation wc := (worker_confined (S:=S) allowed Pw budget).

Lemma sent_by_snoc i who q (l : list (option nat * request)) :
  snd <$> List.filter (fun e => bool_decide (fst e = Some i)) (l ++ [(who, q)]) =
  (snd <$> List.filter (fun e => bool_decide (fst e = Some i)) l) ++
  (if bool_decide (who = Some i) then [q] else []).
Proof.
  rewrite List.filter_app, fmap_app. cbn [List.filter fst].
  by destruct (bool_decide (who = Some i)).
Qed.

Lemma main_sent_snoc who q (l : list (option nat * request)) :
  snd <$> List.filter (fun e => bool_decide (fst e = None)) (l ++ [(who, q)]) =
  (snd <$> List.filter (fun e => bool_decide (fst e = None)) l) ++
  (if bool_decide (who = None) then [q] else []).
Proof.
  rewrite List.filter_app, fmap_app. cbn [List.filter fst].
  by destruct (bool_decide (who = None)).
Qed.

Lemma no_sender_sent_nothing c i :
  (forall j q, (Some j, q) ∈ sent c -> is_Some (futs (the_pool c) !! j)) ->
  futs (the_pool c) !! i = None -> sent_by i c = [].
Proof.
  intros Hs Hi. unfold sent_by.
  rewrite filter_none; [done|].
  intros [who q] Hin. apply bool_decide_eq_false. cbn. intros ->.
  apply Hs in Hin. rewrite Hi in Hin. by destruct Hin.
Qed.

Lemma wc_keep qs t st st' :
  wc qs t st -> st <> Pending ->
  match st' with
  | Pending => False
  | Running p =>
      exists n, obeys (fun _ _ => True) (Pw t) worker_cost n p /\
                (length qs + n <= budget)%nat
  | _ => (length qs <= budget)%nat
  end ->
  wc qs t st'.
Proof.
  intros (Ha & HP & _) _ Hst'. split; [done|]. split; [done|].
  destruct st'; done.
Qed.

Lemma wc_length qs t st : wc qs t st -> (length qs <= budget)%nat.
Proof.
  intros (_ & _ & H). destruct st as [|p|o|]; [subst; simpl; lia| |done|done].
  destruct H as (n & _ & ?). lia.
Qed.

Lemma step_confined l c c' :
  confined' c -> step worker max_workers l c = Some c' -> confined' c'.
Proof.
  intros (Hw & Hs & Hm & Hms & Hio) Hstep.
  destruct l as [i|i|i r| |r]; cbn [step] in Hstep.
  - (* Start *)
    unfold step_start in Hstep.
    destruct (futs (the_pool c) !! i) as [[t [| | |]]|] eqn:Hi; try done.
    destruct (_ <? _)%nat; [|done]. injection Hstep as <-.
    split; [|split; [|done]].
    + intros j t' st'. cbn [the_pool with_pool]. rewrite lookup_with_fut.
      unfold sent_by. cbn [sent with_pool].
      destruct (decide (i = j)) as [<-|]; [|apply Hw].
      rewrite Hi. cbn. intros [= <- <-].
      destruct (Hw _ _ _ Hi) as (Ha & HP & Hq). unfold sent_by in Hq.
      split; [done|]. split; [by rewrite Hq|].
      exists budget. split; [by apply worker_obeys|]. rewrite Hq. simpl. lia.
    + intros j q Hin. cbn [the_pool with_pool sent] in *. rewrite lookup_with_fut.
      destruct (decide (i = j)) as [<-|]; [|by eapply Hs].
      rewrite Hi. by eexists.
  - (* Work *)
    unfold step_work in Hstep.
    destruct (futs (the_pool c) !! i) as [[t [|p| |]]|] eqn:Hi; try done.
    assert (Hgo : forall st' g,
      futs g = futs (the_pool c) ->
      match st' with
      | Pending => False
      | Running p' =>
          forall n, obeys (fun _ _ => True) (Pw t) worker_cost n p ->
                    obeys (fun _ _ => True) (Pw t) worker_cost n p'
      | _ => True
      end ->
      confined' (with_pool (with_fut i st' g) c)).
    { intros st' g Hg Hst'. split; [|split; [|done]].
      - intros j t' st1. cbn [the_pool with_pool]. rewrite lookup_with_fut, Hg.
        unfold sent_by. cbn [sent with_pool].
        destruct (decide (i = j)) as [<-|]; [|apply Hw].
        rewrite Hi. cbn. intros [= <- <-].
        pose proof (Hw _ _ _ Hi) as Hwi.
        apply (wc_keep _ _ _ _ Hwi); [done|].
        destruct Hwi as (_ & _ & n & Hn & Hlen).
        destruct st'; [done| |lia|lia]. exists n. split; [by apply Hst'|done].
      - intros j q Hin. cbn [the_pool with_pool sent] in *.
        rewrite lookup_with_fut, Hg.
        destruct (decide (i = j)) as [<-|]; [|by eapply Hs].
        rewrite Hi. by eexists. }
    destruct p as [o|act k|q k|d k]; [| |done|]; injection Hstep as <-.
    + by apply Hgo.
    + apply Hgo; [done|]. intros n Hn. apply obeys_inv in Hn as [_ Hk]. apply Hk.
    + apply Hgo; [done|]. intros n Hn. by apply obeys_inv in Hn.
  - (* Deliver *)
    unfold step_deliver in Hstep.
    destruct (futs (the_pool c) !! i) as [[t [|[o|act k|q k|d k]| |]]|] eqn:Hi;
      try done.
    injection Hstep as <-.
    destruct (Hw _ _ _ Hi) as (Ha & HP & n & Hn & Hlen).
    apply obeys_inv in Hn as (n' & Hq & Hc & Hk). unfold worker_cost in Hc.
    split; [|split; [|split; [|split]]].
    + intros j t' st'. cbn [the_pool with_pool log_sent]. rewrite lookup_with_fut.
      unfold sent_by. cbn [sent log_sent with_pool]. rewrite sent_by_snoc.
      destruct (decide (i = j)) as [<-|Hne].
      * rewrite Hi. cbn. intros [= <- <-].
        rewrite bool_decide_eq_true_2 by done.
        split; [done|]. split; [apply Forall_app; by repeat constructor|].
        exists n'. split; [apply Hk|]. rewrite length_app. simpl.
        unfold sent_by in Hlen. lia.
      * rewrite bool_decide_eq_false_2 by congruence. rewrite app_nil_r. apply Hw.
    + intros j q' Hin. cbn [the_pool with_pool log_sent sent] in *.
      rewrite lookup_with_fut.
      apply elem_of_app in Hin as [Hin|Hin].
      * destruct (decide (i = j)) as [<-|]; [|by eapply Hs].
        rewrite Hi. by eexists.
      * apply list_elem_of_singleton in Hin. injection Hin as -> ->.
        rewrite decide_True by done. rewrite Hi. by eexists.
    + unfold main_sent. cbn [main sent log_sent with_pool]. rewrite main_sent_snoc.
      rewrite bool_decide_eq_false_2 by done. by rewrite app_nil_r.
    + unfold main_sent. cbn [sent log_sent with_pool]. rewrite main_sent_snoc.
      rewrite bool_decide_eq_false_2 by done. by rewrite app_nil_r.
    + done.
  - (* MainStep *)
    unfold step_main in Hstep. destruct Hm as (n & Hn & Hlen).
    destruct (main c) as [o|act k|q k|d k] eqn:Hmain; try done;
      apply obeys_inv in Hn; injection Hstep as <-.
    + destruct Hn as [Hact Hk].
      destruct (Hact (the_pool c)) as (old' & new & Hf & H2 & Hnew).
      pose proof (Forall2_length _ _ _ H2) as Hl.
      split; [|split; [|split; [|done]]].
      * intros j t st Hj. cbn [the_pool with_pool with_main] in Hj.
        unfold sent_by. cbn [sent with_pool with_main].
        rewrite Hf in Hj.
        destruct (decide (j < length old')%nat) as [Hlt|Hge].
        -- rewrite lookup_app_l in Hj by done.
           destruct (Forall2_lookup_r _ _ _ _ _ H2 Hj) as ([t0 st0] & Hj0 & Ht & Hst).
           cbn in Ht, Hst. subst t0. pose proof (Hw _ _ _ Hj0) as Hw0.
           destruct Hst as [->|[-> ->]]; [done|].
           destruct Hw0 as (Ha & HP & Hq). unfold sent_by in Hq.
           split; [done|]. split; [by rewrite Hq|]. rewrite Hq. simpl. lia.
        -- rewrite lookup_app_r in Hj by lia.
           apply (Forall_lookup_1 _ _ _ _ Hnew) in Hj. cbn in Hj.
           destruct Hj as [-> Ha].
           assert (Hq : sent_by j c = []).
           { apply no_sender_sent_nothing; [done|].
             apply lookup_ge_None. lia. }
           unfold sent_by in Hq. rewrite Hq. split; [done|]. split; done.
      * intros j q Hin. cbn [the_pool with_pool with_main sent] in *.
        destruct (Hs j q Hin) as [f Hj]. apply lookup_lt_Some in Hj.
        apply lookup_lt_is_Some. rewrite Hf, length_app. lia.
      * exists n. split; [apply Hk|done].
    + split; [done|]. split; [done|]. split; [|done]. by exists n.
  - (* MainReply *)
    unfold step_reply in Hstep. destruct Hm as (n & Hn & Hlen).
    destruct (main c) as [o|act k|q k|d k] eqn:Hmain; try done.
    apply obeys_inv in Hn as (n' & Hq & Hc & Hk).
    assert (Hgo : forall c1,
      the_pool c1 = the_pool c -> sent c1 = sent c -> io c1 = io c ->
      main_cost q = 0%nat ->
      confined' (with_main (k r) c1)).
    { intros c1 Hp Hse Hi0 Hc0. split; [|split; [|split; [|split]]].
      - intros j t st. cbn [the_pool with_main]. unfold sent_by.
        cbn [sent with_main]. rewrite Hp, Hse. apply Hw.
      - intros j q'. cbn [the_pool with_main sent]. rewrite Hp, Hse. apply Hs.
      - exists n'. split; [apply Hk|]. unfold main_sent. cbn [sent with_main].
        rewrite Hse. unfold main_sent in Hlen. lia.
      - unfold main_sent. cbn [sent with_main]. by rewrite Hse.
      - cbn [io with_main]. by rewrite Hi0. }
    destruct q, r; try done; cbn [log_yield log_sent log_io] in Hstep.
    + destruct (_ && _); [|done]. injection Hstep as <-.
      apply (Hgo (log_yield i c)); done.
    + destruct (all_done _); [|done]. injection Hstep as <-. by apply Hgo.
    + injection Hstep as <-. cbn [main_cost] in Hc.
      split; [|split; [|split; [|split]]].
      * intros j t st. cbn [the_pool with_main log_sent]. unfold sent_by.
        cbn [sent with_main log_sent]. rewrite sent_by_snoc.
        rewrite bool_decide_eq_false_2 by done. rewrite app_nil_r. apply Hw.
      * intros j q'. cbn [the_pool with_main sent log_sent]. intros Hin.
        apply elem_of_app in Hin as [Hin|Hin]; [by eapply Hs|].
        by apply list_elem_of_singleton in Hin.
      * exists n'. split; [apply Hk|]. unfold main_sent.
        cbn [sent with_main log_sent].
        rewrite main_sent_snoc, bool_decide_eq_true_2 by done.
        rewrite length_app. simpl. unfold main_sent in Hlen. lia.
      * unfold main_sent. cbn [sent with_main log_sent].
        rewrite main_sent_snoc, bool_decide_eq_true_2 by done.
        apply Forall_app. split; [done|]. by repeat constructor.
      * done.
    + injection Hstep as <-. by apply Hgo.
    + injection Hstep as <-. by apply Hgo.
    + injection Hstep as <-.
      split; [|split; [|split; [|split]]].
      * intros j t st. apply Hw.
      * intros j q'. apply Hs.
      * exists n'. split; [apply Hk|]. unfold main_sent in *.
        cbn [sent with_main log_io main_cost] in *. lia.
      * done.
      * cbn [io with_main log_io]. apply Forall_app. split; [done|].
        by repeat constructor.
Qed.

Lemma run_confined ls : forall c c',
  confined' c -> run worker max_workers ls c = Some c' -> confined' c'.
Proof.
  induction ls as [|l ls IH]; intros c c' Hc H; cbn [run] in H.
  { by injection H as <-. }
  destruct (step worker max_workers l c) as [c1|] eqn:Hs; [|done].
  eapply IH; [|exact H]. by eapply step_confined.
Qed.

Lemma boot_confined s (m : main_prog S T B) :
  obeys (grows allowed) Pm main_cost budget m -> confined' (boot s m).
Proof.
  intros Hm. split; [intros i t st Hi; done|].
  split; [intros j q Hin; by apply elem_of_nil in Hin|].
  split; [exists budget; split; [done|cbn; lia]|].
  split; constructor.
Qed.

(** The main thread's own steps on the pool. *)
Lemma grows_refl (g : pool S T) : grows allowed g g.
Proof.
  exists (futs g), []. split; [by rewrite app_nil_r|].
  split; [|constructor]. apply Forall2_same_length_lookup_2; [done|].
  intros i x y Hx Hy. rewrite Hx in Hy. injection Hy as <-. split; auto.
Qed.

Lemma grows_shared (g : pool S T) s : grows allowed (with_shared s g) g.
Proof. destruct (grows_refl g) as (old' & new & ? & ? & ?). by exists old', new. Qed.

Lemma grows_submit (g : pool S T) ts :
  Forall allowed ts -> grows allowed (submit ts g) g.
Proof.
  intros Hts. destruct (grows_refl g) as (old' & new & Hf & H2 & _).
  exists (futs g), ((fun t => (t, Pending)) <$> ts). split; [done|].
  split.
  - apply Forall2_same_length_lookup_2; [done|].
    intros i x y Hx Hy. rewrite Hx in Hy. injection Hy as <-. split; auto.
  - apply Forall_fmap. eapply Forall_impl; [exact Hts|]. by intros t Ht.
Qed.

Lemma grows_cancel (g : pool S T) j : grows allowed (cancel j g) g.
Proof.
  unfold cancel.
  destruct (futs g !! j) as [[t [| | |]]|] eqn:Hj; try apply grows_refl.
  exists (futs (with_fut j Cancelled g)), []. split; [by rewrite app_nil_r|].
  split; [|constructor].
  apply Forall2_same_length_lookup_2.
  { unfold with_fut. cbn [futs]. by rewrite length_alter. }
  intros i x y Hx Hy. rewrite lookup_with_fut in Hy.
  destruct (decide (j = i)) as [->|].
  - rewrite Hx in Hy. cbn in Hy. injection Hy as <-.
    rewrite Hj in Hx. injection Hx as <-. split; [done|]. right. done.
  - rewrite Hx in Hy. injection Hy as <-. split; auto.
Qed.

(** Code of a worker function that the main thread runs itself. *)
Lemma in_main_obeys {A} (P : request -> Prop) n (p : prog S request reply A) :
  (forall q, P q -> Pm (Net q)) ->
  obeys (fun _ _ => True) P worker_cost n p ->
  obeys (grows allowed) Pm main_cost n (in_main (T:=T) p).
Proof.
  intros HP H.
  induction H as [n o|n act k Hact Hk IH|n n' q k Hq Hc Hk IH|n d k Hk IH];
    cbn [in_main].
  - constructor.
  - constructor; [intros g; apply grows_shared|]. intros g. apply IH.
  - apply (ob_ask _ _ _ n n'); [by apply HP|done|].
    intros [i| |r|b|s|e]; try constructor. apply IH.
  - constructor. apply IH.
Qed.

Lemma raise_in_with_obeys {A} e n :
  Pm Join -> obeys (grows allowed) Pm main_cost n (raise_in_with (S:=S) (T:=T) (B:=A) e).
Proof.
  intros HJ. apply (ob_ask _ _ _ n n); [done|simpl; lia|]. intros r. constructor.
Qed.

Lemma lift_in_with_obeys {A A'} n (o : outcome A) (f : A -> main_prog S T A') :
  Pm Join -> (forall x, o = Ret x -> obeys (grows allowed) Pm main_cost n (f x)) ->
  obeys (grows allowed) Pm main_cost n (lift_in_with o f).
Proof.
  intros HJ Hf. destruct o as [x|e]; cbn [lift_in_with];
    [by apply Hf|by apply raise_in_with_obeys].
Qed.
End ConfineFacts.
(** ** [multicatch.py]: the requests and files of a run *)
Section MulticatchConfine.
Import Multicatch.

Lemma fetch_ranking_func_obeys r rt :
  obeys (fun _ _ => True) (fun q => q = RankingReq r rt) worker_cost 1
        (fetch_ranking_func r rt).
Proof.
  unfold fetch_ranking_func. constructor; [done|]. intros s.
  destruct (stop_ranks s !! rt); [|constructor].
  destruct (gt_stop r s0); [constructor|].
  apply (ob_ask _ _ _ 1 0); [done|done|]. intros [resp|msg resp0]; [|constructor].
  destruct (_ =? _); [|constructor].
  apply obeys_lift. intros ranking_data _.
  apply obeys_lift. intros _ _.
  apply obeys_lift. intros pl _.
  assert (Hfin : obeys (fun _ _ : collector => True) (fun q => q = RankingReq r rt)
                   worker_cost 0
                   (Atomic (Q:=request) (R:=reply) count_step1
                           (fun _ => Done (Ret (VJson pl))))).
  { constructor; [done|]. constructor. }
  destruct (truthy pl); [done|].
  constructor; [done|]. intros s1.
  destruct (stop_ranks s1 !! rt); [done|constructor].
Qed.

Lemma get_player_profile_obeys {X} player_id :
  obeys (fun _ _ : X => True) (fun q => q = ProfileReq player_id) worker_cost 3
        (get_player_profile player_id).
Proof.
  apply (retry_request_obeys _ _ _ 1).
  unfold get_player_profile_func.
  apply (ob_ask _ _ _ 1 0); [done|done|]. intros [resp|msg resp0]; [|constructor].
  destruct (_ =? _); [|constructor]. apply obeys_lift. intros j _. constructor.
Qed.

Lemma fetch_player_profile_obeys {X} player_info ill :
  obeys (fun _ _ : X => True)
        (fun q => exists id, profile_id player_info = Ret id /\ q = ProfileReq id)
        worker_cost 3 (fetch_player_profile player_info ill).
Proof.
  unfold fetch_player_profile. fold (profile_id player_info).
  apply obeys_lift. intros player_id Hid.
  apply (obeys_bind _ _ _ 3 0).
  - generalize (get_player_profile_obeys (X:=X) player_id).
    generalize (get_player_profile (S:=X) player_id). intros p Hp.
    induction Hp as [n o|n act k Hact Hk IH|n n' q k Hq Hc Hk IH|n d k Hk IH].
    + constructor.
    + constructor; [done|]. apply IH.
    + apply (ob_ask _ _ _ n n'); [by exists player_id|done|apply IH].
    + constructor. apply IH.
  - intros result. destruct (has_key _ _); [constructor|].
    destruct (truthy result); constructor.
Qed.

Lemma mc_fetch_profile_obeys player_info :
  obeys (fun _ _ => True) (mc_Pw (Profile player_info)) worker_cost 3
        (fetch_profile player_info).
Proof.
  unfold fetch_profile. apply (obeys_bind _ _ _ 3 0).
  - apply fetch_player_profile_obeys.
  - intros result. apply obeys_lift. intros _ _.
    destruct (truthy result); [|constructor]. constructor; [done|]. constructor.
Qed.

Lemma mc_worker_obeys t :
  obeys (fun _ _ => True) (mc_Pw t) worker_cost 3 (worker t).
Proof.
  destruct t as [r rt|p]; cbn [worker].
  - apply (retry_request_obeys _ _ _ 1), fetch_ranking_func_obeys.
  - apply mc_fetch_profile_obeys.
Qed.

Section MulticatchMainConfine.
Context (ranks : list Z) (rdt : Z).
Local Abbreviation mo :=
  (obeys (grows (S:=collector) (mc_allowed ranks rdt)) (mc_Pm rdt) main_cost).

Lemma mc_ask_free {B} n q (k : main_reply -> main_prog collector task B) :
  mc_Pm rdt q -> main_cost q = 0%nat -> (forall r, mo n (k r)) -> mo n (Ask q k).
Proof. intros HP Hc Hk. apply (ob_ask _ _ _ n n); [done|lia|done]. Qed.

Lemma mc_try_cancel_grows rt j g :
  grows (mc_allowed ranks rdt) (try_cancel rt j g) g.
Proof.
  unfold try_cancel.
  destruct (futs g !! j) as [[[r rt'|p] st]|]; try apply grows_refl.
  destruct (stop_ranks (shared g) !! rt); [|apply grows_refl].
  destruct (_ && _); [apply grows_cancel|apply grows_refl].
Qed.

Lemma mc_cancel_loop_obeys {B} n rt js (k : main_prog collector task B) :
  mo n k -> mo n (cancel_loop rt js k).
Proof.
  intros Hk. induction js as [|j js IH]; cbn [cancel_loop]; [done|].
  constructor; [intros g; apply mc_try_cancel_grows|]. intros g.
  destruct (stop_ranks (shared g) !! rt); [done|].
  destruct (futs g !! j) as [[t st]|]; [|done].
  destruct (done st); [done|by apply raise_in_with_obeys].
Qed.

Lemma mc_harvest_loop_obeys {B} n0 rt batch n :
  forall info (k : info_map -> main_prog collector task B),
    (forall info, mo n0 (k info)) -> mo n0 (harvest_loop rt batch n info k).
Proof.
  induction n as [|n IH]; intros info k Hk; cbn [harvest_loop]; [apply Hk|].
  apply mc_ask_free; [done|done|]. intros [i| | | | |]; try constructor.
  { intros g. apply grows_refl. }
  intros g.
  destruct (futs g !! i) as [[[r rt'|p] st]|]; try by apply raise_in_with_obeys.
  destruct (stop_ranks (shared g) !! rt); [|by apply raise_in_with_obeys].
  destruct (gt_stop r s).
  { apply mc_cancel_loop_obeys. by apply IH. }
  destruct st as [|p|[result|e]|]; try by apply raise_in_with_obeys.
  destruct (truthy result); [|by apply IH].
  apply lift_in_with_obeys; [done|]. intros new _. by apply IH.
Qed.

Lemma mc_phase1_obeys {B} n0 types :
  (forall rt, rt ∈ types -> rt ∈ mc_fetched_types rdt) ->
  forall info (k : info_map -> main_prog collector task B),
    (forall info, mo n0 (k info)) -> mo n0 (phase1 ranks types info k).
Proof.
  induction types as [|rt types IH]; intros Hty info k Hk; cbn [phase1];
    [apply Hk|].
  constructor.
  { intros g. apply grows_submit. apply Forall_fmap, Forall_forall.
    intros r Hr. split; [|apply Hty; left].
    unfold sorted in Hr. by rewrite merge_sort_Permutation in Hr. }
  intros g. apply mc_harvest_loop_obeys. intros info'.
  apply mc_ask_free; [done|done|]. intros _. apply IH; [|done].
  intros rt' Hrt'. apply Hty. by right.
Qed.

Lemma mc_detail_loop_obeys {B} n0 ipd maps batch n :
  forall acc (k : list json -> main_prog collector task B),
    (forall dl, mo n0 (k dl)) -> mo n0 (detail_loop ipd maps batch n acc k).
Proof.
  induction n as [|n IH]; intros acc k Hk; cbn [detail_loop]; [apply Hk|].
  apply mc_ask_free; [done|done|]. intros [i| | | | |]; try constructor.
  { intros g. apply grows_refl. }
  intros g.
  destruct (futs g !! i) as [[t [|p|[result|e]|]]|]; try by apply raise_in_with_obeys.
  destruct (truthy result); [|by apply IH].
  apply lift_in_with_obeys; [done|]. intros r' _. by apply IH.
Qed.

Lemma mc_io_step_obeys n op rows k :
  mc_Pm rdt (Pandas op rows) -> mo n k -> mo n (io_step op rows k).
Proof.
  intros HP Hk. apply mc_ask_free; [done|done|].
  intros [| | | | |[e|]]; try constructor. done.
Qed.

Lemma mc_ask_continue_obeys n k : mo n k -> mo n (ask_continue k).
Proof.
  intros Hk. apply mc_ask_free; [done|done|]. intros [| | | |s|]; try constructor.
  destruct (lower_y s); [done|constructor].
Qed.

Lemma mc_phase2_obeys n info : mo n (phase2 rdt info).
Proof.
  unfold phase2. destruct (info !! rdt) as [total|]; [|constructor].
  apply obeys_lift. intros maps _.
  constructor.
  { intros g. apply grows_submit. apply Forall_fmap, Forall_forall. done. }
  intros g. apply mc_detail_loop_obeys. intros dl.
  apply mc_ask_free; [done|done|]. intros _.
  apply mc_io_step_obeys; [by right|constructor].
Qed.

Lemma mc_harvest_obeys n : mo n (harvest ranks rdt).
Proof.
  unfold harvest. apply mc_phase1_obeys; [done|]. intros info.
  unfold after_harvest.
  destruct (existsb _ _) eqn:E; [|constructor].
  apply mc_io_step_obeys; [|apply mc_phase2_obeys].
  left. split; [done|]. intros Hnil.
  apply existsb_exists in E as (rt & Hin & Hrt).
  apply list_elem_of_In, list_elem_of_lookup in Hin as [i Hi].
  apply concat_nil_Forall in Hnil.
  rewrite Forall_fmap in Hnil.
  apply (Forall_lookup_1 _ _ _ _ Hnil) in Hi. cbn in Hi.
  destruct (info !! rt) as [[|? ?]|]; done.
Qed.

Lemma mc_collect_data_obeys : mo 3 (collect_data ranks rdt).
Proof.
  unfold collect_data.
  assert (Hl : mo 3 (on_finish (in_main (fetch_ranking 1 rdt)) (fun o =>
            match o with
            | Ret _ => harvest ranks rdt
            | Raise e =>
                if is_Exception e then ask_continue (harvest ranks rdt)
                else Done (Raise e)
            end))).
  { apply (obeys_on_finish _ _ _ 3 0).
    - apply (in_main_obeys _ _ (fun q => q = RankingReq 1 rdt)); [by intros q ->|].
      apply (retry_request_obeys _ _ _ 1), fetch_ranking_func_obeys.
    - intros [v|e]; [apply mc_harvest_obeys|].
      destruct (is_Exception e); [|constructor].
      apply mc_ask_continue_obeys, mc_harvest_obeys. }
  apply mc_ask_free; [done|done|]. intros [| | |b| |]; try constructor.
  destruct b; [done|]. by apply mc_ask_continue_obeys.
Qed.

Lemma mc_system_confined :
  confined (mc_allowed ranks rdt) mc_Pw (mc_Pm rdt) 3 (system ranks rdt).
Proof. apply boot_confined, mc_collect_data_obeys. Qed.

Lemma mc_run_confined ls c :
  run ls (system ranks rdt) = Some c ->
  confined (mc_allowed ranks rdt) mc_Pw (mc_Pm rdt) 3 c.
Proof.
  apply run_confined; [|apply mc_system_confined].
  intros t _. apply mc_worker_obeys.
Qed.
End MulticatchMainConfine.
End MulticatchConfine.
(** ** [catchgraderank.py]: the requests and files of a run *)
Section GradeConfine.
Import Catchgraderank.

Lemma record_players_recorded players : forall ids info ids' info',
  record_players players ids info = Ret (ids', info') ->
  Forall recorded_summary info -> Forall recorded_summary info'.
Proof.
  induction players as [|p players IH]; intros ids info ids' info' H Hinv;
    cbn [record_players] in H.
  { by injection H as <- <-. }
  destruct (py_get p "player_id" (JStr "")) as [pid|]; [|done]. cbn [obind] in H.
  destruct (truthy pid) eqn:Ht; [|by eapply IH].
  destruct (py_hash pid) as [key|] eqn:Hk; [|done]. cbn [obind] in H.
  destruct (bool_decide (key ∈ ids)); [by eapply IH|].
  destruct (py_get p "rank" (JStr "")) as [rk|]; [|done]. cbn [obind] in H.
  destruct (py_get p "point" (JNum 0)) as [pt|]; [|done]. cbn [obind] in H.
  eapply IH; [exact H|]. apply Forall_app. split; [done|].
  repeat constructor. by exists pid, rk, pt, key.
Qed.

Lemma fetch_grade_ranking_func_obeys r :
  obeys (fun _ _ => True) (fun q => q = GradeRankingReq r) worker_cost 1
        (fetch_grade_ranking_func r).
Proof.
  unfold fetch_grade_ranking_func. constructor; [done|]. intros s.
  destruct (gt_stop r _); [constructor|].
  apply (ob_ask _ _ _ 1 0); [done|done|]. intros [resp|msg resp0]; [|constructor].
  destruct (_ =? _); [|constructor].
  apply obeys_lift. intros ranking_data _.
  apply obeys_lift. intros _ _.
  apply obeys_lift. intros pl _.
  assert (Hfin : obeys (fun _ _ : collector => True) (fun q => q = GradeRankingReq r)
                   worker_cost 0
                   (Atomic (Q:=request) (R:=reply) count_step1
                           (fun _ => Done (Ret (VJson pl))))).
  { constructor; [done|]. constructor. }
  destruct (truthy pl); [done|]. constructor; done.
Qed.

Lemma gc_worker_obeys t :
  obeys (fun _ _ => True) (gc_Pw t) worker_cost 3 (worker t).
Proof.
  destruct t as [r|p]; cbn [worker].
  - apply (retry_request_obeys _ _ _ 1), fetch_grade_ranking_func_obeys.
  - unfold fetch_profile. apply (obeys_bind _ _ _ 3 0).
    + apply fetch_player_profile_obeys.
    + intros result. apply obeys_lift. intros _ _.
      destruct (truthy result); [|constructor]. constructor; [done|]. constructor.
Qed.

Section GradeMainConfine.
Context (ranks : list Z).
Local Abbreviation go :=
  (obeys (grows (S:=collector) (gc_allowed ranks)) gc_Pm main_cost).

Lemma gc_ask_free {B} n q (k : main_reply -> main_prog collector task B) :
  gc_Pm q -> main_cost q = 0%nat -> (forall r, go n (k r)) -> go n (Ask q k).
Proof. intros HP Hc Hk. apply (ob_ask _ _ _ n n); [done|lia|done]. Qed.

Lemma gc_cancel_loop_obeys {B} n js (k : main_prog collector task B) :
  go n k -> go n (cancel_loop js k).
Proof.
  intros Hk. induction js as [|j js IH]; cbn [cancel_loop]; [done|].
  constructor; [|done]. intros g. unfold try_cancel.
  destruct (futs g !! j) as [[[r|p] st]|]; try apply grows_refl.
  destruct (_ && _); [apply grows_cancel|apply grows_refl].
Qed.

Lemma gc_harvest_loop_obeys {B} n0 batch n :
  forall ids info (k : list json -> main_prog collector task B),
    seen_once ids info -> Forall recorded_summary info ->
    (forall info', NoDup (omap summary_key info') ->
                   Forall recorded_summary info' -> go n0 (k info')) ->
    go n0 (harvest_loop batch n ids info k).
Proof.
  induction n as [|n IH]; intros ids info k Hseen Hrec Hk; cbn [harvest_loop].
  { apply Hk; [apply Hseen|done]. }
  apply gc_ask_free; [done|done|]. intros [i| | | | |]; try constructor.
  { intros g. apply grows_refl. }
  intros g.
  destruct (futs g !! i) as [[[r|p] st]|]; try by apply raise_in_with_obeys.
  destruct (gt_stop r _).
  { apply gc_cancel_loop_obeys. by apply IH. }
  destruct st as [|p|[result|e]|]; try by apply raise_in_with_obeys.
  destruct (truthy result); [|by apply IH].
  apply lift_in_with_obeys; [done|]. intros [ids1 info1] Hrp.
  destruct (py_iter result) as [players|]; [|done]. cbn [obind] in Hrp.
  cbn [fst snd]. apply IH; [| |done].
  - by apply (record_players_seen_once _ _ _ _ _ Hrp).
  - by apply (record_players_recorded _ _ _ _ _ Hrp).
Qed.

Lemma gc_detail_loop_obeys {B} n0 info batch n :
  forall acc (k : list json -> main_prog collector task B),
    (forall dl, go n0 (k dl)) -> go n0 (detail_loop info batch n acc k).
Proof.
  induction n as [|n IH]; intros acc k Hk; cbn [detail_loop]; [apply Hk|].
  apply gc_ask_free; [done|done|]. intros [i| | | | |]; try constructor.
  { intros g. apply grows_refl. }
  intros g.
  destruct (futs g !! i) as [[t [|p|[result|e]|]]|]; try by apply raise_in_with_obeys.
  destruct (truthy result); [|by apply IH].
  apply lift_in_with_obeys; [done|]. intros r' _. by apply IH.
Qed.

Lemma gc_io_step_obeys n op rows k :
  gc_Pm (Pandas op rows) -> go n k -> go n (io_step op rows k).
Proof.
  intros HP Hk. apply gc_ask_free; [done|done|].
  intros [| | | | |[e|]]; try constructor. done.
Qed.

Lemma gc_after_harvest_obeys n info :
  NoDup (omap summary_key info) -> Forall recorded_summary info ->
  go n (after_harvest info).
Proof.
  intros Hnd Hrec. unfold after_harvest, sort_values_rank.
  destruct info as [|e info]; [constructor|].
  apply gc_io_step_obeys; [right; auto|].
  apply gc_io_step_obeys; [right; auto|].
  unfold phase2. constructor.
  { intros g. apply grows_submit. by apply Forall_fmap. }
  intros g. apply gc_detail_loop_obeys. intros dl.
  apply gc_ask_free; [done|done|]. intros _.
  apply gc_io_step_obeys; [by left|constructor].
Qed.

Lemma gc_harvest_obeys n : go n (harvest ranks).
Proof.
  unfold harvest. constructor.
  { intros g. apply grows_submit. apply Forall_fmap, Forall_forall.
    intros r Hr. unfold sorted in Hr. cbn.
    by rewrite merge_sort_Permutation in Hr. }
  intros g. apply gc_harvest_loop_obeys.
  - split; [constructor|]. intros k. cbn. by rewrite elem_of_empty, elem_of_nil.
  - constructor.
  - intros info Hnd Hrec. apply gc_ask_free; [done|done|]. intros _.
    by apply gc_after_harvest_obeys.
Qed.

Lemma gc_ask_continue_obeys n k : go n k -> go n (ask_continue k).
Proof.
  intros Hk. apply gc_ask_free; [done|done|]. intros [| | | |s|]; try constructor.
  destruct (Multicatch.lower_y s); [done|constructor].
Qed.

Lemma gc_collect_data_obeys : go 3 (collect_data ranks).
Proof.
  unfold collect_data.
  assert (Hl : go 3 (on_finish (in_main (fetch_grade_ranking 1)) (fun o =>
            match o with
            | Ret test_result =>
                if truthy test_result then harvest ranks else Done (Ret Quit)
            | Raise e =>
                if is_Exception e then ask_continue (harvest ranks)
                else Done (Raise e)
            end))).
  { apply (obeys_on_finish _ _ _ 3 0).
    - apply (in_main_obeys _ _ (fun q => q = GradeRankingReq 1)); [by intros q ->|].
      apply (retry_request_obeys _ _ _ 1), fetch_grade_ranking_func_obeys.
    - intros [v|e].
      + destruct (truthy v); [apply gc_harvest_obeys|constructor].
      + destruct (is_Exception e); [|constructor].
        apply gc_ask_continue_obeys, gc_harvest_obeys. }
  apply gc_ask_free; [done|done|]. intros [| | |b| |]; try constructor.
  destruct b; [done|]. by apply gc_ask_continue_obeys.
Qed.

Lemma gc_run_confined ls c :
  run ls (system ranks) = Some c ->
  confined (gc_allowed ranks) gc_Pw gc_Pm 3 c.
Proof.
  apply run_confined; [|apply boot_confined, gc_collect_data_obeys].
  intros t _. apply gc_worker_obeys.
Qed.
End GradeMainConfine.
End GradeConfine.
(** ** What every run sends and writes *)

Lemma elem_of_sent_by {S T B} (c : config S T B) i q :
  (Some i, q) ∈ sent c -> q ∈ sent_by i c.
Proof.
  intros Hin. unfold sent_by. apply list_elem_of_fmap. exists (Some i, q).
  split; [done|]. apply list_elem_of_In, List.filter_In.
  split; [by apply list_elem_of_In|]. by apply bool_decide_eq_true.
Qed.

Lemma elem_of_main_sent {S T B} (c : config S T B) q :
  (None, q) ∈ sent c -> q ∈ main_sent c.
Proof.
  intros Hin. unfold main_sent. apply list_elem_of_fmap. exists (None, q).
  split; [done|]. apply list_elem_of_In, List.filter_In.
  split; [by apply list_elem_of_In|]. by apply bool_decide_eq_true.
Qed.

Lemma confined_budget {S T B} allowed Pw Pm budget (c : config S T B) :
  confined allowed Pw Pm budget c ->
  (length (main_sent c) <= budget)%nat /\
  forall i, (length (sent_by i c) <= budget)%nat.
Proof.
  intros (Hw & Hs & (n & _ & Hn) & _). split; [lia|]. intros i.
  destruct (futs (the_pool c) !! i) as [[t st]|] eqn:Hi.
  - apply Hw in Hi. destruct Hi as (_ & _ & Hi).
    destruct st as [|p|o|]; [rewrite Hi; simpl; lia| |done|done].
    destruct Hi as (m & _ & ?). lia.
  - assert (sent_by i c = []) as ->; [|simpl; lia].
    unfold sent_by. rewrite filter_none; [done|].
    intros [who q] Hin. apply bool_decide_eq_false. cbn. intros ->.
    apply Hs in Hin. rewrite Hi in Hin. by destruct Hin.
Qed.

Lemma confined_sender {S T B} allowed Pw Pm budget (c : config S T B) who q :
  confined allowed Pw Pm budget c -> (who, q) ∈ sent c ->
  match who with
  | None => Pm (Net q)
  | Some i => exists t st, futs (the_pool c) !! i = Some (t, st) /\
                           allowed t /\ Pw t q
  end.
Proof.
  intros (Hw & Hs & _ & Hms & _) Hin. destruct who as [i|].
  - destruct (Hs _ _ Hin) as [[t st] Hi]. exists t, st. split; [done|].
    destruct (Hw _ _ _ Hi) as (Ha & HP & _). split; [done|].
    apply elem_of_sent_by in Hin. by apply (proj1 (Forall_forall _ _) HP).
  - apply elem_of_main_sent in Hin. by apply (proj1 (Forall_forall _ _) Hms).
Qed.

(** X7: on every schedule and for every behaviour of the network, a
    probe or a profile task sends at most three requests, and so does
    the main thread for its liveness probe, in both collectors. *)
Theorem three_requests_per_task :
  (forall ranks rdt ls c,
     Multicatch.run ls (Multicatch.system ranks rdt) = Some c ->
     (length (main_sent c) <= 3)%nat /\
     forall i, (length (sent_by i c) <= 3)%nat) /\
  (forall ranks ls c,
     Catchgraderank.run ls (Catchgraderank.system ranks) = Some c ->
     (length (main_sent c) <= 3)%nat /\
     forall i, (length (sent_by i c) <= 3)%nat).
Proof.
  split.
  - intros ranks rdt ls c Hrun.
    eapply confined_budget, mc_run_confined, Hrun.
  - intros ranks ls c Hrun.
    eapply confined_budget, gc_run_confined, Hrun.
Qed.

Lemma three_requests_per_task_witness :
  let c := Catchgraderank.after outage_schedule outage_system in
  Catchgraderank.run outage_schedule outage_system = Some c /\
  length (sent_by 0 c) = 3%nat /\
  (length (main_sent c) <= 3)%nat /\
  forall i, (length (sent_by i c) <= 3)%nat.
Proof.
  intros c.
  assert (Hrun : Catchgraderank.run outage_schedule outage_system = Some c).
  { apply run_after. vm_compute. reflexivity. }
  split; [exact Hrun|]. split; [vm_compute; reflexivity|].
  exact (proj2 three_requests_per_task [1] outage_schedule c Hrun).
Defined.

(** X8: a run asks the network only for what it was configured for. In
    [multicatch.py] every ranking request is for a fetched ranking type
    (the day's ranking, and the ladders A, B, C unless the run is for the
    previous day) and for a rank of the target list, or is the liveness
    probe of rank 1 that the main thread sends; a profile request comes
    from a profile task, for the identity of that task's summary; the
    grade endpoint is never asked. In [catchgraderank.py] the same holds
    with the grade endpoint, and a profile is only asked for an identity
    that is not empty. *)
Theorem requests_confined_to_targets :
  (forall ranks rdt ls c who q,
     Multicatch.run ls (Multicatch.system ranks rdt) = Some c ->
     (who, q) ∈ sent c ->
     match q with
     | RankingReq r rt =>
         rt ∈ mc_fetched_types rdt /\
         match who with
         | None => r = 1 /\ rt = rdt
         | Some i => r ∈ ranks /\
             exists st, futs (the_pool c) !! i = Some (Multicatch.Probe r rt, st)
         end
     | ProfileReq id =>
         exists i p st, who = Some i /\
           futs (the_pool c) !! i = Some (Multicatch.Profile p, st) /\
           profile_id p = Ret id
     | GradeRankingReq _ => False
     end) /\
  (forall ranks ls c who q,
     Catchgraderank.run ls (Catchgraderank.system ranks) = Some c ->
     (who, q) ∈ sent c ->
     match q with
     | GradeRankingReq r =>
         match who with
         | None => r = 1
         | Some i => r ∈ ranks /\
             exists st, futs (the_pool c) !! i = Some (Catchgraderank.Probe r, st)
         end
     | ProfileReq id =>
         truthy id = true /\
         exists i p st, who = Some i /\
           futs (the_pool c) !! i = Some (Catchgraderank.Profile p, st) /\
           profile_id p = Ret id
     | RankingReq _ _ => False
     end).
Proof.
  split.
  - intros ranks rdt ls c who q Hrun Hin.
    pose proof (confined_sender _ _ _ _ _ _ _ (mc_run_confined ranks rdt ls c Hrun) Hin)
      as H.
    destruct who as [i|].
    + destruct H as ([r rt|p] & st & Hi & Ha & HP); cbn in Ha, HP.
      * subst q. destruct Ha as [Hr Hrt]. split; [done|]. split; [done|]. by exists st.
      * destruct HP as (id & Hid & ->). by exists i, p, st.
    + cbn in H. subst q. split; [by left|done].
  - intros ranks ls c who q Hrun Hin.
    pose proof (confined_sender _ _ _ _ _ _ _ (gc_run_confined ranks ls c Hrun) Hin)
      as H.
    destruct who as [i|].
    + destruct H as ([r|p] & st & Hi & Ha & HP); cbn in Ha, HP.
      * subst q. split; [done|]. by exists st.
      * destruct HP as (id & Hid & ->).
        destruct Ha as (pid & rk & pt & key & -> & Ht & _).
        cbn in Hid. injection Hid as <-. split; [done|].
        eexists i, _, st. split; [done|]. split; [exact Hi|]. reflexivity.
    + cbn in H. by subst q.
Qed.

Lemma requests_confined_to_targets_witness :
  let c := Multicatch.after tail_schedule tail_system in
  Multicatch.run tail_schedule tail_system = Some c /\
  (Some 1%nat, RankingReq 27 20) ∈ sent c /\
  20 ∈ mc_fetched_types 20 /\ 27 ∈ generate_rank_targets 53 /\
  exists st, futs (the_pool c) !! 1%nat = Some (Multicatch.Probe 27 20, st).
Proof.
  intros c.
  assert (Hrun : Multicatch.run tail_schedule tail_system = Some c).
  { apply run_after. vm_compute. reflexivity. }
  assert (Hin : (Some 1%nat, RankingReq 27 20) ∈ sent c).
  { vm_compute. do 2 right. left. }
  split; [exact Hrun|]. split; [exact Hin|].
  exact (proj1 requests_confined_to_targets (generate_rank_targets 53) 20
           tail_schedule c (Some 1%nat) (RankingReq 27 20) Hrun Hin).
Defined.

(** X9: whatever the schedule and the replies, the grade collector sorts
    and writes its cache file only with rows, one row per identity, each
    row with the columns player_id, rank and point and an identity that
    is not empty. *)
Theorem grade_cache_rows_unique ranks ls c op rows :
  Catchgraderank.run ls (Catchgraderank.system ranks) = Some c ->
  (op, rows) ∈ io c ->
  op = "grade_full" \/
  ((op = "sort_values" \/ op = "grade_cache") /\ rows <> [] /\
   NoDup (omap summary_key rows) /\ Forall recorded_summary rows).
Proof.
  intros Hrun Hin.
  destruct (gc_run_confined ranks ls c Hrun) as (_ & _ & _ & _ & Hio).
  apply (proj1 (Forall_forall _ _) Hio) in Hin. exact Hin.
Qed.

Lemma grade_cache_rows_unique_witness :
  let c := Catchgraderank.after overlap_grade_schedule overlap_grade_system in
  let rows := [JDict [("player_id", JStr "K"); ("rank", JNum 26); ("point", JNum 900)]] in
  Catchgraderank.run overlap_grade_schedule overlap_grade_system = Some c /\
  ("grade_cache", rows) ∈ io c /\
  ("grade_cache" = "grade_full" \/
   (("grade_cache" = "sort_values" \/ "grade_cache" = "grade_cache") /\ rows <> [] /\
    NoDup (omap summary_key rows) /\ Forall recorded_summary rows)).
Proof.
  intros c rows.
  assert (Hrun : Catchgraderank.run overlap_grade_schedule overlap_grade_system = Some c).
  { apply run_after. vm_compute. reflexivity. }
  assert (Hin : ("grade_cache", rows) ∈ io c).
  { vm_compute. right. left. }
  split; [exact Hrun|]. split; [exact Hin|].
  exact (grade_cache_rows_unique [1; 27] overlap_grade_schedule c
           "grade_cache" rows Hrun Hin).
Defined.
(** ** [catchgraderank.py]: the fields merged into a detail record *)
Section GradeMerge.
Import Catchgraderank.


End GradeMerge.
(** ** [config.py]: the identifiers of the event and of the season *)
Section ConfigIds.

Lemma month_in_period_range total :
  let mm := if total <=? 0 then 1 else (total - 1) mod 12 + 1 in
  1 <= mm <= 12 /\ (total <= 0 -> mm = 1) /\ (0 < total -> (total - mm) mod 12 = 0).
Proof.
  cbn zeta. destruct (total <=? 0) eqn:E.
  - apply Z.leb_le in E. split; [lia|]. split; [done|lia].
  - apply Z.leb_gt in E.
    pose proof (Z.mod_pos_bound (total - 1) 12 ltac:(lia)).
    split; [lia|]. split; [lia|]. intros _.
    replace (total - ((total - 1) mod 12 + 1))
      with ((total - 1) - (total - 1) mod 12) by lia.
    rewrite Zminus_mod, Z.mod_mod by lia. rewrite Z.sub_diag. done.
Qed.

Lemma event_id_text (personal : bool) mm :
  1 <= mm <= 12 ->
  py_int (str_int (if personal then 8 else 7) +:+ format_02d 5 +:+ "1"
          +:+ format_02d mm)
  = Ret ((if personal then 805100 else 705100) + mm).
Proof.
  intros Hmm.
  assert (mm = 1 \/ mm = 2 \/ mm = 3 \/ mm = 4 \/ mm = 5 \/ mm = 6 \/ mm = 7 \/
          mm = 8 \/ mm = 9 \/ mm = 10 \/ mm = 11 \/ mm = 12) as H by lia.
  destruct personal;
    repeat (destruct H as [->|H]; [vm_compute; reflexivity|]);
    subst mm; vm_compute; reflexivity.
Qed.

(** X11: [calculate_event_id] always returns a number of the form
    p051MM: p is 8 for the personal event and 7 otherwise, and MM, from
    01 to 12, is the month counted from April 2025 (01 for every month up
    to April 2025, then one more each month, modulo 12). *)
Theorem event_id_has_the_documented_form now flags month_arg personal :
  assoc "personal" flags = Some personal ->
  let total :=
    (year now - 2025) * 12
    + ((match month_arg with Some m => m | None => month now end) - 4 + 1) in
  exists mm,
    calculate_event_id now flags month_arg
      = Ret ((if personal then 800000 else 700000) + 5100 + mm) /\
    1 <= mm <= 12 /\
    (total <= 0 -> mm = 1) /\ (0 < total -> (total - mm) mod 12 = 0).
Proof.
  intros Hp total. unfold calculate_event_id, dict_item. rewrite Hp. cbn [obind].
  fold total. cbv zeta.
  destruct (month_in_period_range total) as (Hr & H0 & H1).
  exists (if total <=? 0 then 1 else (total - 1) mod 12 + 1).
  split; [|done].
  rewrite event_id_text by done. destruct personal; f_equal; lia.
Qed.

Lemma event_id_has_the_documented_form_witness :
  let now := {| year := 2025; month := 7; date := 739437 |} in
  assoc "personal" BATTLE_TYPE = Some true /\
  exists mm,
    calculate_event_id now BATTLE_TYPE None = Ret (800000 + 5100 + mm) /\
    1 <= mm <= 12 /\
    ((2025 - 2025) * 12 + (7 - 4 + 1) <= 0 -> mm = 1) /\
    (0 < (2025 - 2025) * 12 + (7 - 4 + 1) ->
     ((2025 - 2025) * 12 + (7 - 4 + 1) - mm) mod 12 = 0).
Proof.
  intros now. split; [reflexivity|].
  exact (event_id_has_the_documented_form now BATTLE_TYPE None true eq_refl).
Defined.

(** X12: the period digits of the event identifier never advance: from
    April 2025 on, the identifier of a month is the identifier of the
    same month one year before. *)
Theorem event_id_repeats_every_year now now' flags month_arg :
  year now' = year now + 1 -> month now' = month now ->
  0 < (year now - 2025) * 12
      + ((match month_arg with Some m => m | None => month now end) - 4 + 1) ->
  calculate_event_id now' flags month_arg = calculate_event_id now flags month_arg.
Proof.
  intros Hy Hm Hpos. unfold calculate_event_id. rewrite Hy, Hm. cbv zeta.
  set (cm := match month_arg with Some m => m | None => month now end) in *.
  set (total := (year now - 2025) * 12 + (cm - 4 + 1)) in *.
  replace ((year now + 1 - 2025) * 12 + (cm - 4 + 1)) with (total + 12) by lia.
  assert ((total + 12 <=? 0) = false) as -> by (apply Z.leb_gt; lia).
  assert ((total <=? 0) = false) as -> by (apply Z.leb_gt; lia).
  replace (total + 12 - 1) with (total - 1 + 1 * 12) by lia.
  by rewrite Z.mod_add by lia.
Qed.

Lemma event_id_repeats_every_year_witness :
  let now := {| year := 2025; month := 4; date := 739346 |} in
  let now' := {| year := 2026; month := 4; date := 739711 |} in
  year now' = year now + 1 /\ month now' = month now /\
  0 < (year now - 2025) * 12 + (month now - 4 + 1) /\
  calculate_event_id now' BATTLE_TYPE None = Ret 805101 /\
  calculate_event_id now BATTLE_TYPE None = Ret 805101.
Proof.
  intros now now'.
  assert (H1 : year now' = year now + 1) by reflexivity.
  assert (H2 : month now' = month now) by reflexivity.
  assert (H3 : 0 < (year now - 2025) * 12 + (month now - 4 + 1)) by (cbn; lia).
  split; [exact H1|]. split; [exact H2|]. split; [exact H3|].
  split; [|reflexivity].
  rewrite (event_id_repeats_every_year now now' BATTLE_TYPE None H1 H2 H3).
  reflexivity.
Defined.

Lemma assoc_fmap_reset (flags : list (string * bool)) k :
  assoc k ((fun kv => (fst kv, false)) <$> flags) = (fun _ => false) <$> assoc k flags.
Proof.
  induction flags as [|[k' v] flags IH]; [done|]. cbn.
  destruct (String.eqb k k'); [done|apply IH].
Qed.

(** X13: [update_battle_type] keeps the keys of [BATTLE_TYPE] and leaves
    at most one flag set, the one of the named type. A name that is not
    a key clears every flag, and then the event identifier is computed
    with the prefix 7 of the guild event. *)
Theorem battle_type_selects_the_prefix now flags battle_type_str month_arg :
  (forall k, assoc k (update_battle_type battle_type_str flags)
             = (fun _ => String.eqb k battle_type_str) <$> assoc k flags) /\
  (is_Some (assoc "personal" flags) ->
   exists mm, 1 <= mm <= 12 /\
     calculate_event_id now (update_battle_type battle_type_str flags) month_arg
     = Ret ((if String.eqb "personal" battle_type_str then 805100 else 705100) + mm)).
Proof.
  assert (Hlook : forall k, assoc k (update_battle_type battle_type_str flags)
             = (fun _ => String.eqb k battle_type_str) <$> assoc k flags).
  { intros k. unfold update_battle_type.
    pose proof (assoc_fmap_reset flags battle_type_str) as Hs.
    destruct (assoc battle_type_str ((fun kv => (fst kv, false)) <$> flags))
      as [v|] eqn:E.
    - rewrite assoc_dict_set, assoc_fmap_reset.
      destruct (String.eqb k battle_type_str) eqn:Ek.
      + apply String.eqb_eq in Ek. subst k.
        destruct (assoc battle_type_str flags); [done|]. cbn in Hs. done.
      + destruct (assoc k flags); done.
    - rewrite assoc_fmap_reset.
      destruct (String.eqb k battle_type_str) eqn:Ek.
      + apply String.eqb_eq in Ek. subst k.
        destruct (assoc battle_type_str flags); [done|done].
      + destruct (assoc k flags); done. }
  split; [exact Hlook|]. intros [p Hp].
  specialize (Hlook "personal"). rewrite Hp in Hlook. cbn in Hlook.
  unfold calculate_event_id, dict_item. rewrite Hlook. cbn [obind]. cbv zeta.
  set (total := (year now - 2025) * 12 + _).
  destruct (month_in_period_range total) as (Hr & _).
  eexists. split; [exact Hr|]. by rewrite event_id_text.
Qed.

Lemma battle_type_selects_the_prefix_witness :
  let now := {| year := 2025; month := 7; date := 739437 |} in
  is_Some (assoc "personal" BATTLE_TYPE) /\
  exists mm, 1 <= mm <= 12 /\
    calculate_event_id now (update_battle_type "Guild" BATTLE_TYPE) None
    = Ret (705100 + mm).
Proof.
  intros now. split; [by eexists|].
  apply (proj2 (battle_type_selects_the_prefix now BATTLE_TYPE "Guild" None)).
  by eexists.
Defined.

(** X14: the season identifier starts at 1005006 and never falls below
    it; from May 2025 on it grows by one every two months (so by six
    every year), and two months of the same term share it. *)
Theorem grade_id_grows_every_two_months now month_arg :
  let cm := match month_arg with Some m => m | None => month now end in
  let total := (year now - 2025) * 12 + (cm - 5) in
  1005006 <= calculate_grade_id now month_arg /\
  (0 <= total ->
   calculate_grade_id now (Some (cm + 2)) = calculate_grade_id now month_arg + 1 /\
   calculate_grade_id now (Some (cm + 12)) = calculate_grade_id now month_arg + 6 /\
   (total mod 2 = 0 ->
    calculate_grade_id now (Some (cm + 1)) = calculate_grade_id now month_arg)) /\
  (forall m', cm <= m' ->
     calculate_grade_id now month_arg <= calculate_grade_id now (Some m')).
Proof.
  intros cm total. unfold calculate_grade_id. fold cm. cbv zeta. fold total.
  assert (Hdiv : forall t, 0 <= t -> 0 <= t / 2) by (intros; apply Z.div_pos; lia).
  split; [|split].
  - destruct (total <? 0) eqn:E; [lia|]. apply Z.ltb_ge in E.
    specialize (Hdiv _ E). lia.
  - intros Ht.
    assert ((total <? 0) = false) as -> by (apply Z.ltb_ge; lia).
    replace ((year now - 2025) * 12 + (cm + 2 - 5)) with (total + 1 * 2) by lia.
    replace ((year now - 2025) * 12 + (cm + 12 - 5)) with (total + 6 * 2) by lia.
    replace ((year now - 2025) * 12 + (cm + 1 - 5)) with (total + 1) by lia.
    assert ((total + 1 * 2 <? 0) = false) as -> by (apply Z.ltb_ge; lia).
    assert ((total + 6 * 2 <? 0) = false) as -> by (apply Z.ltb_ge; lia).
    assert ((total + 1 <? 0) = false) as -> by (apply Z.ltb_ge; lia).
    rewrite !Z.div_add by lia. split; [lia|]. split; [lia|].
    intros Heven.
    pose proof (Z.div_mod total 2 ltac:(lia)) as H1.
    pose proof (Z.div_mod (total + 1) 2 ltac:(lia)) as H2.
    pose proof (Z.mod_pos_bound (total + 1) 2 ltac:(lia)). lia.
  - intros m' Hm'.
    set (total' := (year now - 2025) * 12 + (m' - 5)).
    assert (total <= total') by (unfold total, total'; lia).
    destruct (Z.ltb_spec total 0) as [E|E], (Z.ltb_spec total' 0) as [E'|E'].
    + lia.
    + specialize (Hdiv _ E'). lia.
    + lia.
    + pose proof (Z.div_le_mono total total' 2 ltac:(lia) ltac:(lia)). lia.
Qed.
Lemma grade_id_grows_every_two_months_witness :
  let now := {| year := 2025; month := 5; date := 739376 |} in
  0 <= (year now - 2025) * 12 + (month now - 5) /\
  calculate_grade_id now None = 1005006 /\
  calculate_grade_id now (Some (5 + 1)) = calculate_grade_id now None /\
  calculate_grade_id now (Some (5 + 2)) = calculate_grade_id now None + 1.
Proof.
  intros now.
  assert (H : 0 <= (year now - 2025) * 12 + (month now - 5)) by (cbn; lia).
  split; [exact H|]. split; [reflexivity|].
  destruct (proj1 (proj2 (grade_id_grows_every_two_months now None)) H)
    as (H2 & _ & H1).
  split; [apply H1; reflexivity|exact H2].
Defined.
End ConfigIds.
(** ** [config.py], [multicatch.py]: the names of the files of a run *)
Section FileNameFacts.

Lemma append_cons a (s t : string) : String a s +:+ t = String a (s +:+ t).
Proof. reflexivity. Qed.

Lemma append_assoc (s1 s2 s3 : string) : (s1 +:+ s2) +:+ s3 = s1 +:+ s2 +:+ s3.
Proof. induction s1 as [|a s1 IH]; [done|]. by rewrite !append_cons, IH. Qed.

Lemma append_nil_r (s : string) : s +:+ "" = s.
Proof. induction s as [|a s IH]; [done|]. by rewrite append_cons, IH. Qed.

Lemma length_append (s1 s2 : string) :
  String.length (s1 +:+ s2) = (String.length s1 + String.length s2)%nat.
Proof.
  induction s1 as [|a s1 IH]; [done|]. rewrite append_cons. cbn. by rewrite IH.
Qed.

Lemma append_cancel_r (a b t : string) : a +:+ t = b +:+ t -> a = b.
Proof.
  intros H.
  assert (Hlen : String.length a = String.length b).
  { apply (f_equal String.length) in H. rewrite !length_append in H. lia. }
  revert b H Hlen. induction a as [|x a IH]; intros [|y b] H Hlen; try done.
  rewrite !append_cons in H. cbn in Hlen. injection H as -> H.
  f_equal. apply IH; [done|lia].
Qed.

Lemma free_of_app c (a b : string) : free_of c a -> free_of c b -> free_of c (a +:+ b).
Proof.
  induction a as [|x a IH]; [done|]. rewrite append_cons. cbn.
  intros [? ?] ?. auto.
Qed.

Lemma pretty_N_char_no_dot n : pretty_N_char n <> "."%char.
Proof. unfold pretty_N_char. repeat case_match; discriminate. Qed.

Lemma pretty_N_go_no_dot x : forall s,
  free_of "." s -> free_of "." (pretty_N_go x s).
Proof.
  induction (N.lt_wf_0 x) as [x _ IH]. intros s Hs.
  destruct (decide (x = 0%N)) as [->|Hx]; [by rewrite pretty_N_go_0|].
  rewrite pretty_N_go_step by lia. apply IH.
  - apply N.div_lt; lia.
  - split; [apply pretty_N_char_no_dot|done].
Qed.

Lemma str_int_no_dot (n : Z) : free_of "." (str_int n).
Proof.
  unfold str_int, pretty, pretty_Z.
  assert (HN : forall m : N, free_of "." (pretty m)).
  { intros m. unfold pretty, pretty_N. case_decide.
    - cbn. split; [discriminate|done].
    - by apply pretty_N_go_no_dot. }
  destruct n as [|p|p]; [cbn; split; [discriminate|done]|apply HN|].
  cbn. split; [discriminate|]. apply HN.
Qed.

Lemma replace_from_passed old new k : forall s,
  (String.length s <= k)%nat -> replace_from old new k s = "".
Proof.
  induction k as [|k IH]; intros [|a s] H; cbn in *; try done; [lia|].
  apply IH. lia.
Qed.

Lemma replace_extension new (stem : string) :
  free_of "." stem -> replace ".xlsx" new (stem +:+ ".xlsx") = stem +:+ new.
Proof.
  unfold replace. induction stem as [|a stem IH]; intros Hfree.
  - vm_compute. by rewrite append_nil_r.
  - destruct Hfree as [Ha Hfree]. rewrite !append_cons.
    cbn [replace_from String.prefix].
    destruct (ascii_dec "." a) as [<-|_]; [done|].
    f_equal. by apply IH.
Qed.

Lemma prefix_no_dot now start ipd :
  free_of "." (generate_filename_prefix now start ipd).
Proof.
  unfold generate_filename_prefix. destruct (_ <? _); [done|].
  cbv zeta. destruct (0 <? _); [|done].
  apply free_of_app; [cbn; repeat (split; [discriminate|]); done|].
  apply free_of_app; [apply str_int_no_dot|]. cbn. split; [discriminate|done].
Qed.

Lemma run_file_name_of_stem now start join dir key stem rdt :
  get_filename now start join dir key (rdt =? 20)
    = Some (generate_filename_prefix now start (rdt =? 20) +:+ stem +:+ ".xlsx") ->
  free_of "." stem ->
  run_file_name now start join dir key rdt
    = Ret (generate_filename_prefix now start (rdt =? 20) +:+ stem +:+ "_"
           +:+ day_type_suffix rdt +:+ ".xlsx").
Proof.
  intros Hname Hstem. unfold run_file_name. rewrite Hname. f_equal.
  set (p := generate_filename_prefix now start (rdt =? 20)).
  rewrite <- (append_assoc p stem ".xlsx"), replace_extension.
  - by rewrite append_assoc.
  - apply free_of_app; [apply prefix_no_dot|done].
Qed.

Lemma prefix_current_day now start :
  start <= date now ->
  generate_filename_prefix now start false
    = "day" +:+ str_int (date now - start + 1) +:+ "_".
Proof.
  intros Hle. unfold generate_filename_prefix.
  assert ((date now <? start) = false) as -> by (by apply Z.ltb_ge).
  cbv zeta. cbn [andb].
  by assert ((0 <? date now - start + 1) = true) as -> by (apply Z.ltb_lt; lia).
Qed.

Lemma run_file_name_same_prefix now now' start join dir key rdt :
  generate_filename_prefix now start (rdt =? 20)
    = generate_filename_prefix now' start (rdt =? 20) ->
  run_file_name now start join dir key rdt = run_file_name now' start join dir key rdt.
Proof.
  intros Hp. unfold run_file_name, get_filename, FILE_NAMES.
  cbn [assoc].
  repeat (destruct (String.eqb key _); [by rewrite Hp|]). reflexivity.
Qed.

Lemma append_inj_l (a b s t : string) :
  String.length a = String.length b -> a +:+ s = b +:+ t -> a = b.
Proof.
  revert b. induction a as [|x a IH]; intros [|y b] Hlen H; try done.
  rewrite !append_cons in H. cbn in Hlen. injection H as -> H.
  f_equal. apply IH; [lia|done].
Qed.

(** X15: [generate_filename_prefix] numbers the days of the event from
    1: on or after the start date the prefix of a run for the current
    day is "dayN_" with N the days since the start plus one, and that of
    a run for the previous day is "dayN_" with the number before, but
    never less than 1; before the start date the prefix is empty. *)
Theorem filename_prefix_numbers_the_days now start :
  (date now < start ->
   generate_filename_prefix now start false = "" /\
   generate_filename_prefix now start true = "") /\
  (start <= date now ->
   generate_filename_prefix now start false
     = "day" +:+ str_int (date now - start + 1) +:+ "_" /\
   generate_filename_prefix now start true
     = "day" +:+ str_int (Z.max 1 (date now - start)) +:+ "_").
Proof.
  unfold generate_filename_prefix. split.
  - intros Hlt. by assert ((date now <? start) = true) as -> by (by apply Z.ltb_lt).
  - intros Hle. assert ((date now <? start) = false) as -> by (by apply Z.ltb_ge).
    cbv zeta. cbn [andb].
    assert ((0 <? date now - start + 1) = true) as -> by (apply Z.ltb_lt; lia).
    split; [done|].
    destruct (1 <? date now - start + 1) eqn:E.
    + apply Z.ltb_lt in E.
      assert ((0 <? date now - start + 1 - 1) = true) as -> by (apply Z.ltb_lt; lia).
      do 3 f_equal. lia.
    + apply Z.ltb_ge in E.
      assert ((0 <? date now - start + 1) = true) as -> by (apply Z.ltb_lt; lia).
      do 3 f_equal. lia.
Qed.

Lemma filename_prefix_numbers_the_days_witness :
  let now := {| year := 2025; month := 7; date := 739437 |} in
  739435 <= date now /\
  generate_filename_prefix now 739435 false = "day3_" /\
  generate_filename_prefix now 739435 true = "day2_".
Proof.
  intros now. assert (H : 739435 <= date now) by (cbn; lia).
  split; [exact H|].
  exact (proj2 (filename_prefix_numbers_the_days now 739435) H).
Defined.

(** X16: the cache file of a run of [multicatch.py] is named
    "<prefix>排行榜_<suffix>.xlsx" and its output file
    "<prefix>信息_<suffix>.xlsx", with the day prefix above and the suffix
    当日 for the ranking type 21 and 前日 otherwise: the replacement of
    ".xlsx" touches the extension only. *)
Theorem run_files_are_named_by_day_and_type now start join dir rdt :
  cache_file_name now start join dir rdt
    = Ret (generate_filename_prefix now start (rdt =? 20) +:+ "排行榜_"
           +:+ day_type_suffix rdt +:+ ".xlsx") /\
  output_file_name now start join dir rdt
    = Ret (generate_filename_prefix now start (rdt =? 20) +:+ "信息_"
           +:+ day_type_suffix rdt +:+ ".xlsx").
Proof.
  split.
  - unfold cache_file_name.
    rewrite (run_file_name_of_stem _ _ _ _ _ "排行榜"); [|done|].
    + reflexivity.
    + cbn. repeat (split; [discriminate|]). done.
  - unfold output_file_name.
    rewrite (run_file_name_of_stem _ _ _ _ _ "信息"); [|done|].
    + reflexivity.
    + cbn. repeat (split; [discriminate|]). done.
Qed.

(** X17: which runs share file names. The runs for the previous day
    made on the first and on the second day of the event use the same
    two file names; the runs for the current day made on two different
    days of the event never share a file name. *)
Theorem run_files_meet_only_on_the_first_days now now' start join dir :
  (date now = start -> date now' = start + 1 ->
   cache_file_name now start join dir 20 = cache_file_name now' start join dir 20 /\
   output_file_name now start join dir 20 = output_file_name now' start join dir 20) /\
  (start <= date now < date now' ->
   cache_file_name now start join dir 21 <> cache_file_name now' start join dir 21 /\
   output_file_name now start join dir 21 <> output_file_name now' start join dir 21).
Proof.
  split.
  - intros H1 H2.
    assert (Hp : generate_filename_prefix now start (20 =? 20)
                 = generate_filename_prefix now' start (20 =? 20)).
    { unfold generate_filename_prefix. rewrite H1, H2.
      assert ((start <? start) = false) as -> by (apply Z.ltb_ge; lia).
      assert ((start + 1 <? start) = false) as -> by (apply Z.ltb_ge; lia).
      cbv zeta.
      replace (start - start + 1) with 1 by lia.
      replace (start + 1 - start + 1) with 2 by lia. reflexivity. }
    split.
    + apply run_file_name_same_prefix, Hp.
    + apply run_file_name_same_prefix, Hp.
  - intros Hd.
    assert (Hne : forall key stem,
      get_filename now start join dir key (21 =? 20)
        = Some (generate_filename_prefix now start (21 =? 20) +:+ stem +:+ ".xlsx") ->
      get_filename now' start join dir key (21 =? 20)
        = Some (generate_filename_prefix now' start (21 =? 20) +:+ stem +:+ ".xlsx") ->
      free_of "." stem ->
      run_file_name now start join dir key 21 <> run_file_name now' start join dir key 21).
    { intros key stem Hn Hn' Hstem.
      rewrite (run_file_name_of_stem _ _ _ _ _ stem 21 Hn Hstem).
      rewrite (run_file_name_of_stem _ _ _ _ _ stem 21 Hn' Hstem).
      cbn [Z.eqb Pos.eqb].
      rewrite !prefix_current_day by lia.
      rewrite !(append_assoc "day"), !(append_assoc (str_int _)).
      intros [= H].
      assert (Hlen : String.length (str_int (date now - start + 1))
                     = String.length (str_int (date now' - start + 1))).
      { apply (f_equal String.length) in H. rewrite !length_append in H. lia. }
      apply (append_inj_l _ _ _ _ Hlen) in H.
      assert (date now - start + 1 = date now' - start + 1); [|lia].
      by apply (inj pretty). }
    split.
    + apply (Hne "ranking_cache" "排行榜"); [done|done|].
      cbn. repeat (split; [discriminate|]). done.
    + apply (Hne "ranking_full" "信息"); [done|done|].
      cbn. repeat (split; [discriminate|]). done.
Qed.

Lemma run_files_meet_only_on_the_first_days_witness :
  let now := {| year := 2025; month := 7; date := 739435 |} in
  let now' := {| year := 2025; month := 7; date := 739436 |} in
  let join := fun a b : string => a +:+ "/" +:+ b in
  date now = 739435 /\ date now' = 739435 + 1 /\
  cache_file_name now 739435 join "." 20 = Ret "day1_排行榜_前日.xlsx" /\
  cache_file_name now' 739435 join "." 20 = Ret "day1_排行榜_前日.xlsx".
Proof.
  intros now now' join.
  assert (H1 : date now = 739435) by reflexivity.
  assert (H2 : date now' = 739435 + 1) by reflexivity.
  split; [exact H1|]. split; [exact H2|].
  pose proof (proj1 (proj1 (run_files_meet_only_on_the_first_days
                              now now' 739435 join ".") H1 H2)) as H.
  split; [reflexivity|]. rewrite <- H. reflexivity.
Defined.
End FileNameFacts.
(** ** [multicatch.py]: the order of the output columns *)
Section ColumnOrder.

Lemma filter_split (f : string -> bool) (l : list string) :
  List.filter (fun x => negb (f x)) l ++ List.filter f l ≡ₚ l.
Proof.
  induction l as [|x l IH]; [done|]. cbn [List.filter].
  destruct (f x); cbn [negb].
  - rewrite <- Permutation_middle. by constructor.
  - cbn. by constructor.
Qed.

Lemma index_split x (l : list string) i :
  index x l = Some i ->
  exists before after,
    l = before ++ (x :: after) /\ (x ∉ before) /\ length before = i.
Proof.
  revert i. induction l as [|y l IH]; intros i H; [done|]. cbn in H.
  destruct (String.eqb y x) eqn:E.
  - apply String.eqb_eq in E. subst y. injection H as <-.
    exists [], l. split; [done|]. split; [apply not_elem_of_nil|done].
  - apply String.eqb_neq in E.
    destruct (index x l) as [j|] eqn:Hj; [|done]. cbn in H. injection H as <-.
    destruct (IH j eq_refl) as (before & after & -> & Hni & Hlen).
    exists (y :: before), after. split; [done|]. split; [|by cbn; rewrite Hlen].
    intros [->|Hin]%elem_of_cons; done.
Qed.

Lemma index_none x (l : list string) : index x l = None -> x ∉ l.
Proof.
  induction l as [|y l IH]; intros H; [apply not_elem_of_nil|]. cbn in H.
  destruct (String.eqb y x) eqn:E; [done|]. apply String.eqb_neq in E.
  destruct (index x l); [done|].
  intros [->|Hin]%elem_of_cons; [done|]. by apply IH.
Qed.

(** X18: the reordering of the output columns loses and repeats no
    column. When there is a column [point], the columns of the ladders
    (those that end in 分数 or in " rank") come right after it, in the
    order they had, and the other columns keep their order around them;
    when there is none the order is left as it was. *)
Theorem new_columns_moves_the_ladders_after_point (all_columns : list string) :
  new_columns all_columns ≡ₚ all_columns /\
  let base_columns := List.filter (fun col => negb (is_abc col)) all_columns in
  let abc_columns := List.filter is_abc all_columns in
  ("point" ∈ all_columns ->
   exists before after,
     base_columns = before ++ ("point" :: after) /\ ("point" ∉ before) /\
     new_columns all_columns = before ++ ("point" :: abc_columns ++ after)) /\
  ("point" ∉ all_columns -> new_columns all_columns = all_columns).
Proof.
  cbv zeta. unfold new_columns.
  set (base := List.filter (fun col => negb (is_abc col)) all_columns).
  set (abc := List.filter is_abc all_columns).
  assert (Hperm : base ++ abc ≡ₚ all_columns) by apply filter_split.
  destruct (index "point" base) as [i|] eqn:Hi.
  - destruct (index_split _ _ _ Hi) as (before & after & Hb & Hni & Hlen).
    assert ((Z.of_nat i =? -1) = false) as -> by (apply Z.eqb_neq; lia).
    cbn [negb]. replace (Z.to_nat (Z.of_nat i + 1)) with (Datatypes.S i) by lia.
    assert (Ht : take (Datatypes.S i) base = before ++ ["point"]).
    { rewrite Hb, cons_middle, app_assoc.
      rewrite take_app_length'; [done|]. rewrite length_app. cbn. lia. }
    assert (Hd : drop (Datatypes.S i) base = after).
    { rewrite Hb, cons_middle, app_assoc.
      rewrite drop_app_length'; [done|]. rewrite length_app. cbn. lia. }
    rewrite Ht, Hd. split; [|split].
    + rewrite <- Hperm, Hb.
      rewrite <- !app_assoc. cbn [app]. do 2 f_equiv.
      by rewrite Permutation_app_comm.
    + intros _. exists before, after. split; [done|]. split; [done|].
      by rewrite <- app_assoc.
    + intros Hno. exfalso. apply Hno.
      assert (Hin : "point" ∈ base) by (rewrite Hb; set_solver).
      apply list_elem_of_In, List.filter_In in Hin as [Hin _].
      by apply list_elem_of_In.
  - cbn. split; [done|]. split; [|done].
    intros Hin. exfalso. apply (index_none _ _ Hi).
    apply list_elem_of_In, List.filter_In. split; [by apply list_elem_of_In|done].
Qed.

Lemma new_columns_moves_the_ladders_after_point_witness :
  let all_columns :=
    ["player_id"; "player_name"; "rank"; "point"; "花帆"; "季度等级";
     "A分数"; "A rank"; "B分数"; "B rank"] in
  "point" ∈ all_columns /\
  new_columns all_columns =
    ["player_id"; "player_name"; "rank"; "point";
     "A分数"; "A rank"; "B分数"; "B rank"; "花帆"; "季度等级"] /\
  exists before after,
    List.filter (fun col => negb (is_abc col)) all_columns
      = before ++ ("point" :: after) /\ ("point" ∉ before) /\
    new_columns all_columns
      = before ++ ("point" :: List.filter is_abc all_columns ++ after).
Proof.
  intros all_columns.
  assert (H : "point" ∈ all_columns) by (do 3 right; left).
  split; [exact H|]. split; [reflexivity|].
  exact (proj1 (proj2 (new_columns_moves_the_ladders_after_point all_columns)) H).
Defined.
End ColumnOrder.
(** ** account.json and the resource version *)
Section AccountFacts.
Variable format : json -> string.

Lemma set_nested_spec obj k1 k2 v obj' :
  set_nested obj k1 k2 v = Ret obj' <->
  exists d inner,
    obj = JDict d /\ assoc k1 d = Some (JDict inner) /\
    obj' = JDict (dict_set k1 (JDict (dict_set k2 v inner)) d).
Proof.
  unfold set_nested. split.
  - destruct obj as [| | | | |d]; try done. cbn [py_item].
    destruct (assoc k1 d) as [inner|] eqn:E; [|done]. cbn [obind].
    destruct inner as [| | | | |inner]; try done. cbn. intros [= <-].
    by exists d, inner.
  - intros (d & inner & -> & E & ->). cbn [py_item]. by rewrite E.
Qed.

Lemma assoc_dict_set_same {V} k (v : V) d : assoc k (dict_set k v d) = Some v.
Proof. by rewrite assoc_dict_set, String.eqb_refl. Qed.

Lemma assoc_dict_set_other {V} k k' (v : V) d :
  k <> k' -> assoc k (dict_set k' v d) = assoc k d.
Proof.
  intros Hne. rewrite assoc_dict_set.
  by apply String.eqb_neq in Hne as ->.
Qed.

(** X19: [update_auth_token] works exactly when account.json holds an
    object with an [auth] object (it cannot create the file or the
    entry), and what it stores is what [get_current_token] reads back:
    "Bearer <token>", the value it also puts in [HEADERS], or [None] for
    an empty token. The other entries of the file are left as they
    were. *)
Theorem stored_token_is_read_back session_token s :
  ((exists d auth, account_json s = Some (Doc (JDict d)) /\
                   assoc "auth" d = Some (JDict auth)) <->
   exists s', update_auth_token format session_token s = Ret s') /\
  (forall s', update_auth_token format session_token s = Ret s' ->
     get_current_token format (account_json s')
       = Ret (if truthy session_token
              then JStr ("Bearer " +:+ format session_token) else JNull) /\
     assoc "Authorization" (HEADERS s')
       = Some (JStr ("Bearer " +:+ format session_token)) /\
     forall k, k <> "auth" ->
       py_item (load_account_config (account_json s')) k
       = py_item (load_account_config (account_json s)) k).
Proof.
  unfold update_auth_token. split; [split|].
  - intros (d & auth & Hf & Ha). rewrite Hf. cbn [load_account_config].
    assert (E : set_nested (JDict d) "auth" "token" session_token
                = Ret (JDict (dict_set "auth"
                                (JDict (dict_set "token" session_token auth)) d))).
    { apply set_nested_spec. by exists d, auth. }
    rewrite E. cbn [obind]. eauto.
  - intros [s' H].
    destruct (set_nested _ _ _ _) as [obj'|] eqn:E; [|done].
    apply set_nested_spec in E as (d & auth & Hl & Ha & _).
    exists d, auth. split; [|done].
    destruct (account_json s) as [[j|raw]|]; cbn in Hl; try done.
    + by subst j.
    + injection Hl as <-. done.
    + injection Hl as <-. done.
  - intros s' H.
    destruct (set_nested _ _ _ _) as [obj'|] eqn:E; [|done].
    cbn [obind] in H. injection H as <-. cbn [account_json HEADERS].
    apply set_nested_spec in E as (d & auth & Hl & Ha & ->).
    split; [|split].
    + unfold get_current_token. cbn [save_account_config load_account_config py_get].
      rewrite assoc_dict_set_same. cbn [obind py_get].
      rewrite assoc_dict_set_same. cbn [obind].
      by destruct (truthy session_token).
    + apply assoc_dict_set_same.
    + intros k Hk. rewrite Hl.
      cbn [save_account_config load_account_config py_item].
      by rewrite assoc_dict_set_other.
Qed.

(** X20: [update_res_version] changes nothing but the entry
    [auth.resource_version]: the stored value is the one given, the token
    that [get_current_token] reads is the one it read before, and every
    other entry of the file is as it was. *)
Theorem res_version_update_keeps_the_token res_version f f' :
  update_res_version res_version f = Ret f' ->
  obind (py_item (load_account_config f') "auth")
        (fun auth => py_item auth "resource_version") = Ret res_version /\
  get_current_token format f' = get_current_token format f /\
  (forall k, k <> "resource_version" ->
     obind (py_item (load_account_config f') "auth") (fun auth => py_item auth k)
     = obind (py_item (load_account_config f) "auth") (fun auth => py_item auth k)) /\
  (forall k, k <> "auth" ->
     py_item (load_account_config f') k = py_item (load_account_config f) k).
Proof.
  unfold update_res_version. intros H.
  destruct (set_nested _ _ _ _) as [obj'|] eqn:E; [|done].
  cbn [obind] in H. injection H as <-.
  apply set_nested_spec in E as (d & auth & Hl & Ha & ->).
  cbn [save_account_config load_account_config]. rewrite Hl.
  split; [|split; [|split]].
  - cbn [py_item]. rewrite assoc_dict_set_same. cbn [obind py_item].
    by rewrite assoc_dict_set_same.
  - unfold get_current_token. cbn [save_account_config load_account_config].
    rewrite Hl. cbn [py_get]. rewrite assoc_dict_set_same, Ha. cbn [obind py_get].
    by rewrite assoc_dict_set_other by done.
  - intros k Hk. cbn [py_item]. rewrite assoc_dict_set_same, Ha. cbn [obind py_item].
    by rewrite assoc_dict_set_other.
  - intros k Hk. cbn [py_item]. by rewrite assoc_dict_set_other.
Qed.

(** X21: a registration is read back. When the reply to the
    registration request is a JSON object with [player_id],
    [device_specific_id] and [session_token], and account.json is absent
    or unreadable, or holds an object with [accounts] and [auth] objects,
    [register_account] leaves a file in which the current account is
    新注册 with that player and device, and [get_current_token] reads
    the session token back. The status of the reply plays no part. *)
Theorem registration_is_read_back TEMP_DEVICE_ID resp data
  player_id device_id session_token f :
  json_loads (body resp) = Ret (JDict data) ->
  assoc "player_id" data = Some player_id ->
  assoc "device_specific_id" data = Some device_id ->
  assoc "session_token" data = Some session_token ->
  (f = None \/ (exists raw, f = Some (Raw raw)) \/
   exists d accounts auth,
     f = Some (Doc (JDict d)) /\ assoc "accounts" d = Some (JDict accounts) /\
     assoc "auth" d = Some (JDict auth)) ->
  exists f',
    register_account TEMP_DEVICE_ID (Got resp) f = Ret f' /\
    py_item (load_account_config f') "current_account" = Ret (JStr "新注册") /\
    obind (py_item (load_account_config f') "accounts")
          (fun accounts => py_item accounts "新注册")
      = Ret (JDict [("device_id", device_id); ("player_id", player_id)]) /\
    get_current_token format f'
      = Ret (if truthy session_token
             then JStr ("Bearer " +:+ format session_token) else JNull).
Proof.
  intros Hbody Hp Hd Ht Hf.
  assert (exists d accounts auth,
            register_load_account_config TEMP_DEVICE_ID f = JDict d /\
            assoc "accounts" d = Some (JDict accounts) /\
            assoc "auth" d = Some (JDict auth)) as (d & accounts & auth & Hl & Hacc & Hauth).
  { destruct Hf as [->|[[raw ->]|(d & accounts & auth & -> & ? & ?)]].
    - by eexists _, _, _.
    - by eexists _, _, _.
    - by exists d, accounts, auth. }
  unfold register_account. rewrite Hbody, Hp, Hd, Ht.
  unfold update_account_json. rewrite Hl.
  set (entry := JDict [("device_id", device_id); ("player_id", player_id)]).
  assert (E1 : set_nested (JDict d) "accounts" "新注册" entry
               = Ret (JDict (dict_set "accounts"
                               (JDict (dict_set "新注册" entry accounts)) d))).
  { apply set_nested_spec. by exists d, accounts. }
  rewrite E1. cbn [obind py_setitem].
  set (d1 := dict_set "current_account" _ _).
  assert (Hauth1 : assoc "auth" d1 = Some (JDict auth)).
  { unfold d1. by rewrite !assoc_dict_set_other. }
  assert (E2 : set_nested (JDict d1) "auth" "token" session_token
               = Ret (JDict (dict_set "auth"
                               (JDict (dict_set "token" session_token auth)) d1))).
  { apply set_nested_spec. by exists d1, auth. }
  rewrite E2. cbn [obind]. eexists. split; [reflexivity|].
  cbn [save_account_config load_account_config py_item].
  split; [|split].
  - rewrite assoc_dict_set_other by done. unfold d1. by rewrite assoc_dict_set_same.
  - rewrite assoc_dict_set_other by done. unfold d1.
    rewrite assoc_dict_set_other by done. rewrite assoc_dict_set_same.
    cbn [obind py_item]. by rewrite assoc_dict_set_same.
  - unfold get_current_token.
    cbn [save_account_config load_account_config py_get].
    rewrite assoc_dict_set_same. cbn [obind py_get].
    rewrite assoc_dict_set_same. cbn [obind].
    by destruct (truthy session_token).
Qed.

(** A text is free of the separator up to its first occurrence. *)
Lemma before_spec sep (s : string) :
  free_of sep (before sep s) /\
  (s = before sep s \/
   exists rest, s = before sep s +:+ String sep rest).
Proof.
  induction s as [|a s [IH1 IH2]]; [split; [done|by left]|]. cbn [before].
  destruct (Ascii.eqb a sep) eqn:E.
  - apply Ascii.eqb_eq in E. subst a. split; [done|]. right. by exists s.
  - apply Ascii.eqb_neq in E. split; [done|].
    destruct IH2 as [IH2|[rest IH2]].
    + left. by rewrite <- IH2.
    + right. exists rest. by rewrite append_cons, <- IH2.
Qed.

(** X22: [get_resource_version] returns the text of the header
    [x-res-version] up to its first "@": the result contains no "@" and
    the header is the result, or the result followed by "@" and a
    signature. One request is sent, and nothing is slept. *)
Theorem resource_version_is_the_header_before_at
  (S : Type) HEADERS prev client resp raw rest (s : S) :
  h_status_code resp = 200 ->
  assoc "x-res-version" (h_headers resp) = Some raw -> raw <> "" ->
  exists version,
    exec (get_resource_version HEADERS (Some prev) (Some client))
         (HGot resp :: rest) s
      = Some (Ret (JStr version), s, [Sent (LoginPost prev client)]) /\
    free_of "@" version /\
    (raw = version \/ exists signature, raw = version +:+ "@" +:+ signature).
Proof.
  intros H200 Hraw Hne. exists (before "@" raw).
  split; [|apply before_spec].
  unfold get_resource_version, retry_request, wrapper, get_resource_version_func.
  cbn. rewrite H200, Hraw. cbn.
  apply String.eqb_neq in Hne. rewrite Hne. reflexivity.
Qed.
(** A wrapped function that sends one request and ends: the wrapper
    runs as on the outcomes [g r] of the replies. *)
Lemma exec_link_one_ask {S Q R A B} (w : prog S unit (outcome B) A)
  (q : Q) (kf : R -> prog S Q R B) (g : R -> outcome B) :
  (forall r, kf r = Done (g r)) ->
  forall rs s,
    exec (link w (Ask q kf)) rs s =
    match exec w (g <$> rs) s with
    | Some (o, s', tr) => Some (o, s', sent_as q <$> tr)
    | None => None
    end.
Proof.
  intros Hkf.
  induction w as [o|act k IH|[] k IH|d k IH]; intros rs s; cbn [link exec].
  - done.
  - apply IH.
  - cbn [on_finish exec]. destruct rs as [|r rs]; [done|]. cbn [fmap list_fmap].
    rewrite Hkf. cbn [on_finish]. rewrite IH.
    by destruct (exec (k (g r)) (g <$> rs) s) as [[[o s'] tr]|].
  - rewrite IH. by destruct (exec k (g <$> rs) s) as [[[o s'] tr]|].
Qed.

(** What follows a program, when it asks nothing. *)
Lemma exec_on_finish_quiet {S Q R A B} (p : prog S Q R A)
  (F : outcome A -> prog S Q R B) :
  forall rs s o s' tr,
    exec p rs s = Some (o, s', tr) ->
    (forall rs', exec (F o) rs' s' = exec (F o) [] s') ->
    exec (on_finish p F) rs s =
    match exec (F o) [] s' with
    | Some (o2, s2, tr2) => Some (o2, s2, tr ++ tr2)
    | None => None
    end.
Proof.
  induction p as [o'|act k IH|q k IH|d k IH]; intros rs s o s' tr H HF;
    cbn [on_finish exec] in *.
  - injection H as <- <- <-. rewrite HF.
    by destruct (exec (F o') [] s) as [[[o2 s2] tr2]|].
  - by apply IH.
  - destruct rs as [|r rs]; [done|].
    destruct (exec (k r) rs s) as [[[o1 s1] tr1]|] eqn:E; [|done].
    injection H as <- <- <-. rewrite (IH _ _ _ _ _ _ E HF).
    by destruct (exec (F o1) [] s1) as [[[o2 s2] tr2]|].
  - destruct (exec k rs s) as [[[o1 s1] tr1]|] eqn:E; [|done].
    injection H as <- <- <-. rewrite (IH _ _ _ _ _ E HF).
    by destruct (exec (F o1) [] s1) as [[[o2 s2] tr2]|].
Qed.

(** X23: a version lookup that fails is recorded as a success. When the
    three attempts of [get_resource_version] are rejected (transport
    error, status other than 200, or no version in the headers), no
    exception reaches [update_latest_resource_version]: it gets [None],
    stores it as [auth.resource_version] in account.json, and returns
    [True]. *)
Theorem failed_version_lookup_is_stored_as_None HEADERS prev d auth r1 r2 r3 rest :
  default_res_version HEADERS = Ret prev ->
  rejected r1 -> rejected r2 -> rejected r3 ->
  assoc "auth" d = Some (JDict auth) ->
  let q := LoginPost prev (default (JStr "") (assoc "x-client-version" HEADERS)) in
  exec (update_latest_resource_version HEADERS) (r1 :: r2 :: r3 :: rest)
       (Some (Doc (JDict d)))
  = Some (Ret true,
          Some (Doc (JDict (dict_set "auth"
                              (JDict (dict_set "resource_version" JNull auth)) d))),
          [Sent q; Slept 1; Sent q; Slept 2; Sent q]).
Proof.
  intros Hprev H1 H2 H3 Hauth q.
  set (g := fun r : hreply =>
    match r with
    | HFailed msg response => Raise (RequestException msg response)
    | HGot response =>
        if negb (h_status_code response =? 200)
        then Raise (PyException "RuntimeError")
        else if String.eqb (default "" (assoc "x-res-version" (h_headers response))) ""
             then Raise (PyException "RuntimeError")
             else Ret (VJson (JStr (before "@"
                        (default "" (assoc "x-res-version" (h_headers response))))))
    end).
  assert (Hg : forall r, rejected r -> fails (g r) = true).
  { intros [resp|msg response] Hr; [|done]. unfold g.
    destruct Hr as [Hs|Hh].
    - apply Z.eqb_neq in Hs. by rewrite Hs.
    - rewrite Hh. by destruct (negb _). }
  assert (Hget : forall f : file,
    exec (get_resource_version HEADERS None None) (r1 :: r2 :: r3 :: rest) f
    = Some (Ret JNull, f, [Sent q; Slept 1; Sent q; Slept 2; Sent q])).
  { intros f. unfold get_resource_version, retry_request, get_resource_version_func.
    rewrite Hprev. cbn [lift].
    rewrite (exec_link_one_ask _ _ _ g).
    - unfold wrapper.
      rewrite (retry_loop_exhausted 3 1 3 0 None);
        [reflexivity|done|cbn; lia|].
      cbn. repeat constructor; by apply Hg.
    - intros [resp|msg response]; unfold g; [|done].
      destruct (negb _); [done|]. by destruct (String.eqb _ _). }
  unfold update_latest_resource_version.
  assert (Hup : update_res_version JNull (Some (Doc (JDict d)))
                = Ret (Some (Doc (JDict (dict_set "auth"
                         (JDict (dict_set "resource_version" JNull auth)) d))))).
  { unfold update_res_version. cbn [load_account_config].
    assert (E : set_nested (JDict d) "auth" "resource_version" JNull
                = Ret (JDict (dict_set "auth"
                                (JDict (dict_set "resource_version" JNull auth)) d))).
    { apply set_nested_spec. by exists d, auth. }
    by rewrite E. }
  rewrite (exec_on_finish_quiet _ _ _ _ _ _ _ (Hget _)).
  - cbn [exec]. rewrite Hup. reflexivity.
  - intros rs'. cbn [exec]. rewrite Hup. reflexivity.
Qed.
End AccountFacts.

Lemma stored_token_is_read_back_witness :
  let f := Some (Doc (JDict [("auth", JDict [("token", JStr "old")])])) in
  let s := {| account_json := f; HEADERS := [] |} in
  let fmt := fun j => match j with JStr t => t | _ => "" end in
  exists s', update_auth_token fmt (JStr "T") s = Ret s' /\
             get_current_token fmt (account_json s') = Ret (JStr "Bearer T").
Proof.
  intros f s fmt. eexists. split; [reflexivity|].
  exact (proj1 (proj2 (stored_token_is_read_back fmt (JStr "T") s) _ eq_refl)).
Defined.

Lemma res_version_update_keeps_the_token_witness :
  let f := Some (Doc (JDict [("auth", JDict [("token", JStr "T");
                                            ("resource_version", JStr "R1")])])) in
  let fmt := fun j => match j with JStr t => t | _ => "" end in
  exists f', update_res_version (JStr "R2") f = Ret f' /\
             get_current_token fmt f' = get_current_token fmt f.
Proof.
  intros f fmt. eexists. split; [reflexivity|].
  exact (proj1 (proj2 (res_version_update_keeps_the_token fmt (JStr "R2") f _ eq_refl))).
Defined.

Lemma registration_is_read_back_witness :
  let data := [("player_id", JStr "P"); ("device_specific_id", JStr "D");
               ("session_token", JStr "T")] in
  let resp := {| status_code := 500; body := Doc (JDict data) |} in
  let fmt := fun j => match j with JStr t => t | _ => "" end in
  json_loads (body resp) = Ret (JDict data) /\
  exists f',
    register_account "tmp" (Got resp) None = Ret f' /\
    py_item (load_account_config f') "current_account" = Ret (JStr "新注册") /\
    obind (py_item (load_account_config f') "accounts")
          (fun accounts => py_item accounts "新注册")
      = Ret (JDict [("device_id", JStr "D"); ("player_id", JStr "P")]) /\
    get_current_token fmt f' = Ret (JStr "Bearer T").
Proof.
  intros data resp fmt. split; [reflexivity|].
  exact (registration_is_read_back fmt "tmp" resp data (JStr "P") (JStr "D") (JStr "T")
           None eq_refl eq_refl eq_refl eq_refl (or_introl eq_refl)).
Defined.

Lemma resource_version_is_the_header_before_at_witness :
  let resp := {| h_status_code := 200;
                 h_headers := [("x-res-version", "R2504400@abc")];
                 h_text := Raw "" |} in
  h_status_code resp = 200 /\
  assoc "x-res-version" (h_headers resp) = Some "R2504400@abc" /\
  "R2504400@abc" <> "" /\
  exists version,
    exec (S:=unit) (get_resource_version [] (Some (JStr "R1")) (Some (JStr "3.1.0")))
         [HGot resp] tt
      = Some (Ret (JStr version), tt, [Sent (LoginPost (JStr "R1") (JStr "3.1.0"))]) /\
    free_of "@" version /\
    ("R2504400@abc" = version \/
     exists signature, "R2504400@abc" = version +:+ "@" +:+ signature).
Proof.
  intros resp.
  assert (H3 : "R2504400@abc" <> "") by discriminate.
  split; [reflexivity|]. split; [reflexivity|]. split; [exact H3|].
  exact (resource_version_is_the_header_before_at unit [] (JStr "R1") (JStr "3.1.0")
           resp "R2504400@abc" [] tt eq_refl eq_refl H3).
Defined.

Lemma failed_version_lookup_is_stored_as_None_witness :
  let down := HGot {| h_status_code := 503; h_headers := []; h_text := Raw "" |} in
  let HEADERS := [("x-res-version", JStr "R1@sig"); ("x-client-version", JStr "3.1.0")] in
  let d := [("auth", JDict [("token", JStr "T"); ("resource_version", JStr "R1")])] in
  default_res_version HEADERS = Ret (JStr "R1") /\ rejected down /\
  exec (update_latest_resource_version HEADERS) [down; down; down]
       (Some (Doc (JDict d)))
  = Some (Ret true,
          Some (Doc (JDict [("auth", JDict [("token", JStr "T");
                                            ("resource_version", JNull)])])),
          [Sent (LoginPost (JStr "R1") (JStr "3.1.0")); Slept 1;
           Sent (LoginPost (JStr "R1") (JStr "3.1.0")); Slept 2;
           Sent (LoginPost (JStr "R1") (JStr "3.1.0"))]).
Proof.
  intros down HEADERS d.
  assert (Hr : rejected down) by (left; done).
  split; [reflexivity|]. split; [exact Hr|].
  exact (failed_version_lookup_is_stored_as_None HEADERS (JStr "R1") d
           [("token", JStr "T"); ("resource_version", JStr "R1")]
           down down down [] eq_refl Hr Hr Hr eq_refl).
Defined.
(** ** [login.py]: the login request *)
Section LoginFacts.
Variable format : json -> string.

Lemma assoc_dict_pop {V} k k' (d : list (string * V)) :
  assoc k' (dict_pop k d) = if String.eqb k k' then None else assoc k' d.
Proof.
  unfold dict_pop.
  induction d as [|[k0 v] d IH]; [by destruct (String.eqb k k')|].
  cbn [List.filter fst]. destruct (String.eqb k k0) eqn:E0; cbn [negb assoc].
  - apply String.eqb_eq in E0 as <-. rewrite IH.
    destruct (String.eqb k k') eqn:E; [done|].
    by rewrite String.eqb_sym, E.
  - destruct (String.eqb k' k0) eqn:E1; [|done].
    apply String.eqb_eq in E1 as ->. by rewrite E0.
Qed.

(** One call of the body of [login] that is accepted: what is sent, what
    becomes of [HEADERS] and of the file, and what the call hands back. *)
Lemma login_func_accepted {B} player_id device_id resp raw
  (F : outcome pyval -> prog state login_call hreply B) rest s :
  h_status_code resp = 200 ->
  assoc "x-res-version" (h_headers resp) = Some raw -> raw <> "" ->
  let version := JStr (before "@" raw) in
  let s1 := {| account_json := account_json s;
               HEADERS := dict_set "x-res-version" version (HEADERS s) |} in
  exec (on_finish (login_func player_id device_id) F) (HGot resp :: rest) s =
  match
    match update_res_version version (account_json s) with
    | Ret f' =>
        exec (F (obind (response_json (as_Response resp)) (fun j => Ret (VJson j))))
             rest {| account_json := f'; HEADERS := HEADERS s1 |}
    | Raise e => exec (F (Raise e)) rest s1
    end
  with
  | Some (o, s', tr) =>
      Some (o, s',
            Sent (LoginCall player_id device_id
                    (dict_pop "Authorization" (HEADERS s))) :: tr)
  | None => None
  end.
Proof.
  intros Hst Hraw Hne version s1. unfold login_func.
  cbn [on_finish exec]. rewrite Hst. cbn [Z.eqb Pos.eqb].
  rewrite Hraw. cbn [default]. unfold id.
  assert ((raw =? "")%string = false) as -> by (by apply String.eqb_neq).
  cbn [negb on_finish exec account_json HEADERS].
  fold version.
  by destruct (update_res_version version (account_json s)) as [f'|e].
Qed.

(** X24: a login that the server accepts on the first call returns the
    decoded body after one request, sent with the headers of [HEADERS]
    but without [Authorization]. Afterwards [HEADERS] and account.json
    hold the same resource version, the text of the reply's header
    [x-res-version] up to its first "@", and the stored token is as it
    was. This needs an [auth] object in account.json. *)
Theorem login_records_the_version player_id device_id resp raw j d auth rest s :
  h_status_code resp = 200 ->
  assoc "x-res-version" (h_headers resp) = Some raw -> raw <> "" ->
  h_text resp = Doc j -> j <> JNull ->
  account_json s = Some (Doc (JDict d)) -> assoc "auth" d = Some (JDict auth) ->
  exists version s' headers,
    exec (login player_id device_id) (HGot resp :: rest) s
      = Some (Ret j, s', [Sent (LoginCall player_id device_id headers)]) /\
    (forall k, assoc k headers
               = if String.eqb "Authorization" k then None else assoc k (HEADERS s)) /\
    free_of "@" version /\
    (raw = version \/ exists signature, raw = version +:+ "@" +:+ signature) /\
    assoc "x-res-version" (HEADERS s') = Some (JStr version) /\
    obind (py_item (load_account_config (account_json s')) "auth")
          (fun auth => py_item auth "resource_version") = Ret (JStr version) /\
    get_current_token format (account_json s')
      = get_current_token format (account_json s).
Proof.
  intros Hst Hraw Hne Hbody Hj Hfile Hauth.
  assert (Hup : update_res_version (JStr (before "@" raw)) (account_json s)
                = Ret (Some (Doc (JDict (dict_set "auth"
                         (JDict (dict_set "resource_version"
                                   (JStr (before "@" raw)) auth)) d))))).
  { unfold update_res_version. rewrite Hfile. cbn [load_account_config].
    assert (E : set_nested (JDict d) "auth" "resource_version" (JStr (before "@" raw))
                = Ret (JDict (dict_set "auth"
                         (JDict (dict_set "resource_version"
                                   (JStr (before "@" raw)) auth)) d))).
    { apply set_nested_spec. by exists d, auth. }
    by rewrite E. }
  eexists (before "@" raw), _, (dict_pop "Authorization" (HEADERS s)).
  split; [|split; [|split; [|split; [|split; [|split]]]]].
  - unfold login, retry_request, wrapper. cbn [retry_loop Nat.ltb Nat.leb negb link].
    rewrite (login_func_accepted _ _ _ raw) by done. rewrite Hup.
    unfold response_json, as_Response. cbn [body]. rewrite Hbody. cbn [obind].
    assert (Htry : forall last, try_body (Ret (VJson j)) last = AReturn j)
      by (by destruct j).
    rewrite Htry. cbn [link exec]. reflexivity.
  - intros k. apply assoc_dict_pop.
  - apply before_spec.
  - destruct (before_spec "@" raw) as [_ [H|[sig H]]]; [by left|right].
    exists sig. by rewrite H at 1.
  - cbn [HEADERS]. apply assoc_dict_set_same.
  - cbn [account_json load_account_config py_item].
    rewrite assoc_dict_set_same. cbn [obind py_item].
    by rewrite assoc_dict_set_same.
  - unfold get_current_token. rewrite Hfile.
    cbn [account_json load_account_config py_get].
    rewrite assoc_dict_set_same, Hauth. cbn [obind py_get].
    by rewrite assoc_dict_set_other by done.
Qed.

(** X25: without an [auth] entry in account.json (the file is absent,
    say) [login] cannot succeed. Each call that the server accepts puts
    the new version in [HEADERS] and then fails on the file, so the
    request is sent three times, each time with the version of the reply
    before, and [login] returns [None]; account.json is left as it
    was. *)
Theorem login_fails_without_auth_entry player_id device_id
  r1 r2 r3 raw1 raw2 raw3 e rest s :
  accepted r1 raw1 -> accepted r2 raw2 -> accepted r3 raw3 ->
  py_item (load_account_config (account_json s)) "auth" = Raise e ->
  let sent := fun H => LoginCall player_id device_id (dict_pop "Authorization" H) in
  let H1 := dict_set "x-res-version" (JStr (before "@" raw1)) (HEADERS s) in
  let H2 := dict_set "x-res-version" (JStr (before "@" raw2)) H1 in
  let H3 := dict_set "x-res-version" (JStr (before "@" raw3)) H2 in
  exec (login player_id device_id) (r1 :: r2 :: r3 :: rest) s
  = Some (Ret JNull, {| account_json := account_json s; HEADERS := H3 |},
          [Sent (sent (HEADERS s)); Slept 1; Sent (sent H1); Slept 2; Sent (sent H2)]).
Proof.
  intros (resp1 & -> & Hs1 & Hr1 & Hn1) (resp2 & -> & Hs2 & Hr2 & Hn2)
         (resp3 & -> & Hs3 & Hr3 & Hn3) Hauth sent H1 H2 H3.
  assert (Hup : forall v, exists e', update_res_version v (account_json s) = Raise e'
                                     /\ exists kind, e' = PyException kind).
  { intros v. unfold update_res_version, set_nested. rewrite Hauth. cbn [obind].
    exists e. split; [done|].
    destruct (load_account_config (account_json s)) as [| | | | |d]; cbn in Hauth;
      try (injection Hauth as <-; eauto).
    destruct (assoc "auth" d); [done|]. injection Hauth as <-; eauto. }
  unfold login, retry_request, wrapper. cbn [retry_loop Nat.ltb Nat.leb negb link].
  rewrite (login_func_accepted _ _ _ raw1) by done.
  destruct (Hup (JStr (before "@" raw1))) as (e1 & -> & k1 & ->).
  cbn [try_body retry_loop Nat.eqb Nat.ltb Nat.leb negb link exec HEADERS account_json].
  rewrite (login_func_accepted _ _ _ raw2) by done.
  cbn [account_json HEADERS].
  destruct (Hup (JStr (before "@" raw2))) as (e2 & -> & k2 & ->).
  cbn [try_body retry_loop Nat.eqb Nat.ltb Nat.leb negb link exec HEADERS account_json].
  rewrite (login_func_accepted _ _ _ raw3) by done.
  cbn [account_json HEADERS].
  destruct (Hup (JStr (before "@" raw3))) as (e3 & -> & k3 & ->).
  cbn [try_body retry_loop Nat.eqb Nat.ltb Nat.leb negb link exec HEADERS account_json].
  reflexivity.
Qed.
End LoginFacts.

Lemma login_records_the_version_witness :
  let resp := {| h_status_code := 200;
                 h_headers := [("x-res-version", "R2505100@abc")];
                 h_text := Doc (JDict [("session_token", JStr "T2")]) |} in
  let d := [("auth", JDict [("token", JStr "T1"); ("resource_version", JStr "R1")])] in
  let s := {| account_json := Some (Doc (JDict d));
              HEADERS := [("Authorization", JStr "Bearer T1");
                          ("x-res-version", JStr "R1")] |} in
  let fmt := fun j => match j with JStr t => t | _ => "" end in
  h_status_code resp = 200 /\
  assoc "x-res-version" (h_headers resp) = Some "R2505100@abc" /\
  "R2505100@abc" <> "" /\
  JDict [("session_token", JStr "T2")] <> JNull /\
  exists version s' headers,
    exec (login (JStr "P") (JStr "D")) [HGot resp] s
      = Some (Ret (JDict [("session_token", JStr "T2")]), s',
              [Sent (LoginCall (JStr "P") (JStr "D") headers)]) /\
    (forall k, assoc k headers
               = if String.eqb "Authorization" k then None else assoc k (HEADERS s)) /\
    free_of "@" version /\
    ("R2505100@abc" = version \/
     exists signature, "R2505100@abc" = version +:+ "@" +:+ signature) /\
    assoc "x-res-version" (HEADERS s') = Some (JStr version) /\
    obind (py_item (load_account_config (account_json s')) "auth")
          (fun auth => py_item auth "resource_version") = Ret (JStr version) /\
    get_current_token fmt (account_json s') = get_current_token fmt (account_json s).
Proof.
  intros resp d s fmt.
  assert (H3 : "R2505100@abc" <> "") by discriminate.
  assert (H5 : JDict [("session_token", JStr "T2")] <> JNull) by discriminate.
  split; [reflexivity|]. split; [reflexivity|]. split; [exact H3|]. split; [exact H5|].
  exact (login_records_the_version fmt (JStr "P") (JStr "D") resp "R2505100@abc"
           (JDict [("session_token", JStr "T2")]) d
           [("token", JStr "T1"); ("resource_version", JStr "R1")] [] s
           eq_refl eq_refl H3 eq_refl H5 eq_refl eq_refl).
Defined.

Lemma login_fails_without_auth_entry_witness :
  let ok := HGot {| h_status_code := 200;
                    h_headers := [("x-res-version", "R2505100@abc")];
                    h_text := Doc (JDict [("session_token", JStr "T2")]) |} in
  let s := {| account_json := None; HEADERS := [("x-res-version", JStr "R1")] |} in
  let q1 := LoginCall (JStr "P") (JStr "D") [("x-res-version", JStr "R1")] in
  let q2 := LoginCall (JStr "P") (JStr "D") [("x-res-version", JStr "R2505100")] in
  accepted ok "R2505100@abc" /\
  py_item (load_account_config (account_json s)) "auth"
    = Raise (PyException "KeyError") /\
  exec (login (JStr "P") (JStr "D")) [ok; ok; ok] s
  = Some (Ret JNull,
          {| account_json := None; HEADERS := [("x-res-version", JStr "R2505100")] |},
          [Sent q1; Slept 1; Sent q2; Slept 2; Sent q2]).
Proof.
  intros ok s q1 q2.
  assert (Ha : accepted ok "R2505100@abc").
  { eexists. split; [reflexivity|]. split; [reflexivity|].
    split; [reflexivity|discriminate]. }
  split; [exact Ha|]. split; [reflexivity|].
  exact (login_fails_without_auth_entry (JStr "P") (JStr "D") ok ok ok
           "R2505100@abc" "R2505100@abc" "R2505100@abc" (PyException "KeyError")
           [] s Ha Ha Ha eq_refl).
Defined.
